(** * Vehicle data service: the embedded-JSON extractor and its pipeline

    A shallow embedding of [app/vehicle_service.py]: the brace-counting
    extractor [_extract_json_object], the tolerant decoder
    [_safe_json_load], the parser with its regular-expression fallback
    [_parse_html], the retrying fetcher [_fetch_html], the cache-backed
    resolver [get_vehicle_info] and the route [lookup] with its debug
    branch.

    Python text ([str]) is modelled by [string]; characters are the 8-bit
    [ascii] code points.  Exceptions are values of [Exception] carried by
    the error monad [Result].  Logging calls have no effect on results and
    are left out. *)

From Stdlib Require Import String Ascii List ZArith Lia Bool Arith PeanoNat.
From Stdlib Require Import DecimalString.
From Stdlib Require DecimalPos.
Import ListNotations.

Local Open Scope string_scope.
Local Open Scope Z_scope.

(** ** Characters the scanner looks at *)

Definition dquote : ascii := "034"%char.
Definition backslash : ascii := "\"%char.
Definition lbrace : ascii := "{"%char.
Definition rbrace : ascii := "}"%char.

(** Test documents are written with ['] standing for the double quote. *)
Fixpoint py (s : string) : string :=
  match s with
  | EmptyString => EmptyString
  | String c s' => String (if Ascii.eqb c "'" then dquote else c) (py s')
  end.

(** ** Exceptions and results *)

Inductive Exception : Type :=
| ValueError (msg : string)
| JSONDecodeError (msg : string)
| IndexError (msg : string)
| KeyError (key : string)
| UnicodeDecodeError (msg : string)
| RecursionError
| TimeoutException (msg : string)
| TransportError (msg : string)
| HTTPStatusError (status_code : Z)
| HTTPException (status_code : Z) (detail : string).

Inductive Result (A : Type) : Type :=
| Ok (a : A)
| Raise (e : Exception).
Arguments Ok {A} a.
Arguments Raise {A} e.

Definition bind {A B} (m : Result A) (k : A -> Result B) : Result B :=
  match m with
  | Ok a => k a
  | Raise e => Raise e
  end.

Notation "x <- m ;; k" := (bind m (fun x => k))
  (at level 61, m at next level, right associativity).

(** [str(exc)] for the exceptions whose text the service interpolates. *)
Definition str_exc (e : Exception) : string :=
  match e with
  | ValueError m | JSONDecodeError m | IndexError m | UnicodeDecodeError m
  | TimeoutException m | TransportError m => m
  | KeyError k => "'" ++ k ++ "'"
  | RecursionError => "maximum recursion depth exceeded"
  | HTTPStatusError _ => "HTTP status error"
  | HTTPException _ d => d
  end.

(** ** Python string primitives *)

(** [s[n:]] *)
Fixpoint drop (n : nat) (s : string) : string :=
  match n, s with
  | O, _ => s
  | S n', String _ s' => drop n' s'
  | S _, EmptyString => EmptyString
  end.

(** Leftmost occurrence of [sub] in the suffix [s], which starts at
    position [pos] of the whole text. *)
Fixpoint find_at (sub s : string) (pos : nat) : option nat :=
  if prefix sub s then Some pos
  else match s with
       | EmptyString => None
       | String _ s' => find_at sub s' (S pos)
       end.

(** [html.find(sub, start)]; [None] stands for Python's [-1]. *)
Definition find (html sub : string) (start : nat) : option nat :=
  if (start <=? String.length html)%nat then find_at sub (drop start html) start
  else None.

(** [range(start, stop)] *)
Definition range (start stop : nat) : list nat := seq start (stop - start).

(** [html[start:stop]] for [0 <= start]. *)
Definition slice (html : string) (start stop : nat) : string :=
  substring start (stop - start) html.

(** ** JSON values

    What [json.loads] returns and [json.dumps] takes.  Numbers are Python
    integers; floating-point numbers are left out of the model.  The
    members of an object are kept in the order of the [dict]. *)

Unset Elimination Schemes.
Inductive json : Type :=
| JNull
| JBool (b : bool)
| JInt (n : Z)
| JString (s : string)
| JArray (items : list json)
| JObject (members : list (string * json)).
Set Elimination Schemes.

(** ** The brace-counting scan of [_extract_json_object] *)

Record ScanState : Type := mkScan {
  brace_level : Z;
  in_string : bool;
  escaped : bool
}.

Definition scan_start : ScanState :=
  {| brace_level := 0; in_string := false; escaped := false |}.

(** One iteration of the loop body either returns from the function (the
    closing brace was found at this position) or goes on with a new state. *)
Inductive Step : Type :=
| Return
| Continue (st : ScanState).

Definition loop_body (st : ScanState) (ch : ascii) : Step :=
  (* a quote that is not escaped toggles in_string *)
  let in_string' :=
    if Ascii.eqb ch dquote && negb (escaped st)
    then negb (in_string st) else in_string st in
  (* escaped = True if ch is a backslash and not escaped, else False *)
  let escaped' := Ascii.eqb ch backslash && negb (escaped st) in
  if negb in_string' then
    if Ascii.eqb ch lbrace then
      Continue (mkScan (brace_level st + 1) in_string' escaped')
    else if Ascii.eqb ch rbrace then
      let level := brace_level st - 1 in
      if level =? 0 then Return
      else Continue (mkScan level in_string' escaped')
    else Continue (mkScan (brace_level st) in_string' escaped')
  else Continue (mkScan (brace_level st) in_string' escaped').

Inductive ScanResult : Type :=
| Closed (pos : nat)          (* return inside the loop, at position [pos] *)
| Exhausted                   (* the loop ran to the end of the range *)
| OutOfRange (pos : nat).     (* [html[pos]] raised IndexError *)

(** [for pos in range(start, len(html)): ch = html[pos]; ...]; the second
    component lists the positions read, in the order they were read. *)
Fixpoint scan_loop (html : string) (positions : list nat) (st : ScanState)
  : ScanResult * list nat :=
  match positions with
  | [] => (Exhausted, [])
  | pos :: rest =>
      match get pos html with
      | None => (OutOfRange pos, [pos])
      | Some ch =>
          match loop_body st ch with
          | Return => (Closed pos, [pos])
          | Continue st' =>
              let (r, reads) := scan_loop html rest st' in (r, pos :: reads)
          end
      end
  end.

Definition quoted (key : string) : string :=
  String dquote (key ++ String dquote "").

Definition escaped_quoted (key : string) : string :=
  String backslash (String dquote (key ++ String backslash (String dquote ""))).

Definition key_not_found (key : string) : Exception :=
  ValueError ("Key '" ++ key ++ "' not found in document").
Definition opening_brace_not_found (key : string) : Exception :=
  ValueError ("Opening brace for key '" ++ key ++ "' not found").
Definition closing_brace_not_found (key : string) : Exception :=
  ValueError ("Could not find matching closing brace for key '" ++ key ++ "'").

(** Position of the key: the plain form first, the escaped form if the
    plain one is absent. *)
Definition find_key (html key : string) : option nat :=
  match find html (quoted key) 0 with
  | Some idx => Some idx
  | None => find html (escaped_quoted key) 0
  end.

(** ** The regular-expression fallback of [_parse_html] *)

(** [\s] of a Python [str] pattern, on 8-bit code points. *)
Definition is_space (c : ascii) : bool :=
  let n := nat_of_ascii c in
  ((9 <=? n) && (n <=? 13) || (28 <=? n) && (n <=? 32)
   || (n =? 133) || (n =? 160))%nat.

Fixpoint skip_spaces (s : string) : string :=
  match s with
  | String c s' => if is_space c then skip_spaces s' else s
  | EmptyString => s
  end.

(** Text up to and including the first closing brace: the non-greedy
    [.*?}] under [re.DOTALL]. *)
Fixpoint up_to_rbrace (s : string) : option string :=
  match s with
  | EmptyString => None
  | String c s' =>
      if Ascii.eqb c rbrace then Some (String c "")
      else match up_to_rbrace s' with
           | Some t => Some (String c t)
           | None => None
           end
  end.

Definition VrmDetails_quoted : string := quoted "VrmDetails".

(** A match of ["VrmDetails"\s*:\s*({.*?})] anchored at the head of [s];
    the result is group 1. *)
Definition match_here (s : string) : option string :=
  if prefix VrmDetails_quoted s then
    match skip_spaces (drop (String.length VrmDetails_quoted) s) with
    | String c1 s1 =>
        if Ascii.eqb c1 ":" then
          match skip_spaces s1 with
          | String c2 s2 =>
              if Ascii.eqb c2 lbrace then
                match up_to_rbrace s2 with
                | Some t => Some (String lbrace t)
                | None => None
                end
              else None
          | EmptyString => None
          end
        else None
    | EmptyString => None
    end
  else None.

(** [re.search]: the match at the leftmost position that has one. *)
Fixpoint regex_search (s : string) : option string :=
  match match_here s with
  | Some g => Some g
  | None => match s with
            | EmptyString => None
            | String _ s' => regex_search s'
            end
  end.

(** ** The upstream, the cache and the configuration *)

Record Config : Type := mkConfig {
  BASE_URL : string;
  RETRY_ATTEMPTS : Z;
  CACHE_TTL : Z;
  CACHE_MAXSIZE : Z
}.

(** The values the module takes when the environment sets none. *)
Definition default_config : Config :=
  {| BASE_URL := "https://bookmygarage.com/garage-detail/sussexautocareltd/rh12lw/book/?ref=sussexautocare.co.uk&vrm={vrm}&referrer=widget";
     RETRY_ATTEMPTS := 3;
     CACHE_TTL := 86400;
     CACHE_MAXSIZE := 5000 |}.

(** [template.format(vrm=vrm)] for templates whose only replacement field
    is [{vrm}]; [skip] counts the characters of a field still to pass. *)
Fixpoint format_vrm (template vrm : string) (skip : nat) : string :=
  match template with
  | EmptyString => EmptyString
  | String c t =>
      match skip with
      | S k => format_vrm t vrm k
      | O => if prefix "{vrm}" template then vrm ++ format_vrm t vrm 4
             else String c (format_vrm t vrm 0)
      end
  end.

Record Response : Type := mkResponse {
  status_code : Z;
  text : string
}.

(** What the network does: the outcome of the [n]-th request (counted from
    0) when it asks for [url].  [http_client.get] returns a response or
    raises. *)
Definition Upstream : Type := string -> nat -> Result Response.

Inductive Event : Type :=
| Get (url : string)       (* await http_client.get(url) *)
| Sleep (seconds : Z).     (* await asyncio.sleep(seconds) *)

Definition is_get (e : Event) : bool :=
  match e with Get _ => true | Sleep _ => false end.

Definition requests (trace : list Event) : nat := List.length (filter is_get trace).
Definition sleeps (trace : list Event) : nat :=
  List.length (filter (fun e => negb (is_get e)) trace).

(** Modelled from the spec: [httpx.Response.raise_for_status] is library
    code; a status outside 200..299 is a non-success status and raises
    [HTTPStatusError]. *)
Definition raise_for_status (r : Response) : Result Response :=
  if (200 <=? status_code r) && (status_code r <=? 299) then Ok r
  else Raise (HTTPStatusError (status_code r)).

(** [except (httpx.TimeoutException, httpx.TransportError)] *)
Definition is_transport_failure (e : Exception) : bool :=
  match e with
  | TimeoutException _ | TransportError _ => true
  | _ => false
  end.

(** [str(last_exc)] inside the f-string *)
Definition str_last (last_exc : option Exception) : string :=
  match last_exc with
  | Some e => str_exc e
  | None => "None"
  end.

(** [range(a, b)] over Python integers *)
Definition zrange (a b : Z) : list Z :=
  map (fun i => a + Z.of_nat i) (seq 0 (Z.to_nat (b - a))).

(** Modelled from the spec: [cachetools.TTLCache] is library code.  A cache
    entry is an (identifier, record) pair with an expiration time set at
    insertion (fixed TTL); the entries are kept from least to most recently
    used, and inserting into a full cache evicts from the least recently
    used end.  Every value has size 1.  The timer reading is passed in. *)
Record Link : Type := mkLink {
  link_key : string;
  link_value : json;
  expires : Z
}.

Record TTLCache : Type := mkCache {
  maxsize : Z;
  ttl : Z;
  links : list Link
}.

Definition new_cache (maxsize ttl : Z) : TTLCache := mkCache maxsize ttl [].

Fixpoint find_link (key : string) (ls : list Link) : option Link :=
  match ls with
  | [] => None
  | l :: rest => if String.eqb (link_key l) key then Some l else find_link key rest
  end.

Definition remove_link (key : string) (ls : list Link) : list Link :=
  filter (fun l => negb (String.eqb (link_key l) key)) ls.

(** [key in cache]: no side effect. *)
Definition cache_contains (c : TTLCache) (now : Z) (key : string) : bool :=
  match find_link key (links c) with
  | Some l => now <? expires l
  | None => false
  end.

(** [cache[key]]: the entry becomes the most recently used one; an expired
    or absent entry raises [KeyError]. *)
Definition cache_getitem (c : TTLCache) (now : Z) (key : string)
  : Result json * TTLCache :=
  match find_link key (links c) with
  | None => (Raise (KeyError key), c)
  | Some l =>
      let c' := mkCache (maxsize c) (ttl c) (remove_link key (links c) ++ [l]) in
      if now <? expires l then (Ok (link_value l), c')
      else (Raise (KeyError key), c')
  end.

Definition expire (now : Z) (ls : list Link) : list Link :=
  filter (fun l => now <? expires l) ls.

(** [while currsize + 1 > maxsize: popitem()] *)
Fixpoint evict (maxsize : Z) (ls : list Link) : list Link :=
  match ls with
  | [] => []
  | _ :: rest =>
      if Z.of_nat (List.length ls) + 1 >? maxsize then evict maxsize rest else ls
  end.

(** [cache[key] = value] *)
Definition cache_setitem (c : TTLCache) (now : Z) (key : string) (value : json)
  : Result unit * TTLCache :=
  let live := expire now (links c) in
  if 1 >? maxsize c then
    (Raise (ValueError "value too large"), mkCache (maxsize c) (ttl c) live)
  else
    let kept := match find_link key live with
                | Some _ => live
                | None => evict (maxsize c) live
                end in
    (Ok tt, mkCache (maxsize c) (ttl c)
                    (remove_link key kept ++ [mkLink key value (now + ttl c)])).

(** The process-wide state: the cache and what went over the network. *)
Record World : Type := mkWorld {
  cache : TTLCache;
  trace : list Event
}.

(** The timer readings of one call of [get_vehicle_info]: at the [in]
    test, at the cache read and at the cache write. *)
Record Timer : Type := mkTimer {
  at_contains : Z;
  at_getitem : Z;
  at_setitem : Z
}.

Section Service.

(** [json.loads] and the [unicode_escape] codec belong to the Python
    standard library; the service is parametric in them.
    [unicode_escape s] stands for
    [bytes(s, "utf-8").decode("unicode_escape")]. *)
Variable json_loads : string -> Result json.
Variable unicode_escape : string -> Result string.

Definition _safe_json_load (json_str : string) : Result json :=
  match json_loads json_str with
  | Ok v => Ok v
  | Raise (JSONDecodeError m) =>
      let exc := JSONDecodeError m in
      match (unescaped <- unicode_escape json_str ;; json_loads unescaped) with
      | Ok v => Ok v
      | Raise _ => Raise exc
      end
  | Raise e => Raise e
  end.

Definition _extract_json_object (html key : string) : Result json :=
  match find_key html key with
  | None => Raise (key_not_found key)
  | Some idx =>
      match find html (String lbrace "") idx with
      | None => Raise (opening_brace_not_found key)
      | Some start =>
          match fst (scan_loop html (range start (String.length html)) scan_start) with
          | Closed pos => _safe_json_load (slice html start (pos + 1))
          | Exhausted => Raise (closing_brace_not_found key)
          | OutOfRange pos => Raise (IndexError "string index out of range")
          end
      end
  end.

Definition no_vehicle_data (vrm : string) : Exception :=
  HTTPException 404 ("No vehicle data found for " ++ vrm).

Definition _parse_html (html vrm : string) : Result json :=
  match _extract_json_object html "VrmDetails" with
  | Ok data => Ok data
  | Raise _ =>
      (* fallback to the regex extraction *)
      match regex_search html with
      | Some json_str =>
          match _safe_json_load json_str with
          | Ok data => Ok data
          | Raise (JSONDecodeError _) => Raise (no_vehicle_data vrm)
          | Raise e => Raise e
          end
      | None => Raise (no_vehicle_data vrm)
      end
  end.

(** The configuration and the network the process runs against.  The
    HTTP client is the one that [_startup] installed. *)
Variable cfg : Config.
Variable upstream : Upstream.

(** The [for attempt in range(1, RETRY_ATTEMPTS + 1)] loop. *)
Fixpoint fetch_attempts (url : string) (attempts : list Z)
    (last_exc : option Exception) (tr : list Event)
  : Result string * list Event :=
  match attempts with
  | [] =>
      (Raise (HTTPException 502 ("Upstream request failed: " ++ str_last last_exc)), tr)
  | _ :: rest =>
      let tr1 := (tr ++ [Get url])%list in
      match (r <- upstream url (requests tr) ;;
             _ <- raise_for_status r ;;
             Ok (text r)) with
      | Ok t => (Ok t, tr1)
      | Raise exc =>
          if is_transport_failure exc
          then fetch_attempts url rest (Some exc) (tr1 ++ [Sleep 1])%list
          else (Raise exc, tr1)
      end
  end.

Definition _fetch_html (vrm : string) (tr : list Event)
  : Result string * list Event :=
  let url := format_vrm (BASE_URL cfg) vrm 0 in
  fetch_attempts url (zrange 1 (RETRY_ATTEMPTS cfg + 1)) None tr.

Definition get_vehicle_info (clock : Timer) (vrm : string) (w : World)
  : Result json * World :=
  if cache_contains (cache w) (at_contains clock) vrm then
    let (r, c) := cache_getitem (cache w) (at_getitem clock) vrm in
    (r, mkWorld c (trace w))
  else
    let (fetched, tr) := _fetch_html vrm (trace w) in
    match fetched with
    | Raise e => (Raise e, mkWorld (cache w) tr)
    | Ok html =>
        match _parse_html html vrm with
        | Raise e => (Raise e, mkWorld (cache w) tr)
        | Ok info =>
            let (stored, c) := cache_setitem (cache w) (at_setitem clock) vrm info in
            match stored with
            | Raise e => (Raise e, mkWorld c tr)
            | Ok _ => (Ok info, mkWorld c tr)
            end
        end
    end.

End Service.

(** ** JSON text of a record ([json.dumps] with its default settings) *)

Definition hex_digit (n : nat) : ascii :=
  nth n ["0"; "1"; "2"; "3"; "4"; "5"; "6"; "7"; "8"; "9";
         "a"; "b"; "c"; "d"; "e"; "f"]%char "0"%char.

(** The replacement of one character by [encode_basestring_ascii]. *)
Definition escape_char (c : ascii) : string :=
  if Ascii.eqb c dquote then String backslash (String dquote "")
  else if Ascii.eqb c backslash then "\\"
  else if Ascii.eqb c "010" then "\n"
  else if Ascii.eqb c "013" then "\r"
  else if Ascii.eqb c "009" then "\t"
  else if Ascii.eqb c "008" then "\b"
  else if Ascii.eqb c "012" then "\f"
  else
    let n := nat_of_ascii c in
    if ((32 <=? n) && (n <=? 126))%nat then String c ""
    else "\u00" ++ String (hex_digit (n / 16)) (String (hex_digit (n mod 16)) "").

Fixpoint escape_body (s : string) : string :=
  match s with
  | EmptyString => EmptyString
  | String c s' => escape_char c ++ escape_body s'
  end.

Definition encode_basestring_ascii (s : string) : string :=
  String dquote (escape_body s ++ String dquote "").

(** Items joined by [", "]. *)
Fixpoint join_items (items : list string) : string :=
  match items with
  | [] => ""
  | [x] => x
  | x :: rest => x ++ ", " ++ join_items rest
  end.

(** Modelled from the spec: the JSON encoding of a record.  The service
    itself never serializes; this is the text [json.dumps] writes with its
    default settings (separators [", "] and [": "], non-printable and
    non-ASCII characters escaped). *)
Fixpoint dumps (v : json) : string :=
  match v with
  | JNull => "null"
  | JBool true => "true"
  | JBool false => "false"
  | JInt n => NilZero.string_of_int (Z.to_int n)
  | JString s => encode_basestring_ascii s
  | JArray items => "[" ++ join_items (map dumps items) ++ "]"
  | JObject members =>
      "{" ++ join_items
               (map (fun kv => encode_basestring_ascii (fst kv) ++ ": " ++ dumps (snd kv))
                    members)
          ++ "}"
  end.

(** ** Reference models of the two library decoders

    They instantiate the parameters of the service where a theorem is
    applied to a concrete document. *)

Module Py.

Definition is_ws (c : ascii) : bool :=
  Ascii.eqb c " " || Ascii.eqb c "009" || Ascii.eqb c "010" || Ascii.eqb c "013".

Fixpoint skip_ws (s : string) : string :=
  match s with
  | String c s' => if is_ws c then skip_ws s' else s
  | EmptyString => s
  end.

Definition hex_value (c : ascii) : option nat :=
  let n := nat_of_ascii c in
  if ((48 <=? n) && (n <=? 57))%nat then Some (n - 48)%nat
  else if ((97 <=? n) && (n <=? 102))%nat then Some (n - 87)%nat
  else if ((65 <=? n) && (n <=? 70))%nat then Some (n - 55)%nat
  else None.

Definition hex4 (a b c d : ascii) : option nat :=
  match hex_value a, hex_value b, hex_value c, hex_value d with
  | Some x, Some y, Some z, Some w => Some (((x * 16 + y) * 16 + z) * 16 + w)%nat
  | _, _, _, _ => None
  end.

(** The character a one-letter JSON escape stands for. *)
Definition json_escape (e : ascii) : option ascii :=
  if Ascii.eqb e dquote then Some dquote
  else if Ascii.eqb e backslash then Some backslash
  else if Ascii.eqb e "/" then Some "/"%char
  else if Ascii.eqb e "b" then Some "008"%char
  else if Ascii.eqb e "f" then Some "012"%char
  else if Ascii.eqb e "n" then Some "010"%char
  else if Ascii.eqb e "r" then Some "013"%char
  else if Ascii.eqb e "t" then Some "009"%char
  else None.

(** Modelled from the spec: the string scanner of the standard JSON
    decoder, entered after the opening quote; strict mode (no raw control
    characters).  The text model has 8-bit characters, so an escape that
    denotes a code point above 255 is reported as undecodable. *)
Fixpoint scanstring (s : string) : option (string * string) :=
  match s with
  | EmptyString => None
  | String c s1 =>
      if Ascii.eqb c dquote then Some ("", s1)
      else if Ascii.eqb c backslash then
        match s1 with
        | EmptyString => None
        | String e s2 =>
            if Ascii.eqb e "u" then
              match s2 with
              | String h1 (String h2 (String h3 (String h4 s3))) =>
                  match hex4 h1 h2 h3 h4 with
                  | Some n =>
                      if (n <? 256)%nat then
                        match scanstring s3 with
                        | Some (t, r) => Some (String (ascii_of_nat n) t, r)
                        | None => None
                        end
                      else None
                  | None => None
                  end
              | _ => None
              end
            else
              match json_escape e with
              | Some d =>
                  match scanstring s2 with
                  | Some (t, r) => Some (String d t, r)
                  | None => None
                  end
              | None => None
              end
        end
      else if (nat_of_ascii c <? 32)%nat then None
      else
        match scanstring s1 with
        | Some (t, r) => Some (String c t, r)
        | None => None
        end
  end.

Definition digit_value (c : ascii) : option Z :=
  let n := nat_of_ascii c in
  if ((48 <=? n) && (n <=? 57))%nat then Some (Z.of_nat (n - 48)) else None.

(** The digits at the head of [s], read as a number continuing [acc]. *)
Fixpoint digits (acc : Z) (s : string) : Z * string :=
  match s with
  | String c s' =>
      match digit_value c with
      | Some d => digits (acc * 10 + d) s'
      | None => (acc, s)
      end
  | EmptyString => (acc, s)
  end.

Definition starts_fraction (s : string) : bool :=
  match s with
  | String c _ => Ascii.eqb c "." || Ascii.eqb c "e" || Ascii.eqb c "E"
  | EmptyString => false
  end.

(** An integer literal: an optional minus sign in [number], then 0 or a
    digit 1..9 followed by digits.  A literal that goes on with a
    fraction or an exponent denotes a float, which this model leaves out:
    it is reported as undecodable. *)
Definition natural (s : string) : option (Z * string) :=
  match s with
  | String c s' =>
      match digit_value c with
      | Some 0 => if starts_fraction s' then None else Some (0, s')
      | Some d => let (n, r) := digits d s' in
                  if starts_fraction r then None else Some (n, r)
      | None => None
      end
  | EmptyString => None
  end.

Definition number (s : string) : option (Z * string) :=
  match s with
  | String c s' =>
      if Ascii.eqb c "-" then
        match natural s' with
        | Some (n, r) => Some (- n, r)
        | None => None
        end
      else natural s
  | EmptyString => None
  end.

(** [dict(pairs)]: a repeated key keeps its first place and takes the
    last value. *)
Fixpoint dict_set (k : string) (v : json) (d : list (string * json))
  : list (string * json) :=
  match d with
  | [] => [(k, v)]
  | (k', v') :: rest =>
      if String.eqb k' k then (k, v) :: rest else (k', v') :: dict_set k v rest
  end.

Definition dict_of (pairs : list (string * json)) : list (string * json) :=
  fold_left (fun d kv => dict_set (fst kv) (snd kv) d) pairs [].

(** Modelled from the spec: the standard JSON decoder, as a recursive
    descent over the text; [fuel] bounds the number of calls. *)
Fixpoint value (fuel : nat) (s : string) : option (json * string) :=
  match fuel with
  | O => None
  | S f =>
      match s with
      | EmptyString => None
      | String c s' =>
          if Ascii.eqb c dquote then
            match scanstring s' with
            | Some (t, r) => Some (JString t, r)
            | None => None
            end
          else if Ascii.eqb c lbrace then
            match skip_ws s' with
            | String c1 s1 =>
                if Ascii.eqb c1 rbrace then Some (JObject [], s1)
                else if Ascii.eqb c1 dquote then members f [] s1
                else None
            | EmptyString => None
            end
          else if Ascii.eqb c "[" then
            match skip_ws s' with
            | String c1 s1 =>
                if Ascii.eqb c1 "]" then Some (JArray [], s1)
                else items f [] (String c1 s1)
            | EmptyString => None
            end
          else if prefix "null" s then Some (JNull, drop 4 s)
          else if prefix "true" s then Some (JBool true, drop 4 s)
          else if prefix "false" s then Some (JBool false, drop 5 s)
          else
            match number s with
            | Some (n, r) => Some (JInt n, r)
            | None => None
            end
      end
  end

(** The elements of an array, entered at the first character of one. *)
with items (fuel : nat) (acc : list json) (s : string) : option (json * string) :=
  match fuel with
  | O => None
  | S f =>
      match value f s with
      | Some (v, r) =>
          match skip_ws r with
          | String c r' =>
              if Ascii.eqb c "]" then Some (JArray (rev (v :: acc)), r')
              else if Ascii.eqb c "," then items f (v :: acc) (skip_ws r')
              else None
          | EmptyString => None
          end
      | None => None
      end
  end

(** The members of an object, entered after the opening quote of a key. *)
with members (fuel : nat) (acc : list (string * json)) (s : string)
  : option (json * string) :=
  match fuel with
  | O => None
  | S f =>
      match scanstring s with
      | Some (k, r) =>
          match skip_ws r with
          | String c r1 =>
              if Ascii.eqb c ":" then
                match value f (skip_ws r1) with
                | Some (v, r2) =>
                    match skip_ws r2 with
                    | String c2 r3 =>
                        if Ascii.eqb c2 rbrace then
                          Some (JObject (dict_of (rev ((k, v) :: acc))), r3)
                        else if Ascii.eqb c2 "," then
                          match skip_ws r3 with
                          | String c3 r4 =>
                              if Ascii.eqb c3 dquote then members f ((k, v) :: acc) r4
                              else None
                          | EmptyString => None
                          end
                        else None
                    | EmptyString => None
                    end
                | None => None
                end
              else None
          | EmptyString => None
          end
      | None => None
      end
  end.

(** Modelled from the spec: [json.loads], the standard JSON decode: one
    value, white space around it, nothing else; any failure is a
    [JSONDecodeError], whose text here names the document. *)
Definition loads (s : string) : Result json :=
  match value (2 * String.length s + 2) (skip_ws s) with
  | Some (v, r) =>
      match skip_ws r with
      | EmptyString => Ok v
      | _ => Raise (JSONDecodeError ("Extra data: " ++ s))
      end
  | None => Raise (JSONDecodeError ("Expecting value: " ++ s))
  end.

Definition octal_value (c : ascii) : option nat :=
  let n := nat_of_ascii c in
  if ((48 <=? n) && (n <=? 55))%nat then Some (n - 48)%nat else None.

(** The character a one-letter escape of the codec stands for. *)
Definition codec_escape (e : ascii) : option ascii :=
  if Ascii.eqb e backslash then Some backslash
  else if Ascii.eqb e "'" then Some "'"%char
  else if Ascii.eqb e dquote then Some dquote
  else if Ascii.eqb e "a" then Some "007"%char
  else if Ascii.eqb e "b" then Some "008"%char
  else if Ascii.eqb e "f" then Some "012"%char
  else if Ascii.eqb e "n" then Some "010"%char
  else if Ascii.eqb e "r" then Some "013"%char
  else if Ascii.eqb e "t" then Some "009"%char
  else if Ascii.eqb e "v" then Some "011"%char
  else None.

(** Modelled from the spec: [bytes(s, "utf-8").decode("unicode_escape")]
    on ASCII text, unescaping one level: the one-letter escapes, [\xhh],
    and [\u00hh]; a backslash before any other character stays.  Text with
    characters above 127, octal escapes and escapes that denote code points
    above 255 are outside this model and reported as undecodable. *)
Fixpoint unescape (s : string) : option string :=
  match s with
  | EmptyString => Some ""
  | String c s1 =>
      if (127 <? nat_of_ascii c)%nat then None
      else if Ascii.eqb c backslash then
        match s1 with
        | EmptyString => None
        | String e s2 =>
            if (127 <? nat_of_ascii e)%nat then None
            else if Ascii.eqb e "x" then
              match s2 with
              | String h1 (String h2 s3) =>
                  match hex4 "0" "0" h1 h2 with
                  | Some n => option_map (String (ascii_of_nat n)) (unescape s3)
                  | None => None
                  end
              | _ => None
              end
            else if Ascii.eqb e "u" then
              match s2 with
              | String h1 (String h2 (String h3 (String h4 s3))) =>
                  match hex4 h1 h2 h3 h4 with
                  | Some n =>
                      if (n <? 256)%nat
                      then option_map (String (ascii_of_nat n)) (unescape s3)
                      else None
                  | None => None
                  end
              | _ => None
              end
            else if Ascii.eqb e "U" || Ascii.eqb e "N" || Ascii.eqb e "010" then None
            else
              match octal_value e with
              | Some _ => None
              | None =>
                  match codec_escape e with
                  | Some d => option_map (String d) (unescape s2)
                  | None => option_map (fun t => String c (String e t)) (unescape s2)
                  end
              end
        end
      else option_map (String c) (unescape s1)
  end.

Definition unicode_escape (s : string) : Result string :=
  match unescape s with
  | Some t => Ok t
  | None => Raise (UnicodeDecodeError "unicode_escape cannot decode the text")
  end.

End Py.

(** ** Views of the scan used to state its properties *)

(** The loop of [scan_loop] read along the text that remains from the
    current position on; [scan_loop_suffix] relates the two. *)
Fixpoint scan_suffix (s : string) (pos : nat) (st : ScanState) : ScanResult :=
  match s with
  | EmptyString => Exhausted
  | String ch s' =>
      match loop_body st ch with
      | Return => Closed pos
      | Continue st' => scan_suffix s' (S pos) st'
      end
  end.

(** The three variables after one character, the [return] left aside. *)
Definition advance (st : ScanState) (ch : ascii) : ScanState :=
  let in_string' :=
    if Ascii.eqb ch dquote && negb (escaped st)
    then negb (in_string st) else in_string st in
  let level :=
    if in_string' then brace_level st
    else if Ascii.eqb ch lbrace then brace_level st + 1
    else if Ascii.eqb ch rbrace then brace_level st - 1
    else brace_level st in
  mkScan level in_string' (Ascii.eqb ch backslash && negb (escaped st)).

Fixpoint run (s : string) (st : ScanState) : ScanState :=
  match s with
  | EmptyString => st
  | String ch s' => run s' (advance st ch)
  end.

(** Brace depth once positions [start .. pos] of [html] have been scanned. *)
Definition depth_after (html : string) (start pos : nat) : Z :=
  brace_level (run (slice html start (pos + 1)) scan_start).

(** [sub] occurs in [html] at position [i]. *)
Definition occurs_at (sub html : string) (i : nat) : Prop :=
  exists pre post, html = pre ++ sub ++ post /\ String.length pre = i.

Definition occurs (sub html : string) : Prop := exists i, occurs_at sub html i.

(** Replace by [fill] every brace that the scan, entered in string mode
    [in_str] and escape state [esc], meets inside a quoted string. *)
Fixpoint blank_braces (fill : ascii) (s : string) (in_str esc : bool) : string :=
  match s with
  | EmptyString => EmptyString
  | String ch s' =>
      let in_str' := if Ascii.eqb ch dquote && negb esc then negb in_str else in_str in
      let esc' := Ascii.eqb ch backslash && negb esc in
      let ch' := if in_str' && (Ascii.eqb ch lbrace || Ascii.eqb ch rbrace)
                 then fill else ch in
      String ch' (blank_braces fill s' in_str' esc')
  end.

(** The document with the braces inside strings blanked from [start] on. *)
Definition blank_from (fill : ascii) (html : string) (start : nat) : string :=
  substring 0 start html ++ blank_braces fill (drop start html) false false.

(** [k] backslashes in a row. *)
Fixpoint backslashes (k : nat) : string :=
  match k with
  | O => EmptyString
  | S k' => String backslash (backslashes k')
  end.

(** The extractor raised one of its two delimiting failures. *)
Definition malformed (key : string) (r : Result json) : Prop :=
  r = Raise (opening_brace_not_found key) \/ r = Raise (closing_brace_not_found key).

(** The decoder raises none of the extractor's own three errors. *)
Definition foreign_errors (json_loads : string -> Result json) (key : string) : Prop :=
  forall s e, json_loads s = Raise e ->
    e <> key_not_found key /\ e <> opening_brace_not_found key /\
    e <> closing_brace_not_found key.

(** The character [c] occurs in [s]. *)
Fixpoint has_char (c : ascii) (s : string) : bool :=
  match s with
  | EmptyString => false
  | String d s' => Ascii.eqb d c || has_char c s'
  end.

(** The events of [n] failed attempts on [url]: a request, then the
    pause. *)
Fixpoint failed_attempts (url : string) (n : nat) : list Event :=
  match n with
  | O => []
  | S n' => Get url :: Sleep 1 :: failed_attempts url n'
  end.

(** The first [n] requests from request number [base] on all fail with a
    time-out or another transport failure. *)
Definition transport_down (upstream : Upstream) (url : string) (base n : nat) : Prop :=
  forall i, (i < n)%nat ->
    exists e, upstream url (base + i)%nat = Raise e /\ is_transport_failure e = true.

(** Once the opening brace is counted the depth stays positive until the
    loop returns. *)
Definition entered (st : ScanState) (s : string) : Prop :=
  1 <= brace_level st \/ (st = scan_start /\ exists s', s = String lbrace s').

(** An upstream that times out, refuses the connection, times out again,
    and answers from then on. *)
Definition flaky (answer : Response) : Upstream :=
  fun _ n =>
    match n with
    | 0%nat => Raise (TimeoutException "timed out")
    | 1%nat => Raise (TransportError "connection refused")
    | 2%nat => Raise (TimeoutException "read timed out")
    | _ => Ok answer
    end.

(** An upstream that answers every request with status 200 and [doc]. *)
Definition serving (doc : string) : Upstream :=
  fun _ _ => Ok (mkResponse 200 doc).

(** An upstream that never answers. *)
Definition unreachable : Upstream :=
  fun _ _ => Raise (TransportError "connection refused").

(** The state of a process that has served no request yet:
    [cache = TTLCache(maxsize=CACHE_MAXSIZE, ttl=CACHE_TTL)]. *)
Definition initial_world (cfg : Config) : World :=
  mkWorld (new_cache (CACHE_MAXSIZE cfg) (CACHE_TTL cfg)) [].

(** Characters that leave the scan state alone when no escape is pending. *)
Definition inert_char (c : ascii) : bool :=
  negb (Ascii.eqb c dquote || Ascii.eqb c backslash
        || Ascii.eqb c lbrace || Ascii.eqb c rbrace).

Fixpoint inert_text (s : string) : bool :=
  match s with
  | EmptyString => true
  | String c s' => inert_char c && inert_text s'
  end.

(** The state of the scan between two tokens of a JSON text. *)
Definition between_tokens (st : ScanState) : Prop :=
  1 <= brace_level st /\ in_string st = false /\ escaped st = false.

(** The scan passes over [t] and comes out in the state it went in with. *)
Definition passes (t : string) : Prop :=
  forall st rest pos,
    between_tokens st ->
    scan_suffix (t ++ rest) pos st = scan_suffix rest (pos + String.length t) st.

(** The key marker in front of the embedded object. *)
Definition marker (escaped_form : bool) (key : string) : string :=
  if escaped_form then escaped_quoted key else quoted key.

(** The character is a decimal digit. *)
Definition is_digit (c : ascii) : bool :=
  match Py.digit_value c with Some _ => true | None => false end.

(** What may follow a JSON value: the end of the text, or a character
    that neither continues an integer literal nor opens a fraction or an
    exponent. *)
Definition delimited (rest : string) : Prop :=
  match rest with
  | EmptyString => True
  | String c _ => is_digit c = false /\ Py.starts_fraction rest = false
  end.

(** Calls the reference decoder needs to read a value back. *)
Fixpoint size (v : json) : nat :=
  match v with
  | JArray items => S (fold_right (fun x n => S (size x + n)) 0%nat items)
  | JObject members => S (fold_right (fun kv n => S (size (snd kv) + n)) 0%nat members)
  | _ => 1%nat
  end.

(** A Python [dict] has each key once: every object of the value, at
    every depth, has pairwise distinct keys. *)
Fixpoint distinct_keys (v : json) : Prop :=
  match v with
  | JArray items => fold_right (fun x P => distinct_keys x /\ P) True items
  | JObject members =>
      NoDup (map fst members) /\
      fold_right (fun kv P => distinct_keys (snd kv) /\ P) True members
  | _ => True
  end.

(** The text starts a JSON value: its first character is neither white
    space nor a closing bracket. *)
Definition value_start (s : string) : Prop :=
  match s with
  | String c _ => Py.is_ws c = false /\ Ascii.eqb c "]" = false
  | EmptyString => False
  end.

(** The reference decoder reads back what [dumps] wrote. *)
Definition reads_back (v : json) : Prop :=
  forall fuel rest,
    (size v <= fuel)%nat -> delimited rest ->
    Py.value fuel (dumps v ++ rest) = Some (v, rest).

(** The text of one member of an object in [dumps]. *)
Definition member_text (kv : string * json) : string :=
  encode_basestring_ascii (fst kv) ++ ": " ++ dumps (snd kv).

(** ** Views used by the further properties *)

(** The text with a backslash put before every double quote, as when a
    JSON text is embedded in a script string. *)
Fixpoint escape_quotes (s : string) : string :=
  match s with
  | EmptyString => EmptyString
  | String c s' =>
      if Ascii.eqb c dquote then String backslash (String dquote (escape_quotes s'))
      else String c (escape_quotes s')
  end.

(** Number of occurrences of [c] in [s]. *)
Fixpoint count_char (c : ascii) (s : string) : Z :=
  match s with
  | EmptyString => 0
  | String d s' => (if Ascii.eqb d c then 1 else 0) + count_char c s'
  end.

(** The cache holds each identifier once and no more entries than its
    capacity. *)
Definition cache_ok (c : TTLCache) : Prop :=
  NoDup (map link_key (links c)) /\ Z.of_nat (List.length (links c)) <= maxsize c.

(** ** The route [lookup]

    The path operation behind [GET /{vrm}], as a function of the raw path
    parameter and the [debug] flag.  The framework's own validation of the
    path parameter runs before the function is called and is not part of
    it. *)

Definition newline : ascii := "010"%char.

(** [str.upper] on one character of the text model.  The upper case of
    U+00DF is the two letters [SS].  The upper-case forms of U+00B5 and
    U+00FF lie above the 8-bit range; the two characters are left as they
    are, which like their true upper case is no ASCII letter or digit, the
    only thing the route asks of the result. *)
Definition upper_char (c : ascii) : string :=
  let n := nat_of_ascii c in
  if ((97 <=? n) && (n <=? 122))%nat
     || ((224 <=? n) && (n <=? 254) && negb (n =? 247))%nat
  then String (ascii_of_nat (n - 32)) ""
  else if (n =? 223)%nat then "SS"
  else String c "".

(** [vrm.upper()] *)
Fixpoint upper (s : string) : string :=
  match s with
  | EmptyString => EmptyString
  | String c s' => upper_char c ++ upper s'
  end.

(** The character class of [VRM_RE]: an ASCII letter or digit. *)
Definition is_alnum (c : ascii) : bool :=
  let n := nat_of_ascii c in
  (((65 <=? n) && (n <=? 90)) || ((97 <=? n) && (n <=? 122))
   || ((48 <=? n) && (n <=? 57)))%nat.

Fixpoint all_chars (p : ascii -> bool) (s : string) : bool :=
  match s with
  | EmptyString => true
  | String c s' => p c && all_chars p s'
  end.

(** [VRM_RE.fullmatch(vrm)] is not [None]: the whole text is one to seven
    characters of the class. *)
Definition VRM_RE_fullmatch (vrm : string) : bool :=
  ((1 <=? String.length vrm) && (String.length vrm <=? 7))%nat
  && all_chars is_alnum vrm.

(** The text consists of ASCII characters. *)
Definition is_ascii (s : string) : bool :=
  all_chars (fun c => (nat_of_ascii c <? 128)%nat) s.

(** [Response(content, media_type=...)] *)
Record PlainText : Type := mkPlainText {
  content : string;
  media_type : string
}.

(** What leaves the route when it raises: an exception of the service, or
    the [AttributeError] of [info.items()] on a value that is no [dict]. *)
Inductive Raised : Type :=
| Passed (e : Exception)
| AttributeError (msg : string).

(** [type(v).__name__] for a decoded value. *)
Definition type_name (v : json) : string :=
  match v with
  | JNull => "NoneType"
  | JBool _ => "bool"
  | JInt _ => "int"
  | JString _ => "str"
  | JArray _ => "list"
  | JObject _ => "dict"
  end.

(** [html.find(sub, start)] with Python's conventions kept: [-1] when there
    is no occurrence, and a negative [start] counted from the end. *)
Definition str_find (html sub : string) (start : Z) : Z :=
  let from :=
    if start <? 0 then Z.max 0 (Z.of_nat (String.length html) + start) else start in
  match find html sub (Z.to_nat from) with
  | Some i => Z.of_nat i
  | None => -1
  end.

(** [html[start:]], a negative [start] counted from the end. *)
Definition str_from (html : string) (start : Z) : string :=
  let from :=
    if start <? 0 then Z.max 0 (Z.of_nat (String.length html) + start) else start in
  drop (Z.to_nat from) html.

(** The loop of the debug branch,
    [for i, ch in enumerate(html[start:], start)], run on the text [s] that
    remains; the result is the value of [end] after the loop. *)
Fixpoint debug_loop (s : string) (i brace : Z) (in_str esc : bool) (end_ : Z) : Z :=
  match s with
  | EmptyString => end_
  | String ch s' =>
      let in_str := if Ascii.eqb ch dquote && negb esc then negb in_str else in_str in
      let brace :=
        if in_str then brace
        else if Ascii.eqb ch lbrace then brace + 1
        else if Ascii.eqb ch rbrace then brace - 1
        else brace in
      (* if not in_str: ...; if brace == 0: end = i; break *)
      if negb in_str && (brace =? 0) then i
      else debug_loop s' (i + 1) brace in_str (Ascii.eqb ch backslash && negb esc) end_
  end.

(** [raw] of the debug branch. *)
Definition debug_raw (html : string) : string :=
  let idx := str_find html (quoted "VrmDetails") 0 in
  let idx := if idx =? -1 then str_find html (escaped_quoted "VrmDetails") 0 else idx in
  let start := str_find html (String lbrace "") idx in
  let end_ := debug_loop (str_from html start) start 0 false false start in
  if negb (start =? -1) && negb (end_ =? -1)
  then slice html (Z.to_nat start) (Z.to_nat (end_ + 1))
  else "".

Section Route.

Variable json_loads : string -> Result json.
Variable unicode_escape : string -> Result string.
Variable cfg : Config.
Variable upstream : Upstream.

(** [str(v)] of a decoded value, as the f-string formats it, and the
    second [try] block of the debug branch, [ast.literal_eval(raw)] with the
    rendering of its items: the lines, or the text of the exception
    caught.  Both are library code. *)
Variable str_value : json -> string.
Variable literal_lines : string -> list string + string.

(** [Response("\n".join(lines), media_type="text/plain")] *)
Definition plain_lines (lines : list string) : PlainText :=
  mkPlainText (String.concat (String newline "") lines) "text/plain".

(** [[f"{k}: {v}" for k, v in info.items()]] *)
Definition render (members : list (string * json)) : list string :=
  map (fun kv => fst kv ++ ": " ++ str_value (snd kv)) members.

Definition extraction_failed (detail raw ex : string) : PlainText :=
  mkPlainText
    ("Extraction failed." ++ String newline "Error: " ++ detail
     ++ String newline "Raw: " ++ substring 0 500 raw
     ++ String newline "Literal eval error: " ++ ex)
    "text/plain".

Definition invalid_registration : Exception :=
  HTTPException 400 "Invalid registration format".

Definition lookup (clock : Timer) (vrm : string) (debug : bool) (w : World)
  : (PlainText + Raised) * World :=
  let vrm := upper vrm in
  if negb (VRM_RE_fullmatch vrm) then (inr (Passed invalid_registration), w)
  else
    let (r, w1) := get_vehicle_info json_loads unicode_escape cfg upstream clock vrm w in
    match r with
    | Ok (JObject members) => (inl (plain_lines (render members)), w1)
    | Ok info =>
        (inr (AttributeError
                ("'" ++ type_name info ++ "' object has no attribute 'items'")), w1)
    | Raise (HTTPException status detail) =>
        if debug then
          let (fetched, tr) := _fetch_html cfg upstream vrm (trace w1) in
          let w2 := mkWorld (cache w1) tr in
          match fetched with
          | Raise e => (inr (Passed e), w2)
          | Ok html =>
              let raw := debug_raw html in
              match literal_lines raw with
              | inl py_lines => (inl (plain_lines py_lines), w2)
              | inr ex => (inl (extraction_failed detail raw ex), w2)
              end
          end
        else (inr (Passed (HTTPException status detail)), w1)
    | Raise e => (inr (Passed e), w1)
    end.

End Route.

(** ** Tactics *)

(** Evaluate the digit value of a character literal in the goal. *)
Ltac eval_digit :=
  match goal with
  | |- context [Py.digit_value ?c] =>
      let v := eval vm_compute in (Py.digit_value c) in
      change (Py.digit_value c) with v
  end.

(** Evaluate the comparisons of character literals in the goal. *)
Ltac eval_eqb :=
  repeat match goal with
  | |- context [Ascii.eqb ?a ?b] =>
      let v := eval vm_compute in (Ascii.eqb a b) in
      lazymatch v with
      | true => change (Ascii.eqb a b) with true
      | false => change (Ascii.eqb a b) with false
      end
  end.

(** * Properties *)

(** ** Strings *)

Lemma drop_empty n : drop n "" = "".
Proof. destruct n; reflexivity. Qed.

Lemma drop_length n s : String.length (drop n s) = (String.length s - n)%nat.
Proof.
  revert s; induction n as [|n IH]; intros [|c s]; simpl; auto with arith.
Qed.

Lemma drop_app_length s t : drop (String.length s) (s ++ t) = t.
Proof. induction s; simpl; auto. Qed.

Lemma drop_drop n m s : drop n (drop m s) = drop (m + n) s.
Proof.
  revert s; induction m as [|m IH]; intros s; simpl; auto.
  destruct s; simpl; auto using drop_empty.
Qed.

Lemma drop_cons n s c s' :
  drop n s = String c s' -> get n s = Some c /\ drop (S n) s = s'.
Proof.
  revert s; induction n as [|n IH]; intros [|d s] H; simpl in *; try discriminate.
  - inversion H; subst; split; auto. 
  - apply IH in H. exact H.
Qed.

Lemma get_lt n s : (n < String.length s)%nat -> exists c, get n s = Some c.
Proof.
  revert n; induction s as [|d s IH]; intros n H; simpl in *; [lia|].
  destruct n; [eauto|]. apply IH. lia.
Qed.

Lemma get_some_lt n s c : get n s = Some c -> (n < String.length s)%nat.
Proof.
  revert n; induction s as [|d s IH]; intros n H; simpl in *; [discriminate|].
  destruct n; [lia|]. apply IH in H. lia.
Qed.

Lemma get_drop n s : get n s = get 0 (drop n s).
Proof.
  revert s; induction n as [|n IH]; intros [|d s]; simpl; auto.
Qed.

Lemma app_assoc_s (a b c : string) : (a ++ b) ++ c = a ++ b ++ c.
Proof. induction a; simpl; congruence. Qed.

Lemma app_empty_r (a : string) : a ++ "" = a.
Proof. induction a; simpl; congruence. Qed.

Lemma length_append (a b : string) :
  String.length (a ++ b) = (String.length a + String.length b)%nat.
Proof. induction a; simpl; auto. Qed.

Lemma substring_0_app s t : substring 0 (String.length s) (s ++ t) = s.
Proof. induction s; simpl; [destruct t; reflexivity | congruence]. Qed.

Lemma substring_drop n m s : substring n m s = substring 0 m (drop n s).
Proof.
  revert s; induction n as [|n IH]; intros [|d s]; simpl; auto.
  destruct m; reflexivity.
Qed.

Lemma substring_drop_split n s : substring 0 n s ++ drop n s = s.
Proof.
  revert s; induction n as [|n IH]; intros [|d s]; simpl; auto.
  rewrite IH; reflexivity.
Qed.

Lemma substring_0_length n s :
  (n <= String.length s)%nat -> String.length (substring 0 n s) = n.
Proof.
  revert s; induction n as [|n IH]; intros [|d s] H; simpl in *; auto; try lia.
  rewrite IH; lia.
Qed.

Lemma prefix_app s t : prefix s (s ++ t) = true.
Proof.
  induction s as [|c s IH]; simpl; [destruct t; reflexivity|].
  destruct (ascii_dec c c); congruence.
Qed.

Lemma prefix_split s t : prefix s t = true -> exists u, t = s ++ u.
Proof.
  revert t; induction s as [|c s IH]; intros t H.
  - exists t; reflexivity.
  - destruct t as [|d t]; simpl in H; [discriminate|].
    destruct (ascii_dec c d); [subst|discriminate].
    destruct (IH _ H) as [u ->]. exists u; reflexivity.
Qed.

Lemma occurs_at_prefix sub html i :
  occurs_at sub html i <->
  ((i <= String.length html)%nat /\ prefix sub (drop i html) = true).
Proof.
  split.
  - intros (pre & post & -> & <-). split.
    + rewrite length_append. lia.
    + rewrite drop_app_length. apply prefix_app.
  - intros [Hi H]. apply prefix_split in H as [u Hu].
    exists (substring 0 i html), u. split.
    + rewrite <- Hu. symmetry. apply substring_drop_split.
    + apply substring_0_length; assumption.
Qed.

Lemma find_at_eq sub s pos :
  find_at sub s pos =
  if prefix sub s then Some pos
  else match s with
       | EmptyString => None
       | String _ s' => find_at sub s' (S pos)
       end.
Proof. destruct s; reflexivity. Qed.

(** [find_at] returns the leftmost match of the suffix. *)
Lemma find_at_some sub s pos i :
  find_at sub s pos = Some i ->
  (pos <= i)%nat /\ (i - pos <= String.length s)%nat /\
  prefix sub (drop (i - pos) s) = true /\
  forall k, (k < i - pos)%nat -> prefix sub (drop k s) = false.
Proof.
  revert pos; induction s as [|c s IH]; intros pos H; rewrite find_at_eq in H.
  - destruct (prefix sub "") eqn:P; [|discriminate].
    inversion H; subst. rewrite Nat.sub_diag. simpl. repeat split; auto; lia.
  - destruct (prefix sub (String c s)) eqn:P.
    + inversion H; subst. rewrite Nat.sub_diag. simpl. repeat split; auto; lia.
    + apply IH in H as (H1 & H2 & H3 & H4).
      replace (i - pos)%nat with (S (i - S pos)) by lia. simpl.
      repeat split; try lia; auto.
      intros [|k] Hk; simpl; auto. apply H4. lia.
Qed.

Lemma find_at_none sub s pos :
  find_at sub s pos = None -> forall k, prefix sub (drop k s) = false.
Proof.
  revert pos; induction s as [|c s IH]; intros pos H k; rewrite find_at_eq in H.
  - destruct (prefix sub "") eqn:P; [discriminate|]. rewrite drop_empty; auto.
  - destruct (prefix sub (String c s)) eqn:P; [discriminate|].
    destruct k; simpl; eauto.
Qed.

(** [html.find(sub, start)] is the leftmost occurrence at or after [start]. *)
Lemma find_some html sub start i :
  find html sub start = Some i ->
  (start <= i)%nat /\ occurs_at sub html i /\
  forall j, (start <= j < i)%nat -> ~ occurs_at sub html j.
Proof.
  unfold find. destruct (start <=? String.length html)%nat eqn:L; [|discriminate].
  apply Nat.leb_le in L. intros H.
  apply find_at_some in H as (H1 & H2 & H3 & H4).
  rewrite drop_length in H2. rewrite drop_drop in H3.
  replace (start + (i - start))%nat with i in H3 by lia.
  split; [assumption|]. split.
  - apply occurs_at_prefix. split; [lia | assumption].
  - intros j Hj Hocc. apply occurs_at_prefix in Hocc as [_ Hocc].
    specialize (H4 (j - start)%nat ltac:(lia)).
    rewrite drop_drop in H4. replace (start + (j - start))%nat with j in H4 by lia.
    congruence.
Qed.

Lemma find_none html sub start :
  find html sub start = None ->
  forall j, (start <= j)%nat -> ~ occurs_at sub html j.
Proof.
  unfold find. destruct (start <=? String.length html)%nat eqn:L.
  - intros H j Hj Hocc. apply occurs_at_prefix in Hocc as [_ Hocc].
    pose proof (find_at_none _ _ _ H (j - start)%nat) as N.
    rewrite drop_drop in N. replace (start + (j - start))%nat with j in N by lia.
    congruence.
  - apply Nat.leb_gt in L. intros _ j Hj Hocc.
    apply occurs_at_prefix in Hocc as [Hle _]. lia.
Qed.

Lemma find_complete html sub start j :
  (start <= j)%nat -> occurs_at sub html j ->
  exists i, find html sub start = Some i /\ (i <= j)%nat.
Proof.
  intros Hj Hocc. destruct (find html sub start) as [i|] eqn:F.
  - exists i; split; auto.
    destruct (le_lt_dec i j); auto.
    apply find_some in F as (_ & _ & F). exfalso. apply (F j); auto; lia.
  - exfalso. eapply find_none; eauto.
Qed.

(** ** The scan: loop over positions against loop over the remaining text *)

Lemma scan_loop_suffix html s : forall start st,
  drop start html = s ->
  fst (scan_loop html (seq start (String.length s)) st) = scan_suffix s start st.
Proof.
  induction s as [|c s IH]; intros start st D; [reflexivity|].
  destruct (drop_cons _ _ _ _ D) as [G D'].
  cbn [String.length seq scan_loop scan_suffix]. rewrite G.
  destruct (loop_body st c) as [|st']; [reflexivity|].
  specialize (IH (S start) st' D').
  destruct (scan_loop html (seq (S start) (String.length s)) st'); exact IH.
Qed.

Lemma scan_loop_range html start st :
  fst (scan_loop html (range start (String.length html)) st)
  = scan_suffix (drop start html) start st.
Proof.
  unfold range. rewrite <- (drop_length start html).
  apply scan_loop_suffix. reflexivity.
Qed.

(** The positions read are an initial segment of the positions given. *)
Lemma scan_loop_reads html positions : forall st,
  exists rest, positions = (snd (scan_loop html positions st) ++ rest)%list.
Proof.
  induction positions as [|p ps IH]; intros st; simpl.
  - exists []; reflexivity.
  - destruct (get p html) as [ch|]; [|exists ps; reflexivity].
    destruct (loop_body st ch) as [|st']; [exists ps; reflexivity|].
    destruct (IH st') as [rest E].
    destruct (scan_loop html ps st') as [r reads]; simpl in *.
    exists rest. congruence.
Qed.

Lemma scan_loop_in_range html positions : forall st,
  Forall (fun p => (p < String.length html)%nat) positions ->
  forall p, fst (scan_loop html positions st) <> OutOfRange p.
Proof.
  induction positions as [|q ps IH]; intros st F p; simpl; [discriminate|].
  inversion F as [|? ? Hq Hps]; subst.
  destruct (get_lt _ _ Hq) as [ch ->].
  destruct (loop_body st ch) as [|st']; [discriminate|].
  specialize (IH st' Hps p).
  destruct (scan_loop html ps st'); exact IH.
Qed.

Lemma range_bound start stop :
  Forall (fun p => (p < stop)%nat) (range start stop).
Proof.
  apply Forall_forall. intros p Hp. unfold range in Hp.
  apply in_seq in Hp. lia.
Qed.

Lemma seq_prefix start n l rest :
  seq start n = (l ++ rest)%list -> l = seq start (List.length l) /\ (List.length l <= n)%nat.
Proof.
  revert start n; induction l as [|x l IH]; intros start n E; simpl in *.
  - split; [reflexivity | lia].
  - destruct n; simpl in E; [discriminate|]. inversion E; subst.
    destruct (IH _ _ H1) as [E1 E2]. split; [f_equal; exact E1 | lia].
Qed.

(** ** The loop body against the plain state machine *)

Lemma eqb_lbrace_rbrace ch : Ascii.eqb ch lbrace = true -> Ascii.eqb ch rbrace = false.
Proof. intros H. apply Ascii.eqb_eq in H. subst. reflexivity. Qed.

Lemma eqb_lbrace_dquote ch : Ascii.eqb ch lbrace = true -> Ascii.eqb ch dquote = false.
Proof. intros H. apply Ascii.eqb_eq in H. subst. reflexivity. Qed.

Lemma eqb_rbrace_dquote ch : Ascii.eqb ch rbrace = true -> Ascii.eqb ch dquote = false.
Proof. intros H. apply Ascii.eqb_eq in H. subst. reflexivity. Qed.

Lemma loop_body_advance st ch :
  loop_body st ch =
  if negb (in_string st) && Ascii.eqb ch rbrace && (brace_level st =? 1)
  then Return else Continue (advance st ch).
Proof.
  unfold loop_body, advance.
  destruct (Ascii.eqb ch rbrace) eqn:R.
  - rewrite (eqb_rbrace_dquote _ R). simpl.
    destruct (Ascii.eqb ch lbrace) eqn:L.
    { apply eqb_lbrace_rbrace in L. congruence. }
    destruct (in_string st); simpl; [reflexivity|].
    destruct (brace_level st - 1 =? 0) eqn:Z1.
    + apply Z.eqb_eq in Z1. replace (brace_level st =? 1) with true; [reflexivity|].
      symmetry; apply Z.eqb_eq; lia.
    + apply Z.eqb_neq in Z1. replace (brace_level st =? 1) with false; [reflexivity|].
      symmetry; apply Z.eqb_neq; lia.
  - rewrite andb_false_r. simpl.
    destruct (if Ascii.eqb ch dquote && negb (escaped st)
              then negb (in_string st) else in_string st); simpl; [reflexivity|].
    destruct (Ascii.eqb ch lbrace); reflexivity.
Qed.

Lemma entered_continue st ch s st' :
  entered st (String ch s) -> loop_body st ch = Continue st' ->
  st' = advance st ch /\ 1 <= brace_level st'.
Proof.
  intros E H. rewrite loop_body_advance in H.
  destruct (negb (in_string st) && Ascii.eqb ch rbrace && (brace_level st =? 1)) eqn:C;
    [discriminate|].
  inversion H; subst st'; clear H. split; [reflexivity|].
  destruct E as [E | [-> (s' & E)]].
  - unfold advance; simpl.
    destruct (if Ascii.eqb ch dquote && negb (escaped st)
              then negb (in_string st) else in_string st) eqn:I; [assumption|].
    destruct (Ascii.eqb ch lbrace) eqn:L; [lia|].
    destruct (Ascii.eqb ch rbrace) eqn:R; [|assumption].
    rewrite (eqb_rbrace_dquote _ R) in I. simpl in I. rewrite I in C. simpl in C.
    apply Z.eqb_neq in C. lia.
  - inversion E; subst. cbv. discriminate.
Qed.

Lemma entered_return st ch s :
  entered st (String ch s) -> loop_body st ch = Return ->
  brace_level (advance st ch) = 0.
Proof.
  intros E H. rewrite loop_body_advance in H.
  destruct (negb (in_string st) && Ascii.eqb ch rbrace && (brace_level st =? 1)) eqn:C;
    [|discriminate].
  apply andb_prop in C as [C C3]. apply andb_prop in C as [C1 C2].
  apply Z.eqb_eq in C3. apply negb_true_iff in C1.
  unfold advance; simpl. rewrite (eqb_rbrace_dquote _ C2). simpl. rewrite C1.
  destruct (Ascii.eqb ch lbrace) eqn:L.
  { apply eqb_lbrace_rbrace in L. congruence. }
  rewrite C2. lia.
Qed.

Lemma run_substring_S ch s k st :
  run (substring 0 (S k) (String ch s)) st = run (substring 0 k s) (advance st ch).
Proof. reflexivity. Qed.

(** What the scan returns, in terms of the depth reached after each
    position. *)
Lemma scan_suffix_depth s : forall pos st,
  entered st s ->
  match scan_suffix s pos st with
  | Closed p =>
      (pos <= p < pos + String.length s)%nat /\
      brace_level (run (substring 0 (S (p - pos)) s) st) = 0 /\
      forall k, (k < p - pos)%nat ->
                1 <= brace_level (run (substring 0 (S k) s) st)
  | Exhausted =>
      forall k, (k < String.length s)%nat ->
                1 <= brace_level (run (substring 0 (S k) s) st)
  | OutOfRange _ => False
  end.
Proof.
  induction s as [|ch s IH]; intros pos st E.
  - simpl. intros k Hk. lia.
  - cbn [scan_suffix]. destruct (loop_body st ch) as [|st'] eqn:B.
    + rewrite Nat.sub_diag. cbn [String.length]. split; [lia|]. split.
      * rewrite run_substring_S. destruct s; simpl; eapply entered_return; eauto.
      * intros k Hk; lia.
    + destruct (entered_continue _ _ _ _ E B) as [-> Hpos].
      specialize (IH (S pos) (advance st ch) (or_introl Hpos)).
      destruct (scan_suffix s (S pos) (advance st ch)) as [p| |p]; [| |exact IH].
      * destruct IH as (I1 & I2 & I3). cbn [String.length].
        split; [lia|]. replace (p - pos)%nat with (S (p - S pos)) by lia.
        split; [rewrite run_substring_S; exact I2|].
        intros [|k] Hk.
        -- rewrite run_substring_S. destruct s; simpl; exact Hpos.
        -- rewrite run_substring_S. apply I3. lia.
      * cbn [String.length]. intros [|k] Hk.
        -- rewrite run_substring_S. destruct s; simpl; exact Hpos.
        -- rewrite run_substring_S. apply IH. lia.
Qed.

Lemma scan_suffix_closed s : forall pos st p,
  scan_suffix s pos st = Closed p -> (pos <= p < pos + String.length s)%nat.
Proof.
  induction s as [|ch s IH]; intros pos st p H; simpl in H; [discriminate|].
  destruct (loop_body st ch) as [|st'].
  - inversion H; subst. simpl. lia.
  - apply IH in H. simpl. lia.
Qed.

Lemma scan_suffix_in_range s : forall pos st p, scan_suffix s pos st <> OutOfRange p.
Proof.
  induction s as [|ch s IH]; intros pos st p; simpl; [discriminate|].
  destruct (loop_body st ch); [discriminate | apply IH].
Qed.

(** ** The decoder *)

Lemma safe_json_load_cases jl ue s :
  (exists v, _safe_json_load jl ue s = Ok v) \/
  (exists e, jl s = Raise e /\ _safe_json_load jl ue s = Raise e).
Proof.
  unfold _safe_json_load. destruct (jl s) as [v|e] eqn:P; [left; eauto|].
  destruct e; try (right; eauto; fail).
  destruct (unescaped <- ue s;; jl unescaped) as [v|e']; [left | right]; eauto.
Qed.

(** ** Where the extractor starts and stops *)

Lemma occurs_at_char c html p :
  occurs_at (String c "") html p <-> get p html = Some c.
Proof.
  rewrite occurs_at_prefix. split.
  - intros [_ H]. apply prefix_split in H as [u Hu]. simpl in Hu.
    apply drop_cons in Hu. tauto.
  - intros G. pose proof (get_some_lt _ _ _ G) as L. split; [lia|].
    rewrite get_drop in G. destruct (drop p html) as [|d t]; simpl in G; [discriminate|].
    inversion G; subst. simpl. destruct (ascii_dec c c); [|congruence].
    destruct t; reflexivity.
Qed.

Lemma find_key_none html key :
  find_key html key = None <->
  (~ occurs (quoted key) html /\ ~ occurs (escaped_quoted key) html).
Proof.
  unfold find_key. split.
  - intros H. destruct (find html (quoted key) 0) eqn:F1; [discriminate|].
    split; intros [i Hi].
    + apply (find_none _ _ _ F1 i); [lia | exact Hi].
    + apply (find_none _ _ _ H i); [lia | exact Hi].
  - intros [N1 N2].
    destruct (find html (quoted key) 0) as [i|] eqn:F1.
    { apply find_some in F1 as (_ & O & _). exfalso; apply N1; exists i; exact O. }
    destruct (find html (escaped_quoted key) 0) as [i|] eqn:F2; [|reflexivity].
    apply find_some in F2 as (_ & O & _). exfalso; apply N2; exists i; exact O.
Qed.

Lemma not_occurs_by_find sub s : find s sub 0 = None -> ~ occurs sub s.
Proof. intros F [i O]. apply (find_none _ _ _ F i); [lia | exact O]. Qed.

(** The key position is the first occurrence of the plain form, or, when
    there is none, the first occurrence of the escaped form. *)
Lemma find_key_some html key idx :
  find_key html key = Some idx ->
  (occurs_at (quoted key) html idx /\
   forall j, (j < idx)%nat -> ~ occurs_at (quoted key) html j) \/
  (~ occurs (quoted key) html /\ occurs_at (escaped_quoted key) html idx /\
   forall j, (j < idx)%nat -> ~ occurs_at (escaped_quoted key) html j).
Proof.
  unfold find_key. destruct (find html (quoted key) 0) as [i|] eqn:F1.
  - intros E. inversion E; subst i. apply find_some in F1 as (_ & O & N).
    left. split; [exact O|]. intros j Hj. apply N. lia.
  - intros F2. right. split; [apply not_occurs_by_find; exact F1|].
    apply find_some in F2 as (_ & O & N).
    split; [exact O|]. intros j Hj. apply N. lia.
Qed.

Lemma find_brace_some html idx start :
  find html (String lbrace "") idx = Some start ->
  exists rest, drop start html = String lbrace rest.
Proof.
  intros F. apply find_some in F as (_ & O & _).
  apply occurs_at_char in O. rewrite get_drop in O.
  destruct (drop start html) as [|c rest]; simpl in O; [discriminate|].
  inversion O; subst. eauto.
Qed.

Lemma slice_suffix html start pos :
  (start <= pos)%nat ->
  slice html start (pos + 1) = substring 0 (S (pos - start)) (drop start html).
Proof.
  intros H. unfold slice. rewrite substring_drop. f_equal. lia.
Qed.

(** The scan of the extractor in terms of [depth_after]. *)
Lemma scan_from_brace html idx start :
  find html (String lbrace "") idx = Some start ->
  match fst (scan_loop html (range start (String.length html)) scan_start) with
  | Closed pos =>
      (start <= pos < String.length html)%nat /\
      depth_after html start pos = 0 /\
      forall q, (start <= q < pos)%nat -> 1 <= depth_after html start q
  | Exhausted =>
      forall q, (start <= q < String.length html)%nat -> 1 <= depth_after html start q
  | OutOfRange _ => False
  end.
Proof.
  intros F. destruct (find_brace_some _ _ _ F) as [rest D].
  rewrite scan_loop_range.
  assert (E : entered scan_start (drop start html)) by (right; split; eauto).
  pose proof (scan_suffix_depth (drop start html) start scan_start E) as S.
  pose proof (drop_length start html) as L.
  destruct (scan_suffix (drop start html) start scan_start) as [p| |p]; [| |exact S].
  - destruct S as (S1 & S2 & S3). split; [lia|]. split.
    + unfold depth_after. rewrite slice_suffix by lia. exact S2.
    + intros q Hq. unfold depth_after. rewrite slice_suffix by lia.
      apply S3. lia.
  - intros q Hq. unfold depth_after. rewrite slice_suffix by lia.
    apply S. lia.
Qed.

(** ** Totality of the extractor *)

(** C10: for every document and key the extractor is a total function; its
    loop reads the positions [start, start+1, ...] once each, in order, at
    most [len(html)] of them and every one inside the document (so
    [html[pos]] never raises); and the call ends in exactly one of: key not
    found, no opening brace, no matching closing brace, or the outcome of
    the decoder on the delimited substring, which is a record or the
    decoder's own failure. *)
Theorem extract_total (jl : string -> Result json) (ue : string -> Result string)
    (html key : string) :
  (forall start st,
     let out := scan_loop html (range start (String.length html)) st in
     (exists n, snd out = seq start n /\ (n <= String.length html)%nat) /\
     Forall (fun p => (p < String.length html)%nat) (snd out) /\
     (forall p, fst out <> OutOfRange p)) /\
  (_extract_json_object jl ue html key = Raise (key_not_found key) \/
   _extract_json_object jl ue html key = Raise (opening_brace_not_found key) \/
   _extract_json_object jl ue html key = Raise (closing_brace_not_found key) \/
   exists start pos,
     (start <= pos < String.length html)%nat /\
     _extract_json_object jl ue html key
       = _safe_json_load jl ue (slice html start (pos + 1)) /\
     ((exists v, _extract_json_object jl ue html key = Ok v) \/
      (exists e, jl (slice html start (pos + 1)) = Raise e /\
                 _extract_json_object jl ue html key = Raise e))).
Proof.
  split.
  - intros start st out.
    destruct (scan_loop_reads html (range start (String.length html)) st) as [rest E].
    fold out in E. split; [|split].
    + unfold range in E. apply seq_prefix in E as [E1 E2].
      exists (List.length (snd out)). split; [exact E1 | lia].
    + pose proof (range_bound start (String.length html)) as B.
      rewrite E in B. apply Forall_app in B. tauto.
    + apply scan_loop_in_range. apply range_bound.
  - unfold _extract_json_object.
    destruct (find_key html key) as [idx|]; [|left; reflexivity].
    destruct (find html (String lbrace "") idx) as [start|]; [|right; left; reflexivity].
    rewrite scan_loop_range.
    destruct (scan_suffix (drop start html) start scan_start) as [pos| |pos] eqn:S.
    + right; right; right. exists start, pos.
      apply scan_suffix_closed in S. rewrite drop_length in S.
      split; [lia|]. split; [reflexivity|].
      destruct (safe_json_load_cases jl ue (slice html start (pos + 1)))
        as [[v Hv] | [e [He1 He2]]]; [left | right]; eauto.
    + right; right; left; reflexivity.
    + exfalso. eapply scan_suffix_in_range; eauto.
Qed.

(** ** Failure modes of the extractor *)

(** C3 (amended): [NotFound] is raised exactly when the key occurs in
    neither quoted form; with the key found at [idx], one of the two
    [Malformed] errors is raised exactly when no opening brace occurs at or
    after [idx] or the depth never returns to zero from the first such
    brace to the end of the document; and otherwise the result is that of
    the decoder on the delimited substring, which is a record or a decode
    failure.  The decoder is assumed to raise none of the extractor's own
    errors. *)
Theorem extract_failure_modes (jl : string -> Result json)
    (ue : string -> Result string) (html key : string) :
  foreign_errors jl key ->
  (_extract_json_object jl ue html key = Raise (key_not_found key) <->
   (~ occurs (quoted key) html /\ ~ occurs (escaped_quoted key) html)) /\
  (forall idx, find_key html key = Some idx ->
     (malformed key (_extract_json_object jl ue html key) <->
      ((forall p, (idx <= p)%nat -> get p html <> Some lbrace) \/
       (exists start, find html (String lbrace "") idx = Some start /\
          forall pos, (start <= pos < String.length html)%nat ->
                      depth_after html start pos <> 0))) /\
     (forall start pos,
        find html (String lbrace "") idx = Some start ->
        (start <= pos < String.length html)%nat ->
        depth_after html start pos = 0 ->
        (forall q, (start <= q < pos)%nat -> depth_after html start q <> 0) ->
        _extract_json_object jl ue html key
          = _safe_json_load jl ue (slice html start (pos + 1)) /\
        ((exists v, _extract_json_object jl ue html key = Ok v) \/
         (exists e, jl (slice html start (pos + 1)) = Raise e /\
                    _extract_json_object jl ue html key = Raise e)))).
Proof.
  intros Foreign.
  assert (Dec : forall s e, _safe_json_load jl ue s = Raise e ->
                  e <> key_not_found key /\ e <> opening_brace_not_found key /\
                  e <> closing_brace_not_found key).
  { intros s e H. destruct (safe_json_load_cases jl ue s) as [[v Hv] | [e' [H1 H2]]].
    - congruence.
    - rewrite H2 in H. inversion H; subst. eapply Foreign; eauto. }
  split.
  - rewrite <- find_key_none. unfold _extract_json_object. split.
    + destruct (find_key html key) as [idx|]; [|reflexivity].
      destruct (find html (String lbrace "") idx) as [start|].
      * destruct (fst (scan_loop html (range start (String.length html)) scan_start)).
        -- intros H. apply Dec in H. exfalso. tauto.
        -- intros H. inversion H.
        -- intros H. inversion H.
      * intros H. inversion H.
    + intros ->. reflexivity.
  - intros idx K. unfold malformed, _extract_json_object. rewrite K.
    destruct (find html (String lbrace "") idx) as [start|] eqn:F.
    + pose proof (scan_from_brace _ _ _ F) as S.
      destruct (fst (scan_loop html (range start (String.length html)) scan_start))
        as [p| |p]; [| |contradiction].
      * destruct S as (S1 & S2 & S3). split.
        -- split.
           ++ intros [H | H]; apply Dec in H; exfalso; tauto.
           ++ intros [H | (start' & E & H)].
              ** exfalso. apply find_some in F as (F1 & F2 & _).
                 apply occurs_at_char in F2. apply (H start); assumption.
              ** inversion E; subst start'. exfalso. apply (H p); assumption.
        -- intros start' pos E Hpos Z0 First. inversion E; subst start'.
           assert (pos = p).
           { destruct (Nat.lt_trichotomy pos p) as [L | [L | L]]; [|exact L|].
             - specialize (S3 pos ltac:(lia)). lia.
             - exfalso. apply (First p); [lia | exact S2]. }
           subst pos. split; [reflexivity|].
           destruct (safe_json_load_cases jl ue (slice html start (p + 1)))
             as [[v Hv] | [e [He1 He2]]]; [left | right]; eauto.
      * split.
        -- split; [|intros _; right; reflexivity].
           intros _. right. exists start. split; [reflexivity|].
           intros pos Hpos. specialize (S pos Hpos). lia.
        -- intros start' pos E Hpos Z0 _. inversion E; subst start'.
           specialize (S pos Hpos). lia.
    + split.
      * split; [|intros _; left; reflexivity].
        intros _. left. intros p Hp G. apply occurs_at_char in G.
        eapply find_none; eauto.
      * intros start pos E. discriminate.
Qed.

Lemma py_loads_raises s e : Py.loads s = Raise e -> exists m, e = JSONDecodeError m.
Proof.
  unfold Py.loads.
  destruct (Py.value _ _) as [[v r]|]; [destruct (Py.skip_ws r)|];
    intros H; inversion H; eauto.
Qed.

Lemma py_loads_foreign key : foreign_errors Py.loads key.
Proof.
  intros s e H. apply py_loads_raises in H as [m ->].
  repeat split; discriminate.
Qed.

Lemma extract_failure_modes_witness :
  foreign_errors Py.loads "VrmDetails" /\
  ((forall p, (0 <= p)%nat -> get p (py "'VrmDetails':{'Make':'Ford'") <> Some lbrace) \/
   (exists start,
      find (py "'VrmDetails':{'Make':'Ford'") (String lbrace "") 0 = Some start /\
      forall pos,
        (start <= pos < String.length (py "'VrmDetails':{'Make':'Ford'"))%nat ->
        depth_after (py "'VrmDetails':{'Make':'Ford'") start pos <> 0)).
Proof.
  split; [apply py_loads_foreign|].
  destruct (extract_failure_modes Py.loads Py.unicode_escape
              (py "'VrmDetails':{'Make':'Ford'") "VrmDetails"
              (py_loads_foreign _)) as [_ H].
  assert (K : find_key (py "'VrmDetails':{'Make':'Ford'") "VrmDetails" = Some 0%nat)
    by (vm_compute; reflexivity).
  destruct (H 0%nat K) as [[H1 _] _].
  apply H1. right. vm_compute. reflexivity.
Defined.

(** The claim C3 as the specification words it fails: the key is found and
    the braces balance, yet no record is returned, because the delimited
    text is not JSON. *)
Lemma delimited_text_not_decoded :
  find_key (py "'k':{x}") "k" = Some 0%nat /\
  fst (scan_loop (py "'k':{x}") (range 4 (String.length (py "'k':{x}"))) scan_start)
  = Closed 6 /\
  (exists m, _extract_json_object Py.loads Py.unicode_escape (py "'k':{x}") "k"
             = Raise (JSONDecodeError m)) /\
  forall v, _extract_json_object Py.loads Py.unicode_escape (py "'k':{x}") "k" <> Ok v.
Proof.
  split; [vm_compute; reflexivity|]. split; [vm_compute; reflexivity|].
  split; [eexists; vm_compute; reflexivity|].
  intros v H. vm_compute in H. discriminate H.
Qed.

(** ** Quoting and escaping in the scan *)

Lemma blank_braces_length fill s : forall i e,
  String.length (blank_braces fill s i e) = String.length s.
Proof. induction s as [|c s IH]; intros i e; simpl; auto. Qed.

Lemma blank_braces_scan fill s :
  fill <> dquote -> fill <> backslash ->
  forall pos st,
    scan_suffix (blank_braces fill s (in_string st) (escaped st)) pos st
    = scan_suffix s pos st.
Proof.
  intros Fq Fb. apply Ascii.eqb_neq in Fq, Fb.
  induction s as [|ch s IH]; intros pos st; [reflexivity|].
  cbn [blank_braces scan_suffix].
  set (i' := if Ascii.eqb ch dquote && negb (escaped st)
             then negb (in_string st) else in_string st).
  set (e' := Ascii.eqb ch backslash && negb (escaped st)).
  assert (Same : forall st', loop_body st ch = Continue st' ->
                             in_string st' = i' /\ escaped st' = e').
  { intros st' H. rewrite loop_body_advance in H.
    destruct (negb (in_string st) && Ascii.eqb ch rbrace && (brace_level st =? 1));
      [discriminate|]. inversion H; subst st'. split; reflexivity. }
  destruct (i' && (Ascii.eqb ch lbrace || Ascii.eqb ch rbrace)) eqn:B.
  - apply andb_prop in B as [Bi Bc].
    assert (Q : Ascii.eqb ch dquote = false).
    { apply orb_prop in Bc as [L | R];
        [apply eqb_lbrace_dquote | apply eqb_rbrace_dquote]; assumption. }
    assert (K : Ascii.eqb ch backslash = false).
    { apply orb_prop in Bc as [L | R]; apply Ascii.eqb_eq in L || apply Ascii.eqb_eq in R;
        subst; reflexivity. }
    assert (I : in_string st = true).
    { unfold i' in Bi. rewrite Q in Bi. exact Bi. }
    assert (L1 : loop_body st ch = Continue (mkScan (brace_level st) true false)).
    { unfold loop_body. rewrite Q, K, I. reflexivity. }
    assert (L2 : loop_body st fill = Continue (mkScan (brace_level st) true false)).
    { unfold loop_body. rewrite Fq, Fb, I. reflexivity. }
    rewrite L1, L2.
    destruct (Same _ L1) as [<- <-]. apply IH.
  - destruct (loop_body st ch) as [|st'] eqn:L; [reflexivity|].
    destruct (Same _ eq_refl) as [<- <-]. apply IH.
Qed.

Lemma blank_from_scan fill html start :
  fill <> dquote -> fill <> backslash ->
  fst (scan_loop (blank_from fill html start)
         (range start (String.length (blank_from fill html start))) scan_start)
  = fst (scan_loop html (range start (String.length html)) scan_start).
Proof.
  intros Fq Fb. rewrite !scan_loop_range.
  destruct (le_lt_dec start (String.length html)) as [L | L].
  - assert (D : forall t, drop start (substring 0 start html ++ t) = t).
    { intros t. pose proof (drop_app_length (substring 0 start html) t) as H.
      rewrite substring_0_length in H by exact L. exact H. }
    unfold blank_from. rewrite D.
    apply (blank_braces_scan fill (drop start html) Fq Fb start scan_start).
  - assert (D : drop start html = "").
    { pose proof (drop_length start html) as E.
      destruct (drop start html); [reflexivity | simpl in E; lia]. }
    assert (D' : drop start (blank_from fill html start) = "").
    { pose proof (drop_length start (blank_from fill html start)) as E.
      unfold blank_from in E at 2. rewrite length_append, blank_braces_length, D in E.
      assert (String.length (substring 0 start html) <= String.length html)%nat.
      { rewrite <- (substring_drop_split start html) at 2. rewrite length_append. lia. }
      simpl in E.
      destruct (drop start (blank_from fill html start)); [reflexivity | simpl in E; lia]. }
    rewrite D, D'. reflexivity.
Qed.

Lemma run_backslashes k : forall st,
  escaped (run (backslashes k) st) = xorb (escaped st) (Nat.odd k) /\
  in_string (run (backslashes k) st) = in_string st /\
  brace_level (run (backslashes k) st) = brace_level st.
Proof.
  induction k as [|k IH]; intros st.
  - simpl. rewrite xorb_false_r. auto.
  - cbn [backslashes run]. destruct (IH (advance st backslash)) as (E & I & B).
    rewrite E, I, B. rewrite Nat.odd_succ, <- Nat.negb_odd.
    unfold advance; simpl. destruct (in_string st), (escaped st), (Nat.odd k); auto.
Qed.

(** C2: one step of the scan changes the brace depth only outside a quoted
    string, by +1 on an opening and -1 on a closing brace (returning when
    that brings it back to zero); string mode is toggled by exactly the
    quotes that are not escaped; a character is escaped exactly when it
    follows a backslash that was not itself escaped, so over a run of
    backslashes the escape state alternates.  Hence blanking the braces
    that lie inside quoted strings never changes where the scan stops, as
    for a value holding the text a{b}c. *)
Theorem scan_respects_strings :
  (forall st ch,
     match loop_body st ch with
     | Return => ch = rbrace /\ in_string st = false /\ brace_level st = 1
     | Continue st' =>
         in_string st' = xorb (in_string st) (Ascii.eqb ch dquote && negb (escaped st)) /\
         escaped st' = (Ascii.eqb ch backslash && negb (escaped st)) /\
         brace_level st' =
           brace_level st +
           (if in_string st then 0
            else if Ascii.eqb ch lbrace then 1
            else if Ascii.eqb ch rbrace then -1 else 0)
     end) /\
  (forall k st,
     escaped (run (backslashes k) st) = xorb (escaped st) (Nat.odd k) /\
     in_string (run (backslashes k) st) = in_string st /\
     brace_level (run (backslashes k) st) = brace_level st) /\
  (forall fill html start,
     fill <> dquote -> fill <> backslash ->
     fst (scan_loop (blank_from fill html start)
            (range start (String.length (blank_from fill html start))) scan_start)
     = fst (scan_loop html (range start (String.length html)) scan_start)) /\
  (forall jl ue,
     _extract_json_object jl ue (py "'K':{'v':'a{b}c','w':{'x':'}'}}, 'L':{}") "K"
     = _safe_json_load jl ue (py "{'v':'a{b}c','w':{'x':'}'}}")).
Proof.
  split; [|split; [|split]].
  - intros st ch. rewrite loop_body_advance.
    destruct (negb (in_string st) && Ascii.eqb ch rbrace && (brace_level st =? 1)) eqn:C.
    + apply andb_prop in C as [C C3]. apply andb_prop in C as [C1 C2].
      apply Z.eqb_eq in C3. apply negb_true_iff in C1. apply Ascii.eqb_eq in C2.
      auto.
    + unfold advance; simpl. split; [|split; [reflexivity|]].
      * destruct (Ascii.eqb ch dquote && negb (escaped st)), (in_string st); reflexivity.
      * destruct (Ascii.eqb ch dquote) eqn:Q.
        -- assert (L : Ascii.eqb ch lbrace = false).
           { apply Ascii.eqb_eq in Q; subst; reflexivity. }
           assert (R : Ascii.eqb ch rbrace = false).
           { apply Ascii.eqb_eq in Q; subst; reflexivity. }
           rewrite L, R. destruct (escaped st), (in_string st); simpl; lia.
        -- simpl. destruct (in_string st); [lia|].
           destruct (Ascii.eqb ch lbrace); [lia|].
           destruct (Ascii.eqb ch rbrace); lia.
  - apply run_backslashes.
  - apply blank_from_scan.
  - intros jl ue. vm_compute. reflexivity.
Qed.

Lemma scan_respects_strings_witness :
  fst (scan_loop (blank_from "_" (py "'K':{'v':'a{b}c'}") 4)
         (range 4 (String.length (blank_from "_" (py "'K':{'v':'a{b}c'}") 4)))
         scan_start)
  = Closed 16 /\
  blank_from "_" (py "'K':{'v':'a{b}c'}") 4 = py "'K':{'v':'a_b_c'}".
Proof.
  split; [|vm_compute; reflexivity].
  destruct scan_respects_strings as (_ & _ & H & _).
  rewrite (H "_"%char (py "'K':{'v':'a{b}c'}") 4%nat);
    [vm_compute; reflexivity | | ]; intros E; discriminate E.
Defined.

(** ** The tolerant decoder *)

(** C4: when the standard decode succeeds its result is returned whatever
    the fallback would do; when it fails with a decode error the text is
    unescaped once and decoded again, and a success there is the result; if
    unescaping or the second decode fails, the error raised is the one of
    the first decode.  A text whose quotes are written backslash-quote is
    decoded by the fallback. *)
Theorem safe_json_load_fallback (jl : string -> Result json)
    (ue : string -> Result string) (s : string) :
  (forall v, jl s = Ok v ->
     forall ue' : string -> Result string, _safe_json_load jl ue' s = Ok v) /\
  (forall m, jl s = Raise (JSONDecodeError m) ->
     (forall u v, ue s = Ok u -> jl u = Ok v -> _safe_json_load jl ue s = Ok v) /\
     (forall e, (u <- ue s ;; jl u) = Raise e ->
        _safe_json_load jl ue s = Raise (JSONDecodeError m))) /\
  (exists m, Py.loads (py "{\'Make\': \'Ford\'}") = Raise (JSONDecodeError m)) /\
  _safe_json_load Py.loads Py.unicode_escape (py "{\'Make\': \'Ford\'}")
  = Ok (JObject [("Make", JString "Ford")]).
Proof.
  split; [|split; [|split]].
  - intros v H ue'. unfold _safe_json_load. rewrite H. reflexivity.
  - intros m H. split.
    + intros u v U V. unfold _safe_json_load. rewrite H, U. simpl. rewrite V. reflexivity.
    + intros e F. unfold _safe_json_load. rewrite H, F. reflexivity.
  - eexists. vm_compute. reflexivity.
  - vm_compute. reflexivity.
Qed.

Lemma safe_json_load_fallback_witness :
  exists m m',
    Py.loads (py "{\'a\':}") = Raise (JSONDecodeError m) /\
    (u <- Py.unicode_escape (py "{\'a\':}") ;; Py.loads u) = Raise (JSONDecodeError m') /\
    m <> m' /\
    _safe_json_load Py.loads Py.unicode_escape (py "{\'a\':}")
    = Raise (JSONDecodeError m).
Proof.
  exists ("Expecting value: " ++ py "{\'a\':}"), ("Expecting value: " ++ py "{'a':}").
  assert (P : Py.loads (py "{\'a\':}")
              = Raise (JSONDecodeError ("Expecting value: " ++ py "{\'a\':}")))
    by (vm_compute; reflexivity).
  assert (F : (u <- Py.unicode_escape (py "{\'a\':}") ;; Py.loads u)
              = Raise (JSONDecodeError ("Expecting value: " ++ py "{'a':}")))
    by (vm_compute; reflexivity).
  split; [exact P|]. split; [exact F|]. split; [vm_compute; discriminate|].
  destruct (safe_json_load_fallback Py.loads Py.unicode_escape (py "{\'a\':}"))
    as (_ & H & _).
  destruct (H _ P) as [_ H2].
  exact (H2 _ F).
Defined.

(** ** The parser and its regular-expression fallback *)

Lemma has_char_drop c n s : has_char c (drop n s) = true -> has_char c s = true.
Proof.
  revert s; induction n as [|n IH]; intros [|d s] H; simpl in *; auto.
  rewrite (IH _ H). apply orb_true_r.
Qed.

Lemma has_char_skip_spaces c s : has_char c (skip_spaces s) = true -> has_char c s = true.
Proof.
  induction s as [|d s IH]; simpl; auto.
  destruct (is_space d); simpl; auto.
  intros H. rewrite (IH H). apply orb_true_r.
Qed.

Lemma up_to_rbrace_some s t : up_to_rbrace s = Some t -> has_char rbrace s = true.
Proof.
  revert t; induction s as [|d s IH]; intros t H; simpl in *; [discriminate|].
  destruct (Ascii.eqb d rbrace); [reflexivity|].
  destruct (up_to_rbrace s) as [u|]; [|discriminate].
  rewrite (IH _ eq_refl). apply orb_true_r.
Qed.

Lemma match_here_some s g : match_here s = Some g -> has_char rbrace s = true.
Proof.
  unfold match_here. destruct (prefix VrmDetails_quoted s); [|discriminate].
  destruct (skip_spaces (drop _ s)) as [|c1 s1] eqn:E1; [discriminate|].
  destruct (Ascii.eqb c1 ":"); [|discriminate].
  destruct (skip_spaces s1) as [|c2 s2] eqn:E2; [discriminate|].
  destruct (Ascii.eqb c2 lbrace); [|discriminate].
  destruct (up_to_rbrace s2) as [t|] eqn:U; [|discriminate].
  intros _. apply up_to_rbrace_some in U.
  apply (has_char_drop _ (String.length VrmDetails_quoted)).
  apply has_char_skip_spaces. rewrite E1. simpl.
  assert (H1 : has_char rbrace s1 = true).
  { apply has_char_skip_spaces. rewrite E2. simpl. rewrite U. apply orb_true_r. }
  rewrite H1. apply orb_true_r.
Qed.

Lemma regex_search_some s g : regex_search s = Some g -> has_char rbrace s = true.
Proof.
  induction s as [|d s IH]; simpl.
  - destruct (match_here "") eqn:M; [|discriminate].
    intros _. apply match_here_some in M. exact M.
  - destruct (match_here (String d s)) eqn:M.
    + intros _. apply match_here_some in M. exact M.
    + intros H. rewrite (IH H). apply orb_true_r.
Qed.

(** C9 (amended): the parser does fall back on the regular expression.  A
    record found by the brace-counting extractor is the result.  When the
    extractor fails, its failure is dropped and the regular expression
    alone decides: the result is the record decoded from its match; the 404
    error "No vehicle data found" when there is no match or the match fails
    to decode with a JSON decode error; and any other exception the decoder
    raises on the match, passed on as it is.  So, the decoder raising none
    of the extractor's errors itself, none of the extractor's three errors
    ever leaves the parser.  With no closing brace anywhere in the document
    the result is the 404 error, as for the truncated document. *)
Theorem parse_html_fallback (jl : string -> Result json)
    (ue : string -> Result string) (html vrm : string) :
  (forall data, _extract_json_object jl ue html "VrmDetails" = Ok data ->
     _parse_html jl ue html vrm = Ok data) /\
  (forall e, _extract_json_object jl ue html "VrmDetails" = Raise e ->
     _parse_html jl ue html vrm
     = match regex_search html with
       | None => Raise (no_vehicle_data vrm)
       | Some g =>
           match _safe_json_load jl ue g with
           | Ok data => Ok data
           | Raise (JSONDecodeError _) => Raise (no_vehicle_data vrm)
           | Raise e' => Raise e'
           end
       end) /\
  (forall e g data,
     _extract_json_object jl ue html "VrmDetails" = Raise e ->
     regex_search html = Some g -> _safe_json_load jl ue g = Ok data ->
     _parse_html jl ue html vrm = Ok data) /\
  (foreign_errors jl "VrmDetails" ->
   forall e, _parse_html jl ue html vrm = Raise e ->
     e <> key_not_found "VrmDetails" /\
     e <> opening_brace_not_found "VrmDetails" /\
     e <> closing_brace_not_found "VrmDetails") /\
  (forall e, _extract_json_object jl ue html "VrmDetails" = Raise e ->
     has_char rbrace html = false ->
     _parse_html jl ue html vrm = Raise (no_vehicle_data vrm)) /\
  _parse_html jl ue (py "'VrmDetails':{'Make':'Ford'") vrm = Raise (no_vehicle_data vrm).
Proof.
  assert (Fallback : forall e,
            _extract_json_object jl ue html "VrmDetails" = Raise e ->
            _parse_html jl ue html vrm
            = match regex_search html with
              | None => Raise (no_vehicle_data vrm)
              | Some g =>
                  match _safe_json_load jl ue g with
                  | Ok data => Ok data
                  | Raise (JSONDecodeError _) => Raise (no_vehicle_data vrm)
                  | Raise e' => Raise e'
                  end
              end).
  { intros e E. unfold _parse_html. rewrite E.
    destruct (regex_search html) as [g|]; [|reflexivity].
    destruct (_safe_json_load jl ue g) as [data|[]]; reflexivity. }
  split; [|split; [|split; [|split; [|split]]]].
  - intros data E. unfold _parse_html. rewrite E. reflexivity.
  - exact Fallback.
  - intros e g data E R D. rewrite (Fallback e E), R, D. reflexivity.
  - intros Foreign e P.
    destruct (_extract_json_object jl ue html "VrmDetails") as [data|e0] eqn:E.
    { unfold _parse_html in P. rewrite E in P. discriminate P. }
    rewrite (Fallback e0 eq_refl) in P.
    destruct (regex_search html) as [g|].
    2:{ inversion P. repeat split; discriminate. }
    destruct (safe_json_load_cases jl ue g) as [[v Hv] | [e' [J Hs]]].
    { rewrite Hv in P. discriminate P. }
    rewrite Hs in P. pose proof (Foreign g e' J) as Fe.
    destruct e'; inversion P; subst; try exact Fe; repeat split; discriminate.
  - intros e E N. rewrite (Fallback e E).
    destruct (regex_search html) as [g|] eqn:R; [|reflexivity].
    apply regex_search_some in R. congruence.
  - vm_compute. reflexivity.
Qed.

Lemma parse_html_fallback_witness :
  _extract_json_object Py.loads Py.unicode_escape
    (py "'VrmDetails' = {'VrmDetails': {'Make': 'Ford'}") "VrmDetails"
  = Raise (closing_brace_not_found "VrmDetails") /\
  _parse_html Py.loads Py.unicode_escape
    (py "'VrmDetails' = {'VrmDetails': {'Make': 'Ford'}") "AB12CDE"
  = Ok (JObject [("Make", JString "Ford")]) /\
  _extract_json_object Py.loads Py.unicode_escape (py "'VrmDetails':{'Make':'Ford'")
    "VrmDetails"
  = Raise (closing_brace_not_found "VrmDetails") /\
  _parse_html Py.loads Py.unicode_escape (py "'VrmDetails':{'Make':'Ford'") "AB12CDE"
  = Raise (HTTPException 404 "No vehicle data found for AB12CDE") /\
  (forall e,
     _parse_html Py.loads Py.unicode_escape (py "'VrmDetails':{'Make':'Ford'") "AB12CDE"
     = Raise e ->
     e <> closing_brace_not_found "VrmDetails").
Proof.
  assert (E1 : _extract_json_object Py.loads Py.unicode_escape
                 (py "'VrmDetails' = {'VrmDetails': {'Make': 'Ford'}") "VrmDetails"
               = Raise (closing_brace_not_found "VrmDetails"))
    by (vm_compute; reflexivity).
  assert (E2 : _extract_json_object Py.loads Py.unicode_escape
                 (py "'VrmDetails':{'Make':'Ford'") "VrmDetails"
               = Raise (closing_brace_not_found "VrmDetails"))
    by (vm_compute; reflexivity).
  split; [exact E1|]. split.
  - destruct (parse_html_fallback Py.loads Py.unicode_escape
                (py "'VrmDetails' = {'VrmDetails': {'Make': 'Ford'}") "AB12CDE")
      as (_ & _ & H & _).
    apply (H _ (py "{'Make': 'Ford'}") _ E1); vm_compute; reflexivity.
  - destruct (parse_html_fallback Py.loads Py.unicode_escape
                (py "'VrmDetails':{'Make':'Ford'") "AB12CDE") as (_ & _ & _ & F & T & _).
    split; [exact E2|]. split.
    + apply (T _ E2). vm_compute. reflexivity.
    + intros e P. apply (F (py_loads_foreign "VrmDetails") e P).
Defined.

(** The claim C9 as the specification words it fails: the extractor's
    [Malformed] error for the truncated document does not reach the caller
    of the parser, who sees the 404 error instead. *)
Lemma truncated_document_not_malformed :
  _extract_json_object Py.loads Py.unicode_escape (py "'VrmDetails':{'Make':'Ford'")
    "VrmDetails"
  = Raise (closing_brace_not_found "VrmDetails") /\
  _parse_html Py.loads Py.unicode_escape (py "'VrmDetails':{'Make':'Ford'") "AB12CDE"
  = Raise (HTTPException 404 "No vehicle data found for AB12CDE") /\
  _parse_html Py.loads Py.unicode_escape (py "'VrmDetails':{'Make':'Ford'") "AB12CDE"
  <> Raise (closing_brace_not_found "VrmDetails").
Proof.
  split; [vm_compute; reflexivity|]. split; [vm_compute; reflexivity|].
  intros H. vm_compute in H. discriminate H.
Qed.

(** ** The fetcher *)

Lemma requests_app a b : requests (a ++ b)%list = (requests a + requests b)%nat.
Proof. unfold requests. rewrite filter_app, List.length_app. reflexivity. Qed.

Lemma requests_failed_attempts url n : requests (failed_attempts url n) = n.
Proof. induction n as [|n IH]; [reflexivity|]. unfold requests in *. simpl. congruence. Qed.

Lemma sleeps_failed_attempts url n : sleeps (failed_attempts url n) = n.
Proof. induction n as [|n IH]; [reflexivity|]. unfold sleeps in *. simpl. congruence. Qed.

Lemma zrange_length a b : List.length (zrange a b) = Z.to_nat (b - a).
Proof. unfold zrange. rewrite length_map, length_seq. reflexivity. Qed.

Lemma transport_down_tail up url base n :
  transport_down up url base (S n) -> transport_down up url (S base) n.
Proof.
  intros H i Hi. destruct (H (S i) ltac:(lia)) as (e & E1 & E2).
  exists e. split; [|exact E2]. rewrite <- E1. f_equal. lia.
Qed.

Lemma requests_after_attempt tr url :
  requests ((tr ++ [Get url]) ++ [Sleep 1])%list = S (requests tr).
Proof. rewrite !requests_app. unfold requests at 2 3. simpl. lia. Qed.

(** Every attempt fails in transport: the loop runs through all of them. *)
Lemma fetch_attempts_down up url attempts : forall last tr,
  transport_down up url (requests tr) (List.length attempts) ->
  exists last',
    fetch_attempts up url attempts last tr
    = (Raise (HTTPException 502 ("Upstream request failed: " ++ str_last last')),
       (tr ++ failed_attempts url (List.length attempts))%list) /\
    match attempts with
    | [] => last' = last
    | _ => forall e,
        up url (requests tr + List.length attempts - 1)%nat = Raise e -> last' = Some e
    end.
Proof.
  induction attempts as [|a rest IH]; intros last tr D.
  - exists last. simpl. rewrite app_nil_r. auto.
  - destruct (D 0%nat ltac:(simpl; lia)) as (e & E1 & E2).
    rewrite Nat.add_0_r in E1.
    pose proof (transport_down_tail _ _ _ _ D) as D'.
    rewrite <- (requests_after_attempt tr url) in D'.
    destruct (IH (Some e) _ D') as (last' & F & L).
    exists last'. split.
    + cbn [fetch_attempts]. rewrite E1. cbn [bind]. rewrite E2. rewrite F.
      f_equal. cbn [List.length failed_attempts].
      rewrite <- !app_assoc. reflexivity.
    + intros e' E'. destruct rest as [|b rest'].
      * simpl in E'. replace (requests tr + 1 - 1)%nat with (requests tr) in E' by lia.
        subst last'. congruence.
      * apply L. rewrite requests_after_attempt. rewrite <- E'. f_equal.
        cbn [List.length]. lia.
Qed.

(** The first answer after [k] transport failures ends the loop. *)
Lemma fetch_attempts_answer up url attempts : forall k last tr r,
  (k < List.length attempts)%nat ->
  transport_down up url (requests tr) k ->
  up url (requests tr + k)%nat = Ok r ->
  fetch_attempts up url attempts last tr
  = (_ <- raise_for_status r ;; Ok (text r),
     (tr ++ failed_attempts url k ++ [Get url])%list).
Proof.
  induction attempts as [|a rest IH]; intros k last tr r Hk D U; [simpl in Hk; lia|].
  destruct k as [|k].
  - rewrite Nat.add_0_r in U. cbn [fetch_attempts]. rewrite U. cbn [bind].
    unfold raise_for_status.
    destruct ((200 <=? status_code r) && (status_code r <=? 299)); reflexivity.
  - destruct (D 0%nat ltac:(lia)) as (e & E1 & E2). rewrite Nat.add_0_r in E1.
    pose proof (transport_down_tail _ _ _ _ D) as D'.
    rewrite <- (requests_after_attempt tr url) in D'.
    cbn [fetch_attempts]. rewrite E1. cbn [bind]. rewrite E2.
    rewrite (IH k (Some e) _ r); [| simpl in Hk; lia | exact D' |].
    + f_equal. cbn [failed_attempts]. rewrite <- !app_assoc. reflexivity.
    + rewrite requests_after_attempt. rewrite <- U. f_equal. lia.
Qed.

(** C5: with a non-negative attempt count, when every attempt ends in a
    time-out or transport failure the fetcher issues exactly
    [RETRY_ATTEMPTS] requests (3 by default), a one-second pause after each
    failure and so before each retry, and then raises the 502 error that
    carries the text of the last failure; a successful response at any
    attempt is returned at once and no further request is made. *)
Theorem fetch_retries (cfg : Config) (up : Upstream) (vrm : string) (tr : list Event) :
  0 <= RETRY_ATTEMPTS cfg ->
  let url := format_vrm (BASE_URL cfg) vrm 0 in
  let n := Z.to_nat (RETRY_ATTEMPTS cfg) in
  (transport_down up url (requests tr) n ->
   exists last,
     _fetch_html cfg up vrm tr
     = (Raise (HTTPException 502 ("Upstream request failed: " ++ str_last last)),
        (tr ++ failed_attempts url n)%list) /\
     Z.of_nat (requests (failed_attempts url n)) = RETRY_ATTEMPTS cfg /\
     sleeps (failed_attempts url n) = n /\
     ((0 < n)%nat ->
      forall e, up url (requests tr + n - 1)%nat = Raise e -> last = Some e)) /\
  (forall k r,
     (k < n)%nat -> transport_down up url (requests tr) k ->
     up url (requests tr + k)%nat = Ok r ->
     200 <= status_code r <= 299 ->
     _fetch_html cfg up vrm tr
     = (Ok (text r), (tr ++ failed_attempts url k ++ [Get url])%list)) /\
  RETRY_ATTEMPTS default_config = 3.
Proof.
  intros Hn url n.
  assert (L : List.length (zrange 1 (RETRY_ATTEMPTS cfg + 1)) = n).
  { rewrite zrange_length. unfold n. f_equal. lia. }
  split; [|split; [|reflexivity]].
  - intros D. unfold _fetch_html. fold url. rewrite <- L in D.
    destruct (fetch_attempts_down up url _ None tr D) as (last & F & Last).
    rewrite L in F. exists last. split; [exact F|].
    split; [rewrite requests_failed_attempts; unfold n; lia|].
    split; [apply sleeps_failed_attempts|].
    intros Pos e E. destruct (zrange 1 (RETRY_ATTEMPTS cfg + 1)) as [|a rest] eqn:Z.
    + simpl in L. lia.
    + apply Last. rewrite L. exact E.
  - intros k r Hk D U S. unfold _fetch_html. fold url.
    rewrite (fetch_attempts_answer up url _ k None tr r); [| lia | exact D | exact U].
    unfold raise_for_status.
    replace ((200 <=? status_code r) && (status_code r <=? 299)) with true; [reflexivity|].
    symmetry. apply andb_true_intro. split; apply Z.leb_le; lia.
Qed.

Lemma flaky_down answer url n : (n <= 3)%nat -> transport_down (flaky answer) url 0 n.
Proof.
  intros H i Hi. destruct i as [|[|[|i]]]; simpl; try lia; eexists; split; reflexivity.
Qed.

Lemma fetch_retries_witness :
  _fetch_html default_config (flaky (mkResponse 200 "late")) "AB12CDE" []
  = (Raise (HTTPException 502 "Upstream request failed: read timed out"),
     failed_attempts (format_vrm (BASE_URL default_config) "AB12CDE" 0) 3).
Proof.
  destruct (fetch_retries default_config (flaky (mkResponse 200 "late")) "AB12CDE" [])
    as [H _]; [cbv; discriminate|].
  destruct (H (flaky_down _ _ 3%nat (Nat.le_refl 3))) as (last & F & _ & _ & Last).
  rewrite (Last ltac:(cbv; lia) (TimeoutException "read timed out") eq_refl) in F.
  exact F.
Defined.

(** C6 (amended): a response whose status is not in 200..299, at whatever
    attempt it arrives, makes the fetcher fail at once: the request that
    got the response is the last one made and no pause follows.  What is
    raised is the status error of the HTTP client itself, with the status
    code; it is not wrapped in the [HTTPException] with status 502 that the
    fetcher raises when its attempts are used up, nor in any other
    [HTTPException]. *)
Theorem fetch_status_failure (cfg : Config) (up : Upstream) (vrm : string)
    (tr : list Event) (k : nat) (r : Response) :
  let url := format_vrm (BASE_URL cfg) vrm 0 in
  (k < Z.to_nat (RETRY_ATTEMPTS cfg))%nat ->
  transport_down up url (requests tr) k ->
  up url (requests tr + k)%nat = Ok r ->
  ~ (200 <= status_code r <= 299) ->
  _fetch_html cfg up vrm tr
  = (Raise (HTTPStatusError (status_code r)),
     (tr ++ failed_attempts url k ++ [Get url])%list) /\
  (forall status detail,
     fst (_fetch_html cfg up vrm tr) <> Raise (HTTPException status detail)) /\
  requests (snd (_fetch_html cfg up vrm tr)) = (requests tr + k + 1)%nat /\
  sleeps (snd (_fetch_html cfg up vrm tr)) = (sleeps tr + k)%nat.
Proof.
  intros url Hk D U S.
  assert (F : _fetch_html cfg up vrm tr
              = (Raise (HTTPStatusError (status_code r)),
                 (tr ++ failed_attempts url k ++ [Get url])%list)).
  { unfold _fetch_html. fold url.
    rewrite (fetch_attempts_answer up url _ k None tr r);
      [| rewrite zrange_length; replace (RETRY_ATTEMPTS cfg + 1 - 1) with (RETRY_ATTEMPTS cfg) by lia;
         exact Hk | exact D | exact U].
    unfold raise_for_status.
    replace ((200 <=? status_code r) && (status_code r <=? 299)) with false; [reflexivity|].
    symmetry. apply andb_false_iff.
    destruct (Z.leb_spec 200 (status_code r)); [|left; reflexivity].
    destruct (Z.leb_spec (status_code r) 299); [|right; reflexivity].
    exfalso. apply S. lia. }
  rewrite F. cbn [fst snd]. split; [reflexivity|].
  split; [intros status detail; discriminate|]. split.
  - rewrite !requests_app, requests_failed_attempts. unfold requests at 2. simpl. lia.
  - unfold sleeps. rewrite !filter_app, !List.length_app.
    fold (sleeps tr). fold (sleeps (failed_attempts url k)).
    rewrite sleeps_failed_attempts. simpl. lia.
Qed.

Lemma fetch_status_failure_witness :
  _fetch_html default_config (flaky (mkResponse 503 "busy")) "AB12CDE"
    (failed_attempts "earlier" 2)
  = (Raise (HTTPStatusError 503),
     (failed_attempts "earlier" 2
      ++ failed_attempts (format_vrm (BASE_URL default_config) "AB12CDE" 0) 1
      ++ [Get (format_vrm (BASE_URL default_config) "AB12CDE" 0)])%list).
Proof.
  apply (fetch_status_failure default_config (flaky (mkResponse 503 "busy")) "AB12CDE"
           (failed_attempts "earlier" 2) 1 (mkResponse 503 "busy")).
  - cbv. lia.
  - intros i Hi. assert (i = 0)%nat by lia; subst. eexists; split; reflexivity.
  - reflexivity.
  - cbn. lia.
Defined.

(** The claim C6 as the specification words it fails: for a response with
    status 404 the fetcher does not raise its upstream error, the
    [HTTPException] with status 502 that it raises when the upstream
    cannot be reached; it raises the status error of the client. *)
Lemma status_failure_is_not_upstream_error :
  fst (_fetch_html default_config (fun _ _ => Ok (mkResponse 404 "not found"))
         "AB12CDE" [])
  = Raise (HTTPStatusError 404) /\
  (forall detail,
     fst (_fetch_html default_config (fun _ _ => Ok (mkResponse 404 "not found"))
            "AB12CDE" [])
     <> Raise (HTTPException 502 detail)) /\
  fst (_fetch_html default_config unreachable "AB12CDE" [])
  = Raise (HTTPException 502 "Upstream request failed: connection refused").
Proof.
  split; [vm_compute; reflexivity|]. split; [|vm_compute; reflexivity].
  intros detail H. vm_compute in H. discriminate H.
Qed.

(** ** The cache-backed resolver *)

Lemma find_link_removed key ls : find_link key (remove_link key ls) = None.
Proof.
  induction ls as [|l ls IH]; simpl; [reflexivity|].
  destruct (String.eqb (link_key l) key) eqn:E; simpl; [exact IH|].
  rewrite E. exact IH.
Qed.

Lemma find_link_app key a b :
  find_link key (a ++ b)%list =
  match find_link key a with Some l => Some l | None => find_link key b end.
Proof.
  induction a as [|l a IH]; simpl; [reflexivity|].
  destruct (String.eqb (link_key l) key); [reflexivity | exact IH].
Qed.

Lemma find_link_inserted key v e ls :
  find_link key (remove_link key ls ++ [mkLink key v e])%list = Some (mkLink key v e).
Proof.
  rewrite find_link_app, find_link_removed. simpl. rewrite String.eqb_refl. reflexivity.
Qed.

Lemma cache_contains_later c t t' key :
  cache_contains c t key = false -> t <= t' -> cache_contains c t' key = false.
Proof.
  unfold cache_contains. destruct (find_link key (links c)) as [l|]; [|reflexivity].
  intros H Le. apply Z.ltb_ge in H. apply Z.ltb_ge. lia.
Qed.

Lemma cache_setitem_ok c now key value c' :
  cache_setitem c now key value = (Ok tt, c') ->
  find_link key (links c') = Some (mkLink key value (now + ttl c)) /\ ttl c' = ttl c.
Proof.
  unfold cache_setitem. destruct (1 >? maxsize c); [discriminate|].
  intros H. inversion H; subst c'; clear H. cbn [links ttl].
  split; [apply find_link_inserted | reflexivity].
Qed.

(** The resolver served from the cache. *)
Lemma get_vehicle_info_hit jl ue cfg up clock vrm w l :
  find_link vrm (links (cache w)) = Some l ->
  at_contains clock <= at_getitem clock ->
  at_getitem clock < expires l ->
  get_vehicle_info jl ue cfg up clock vrm w
  = (Ok (link_value l),
     mkWorld (mkCache (maxsize (cache w)) (ttl (cache w))
                      (remove_link vrm (links (cache w)) ++ [l]))
             (trace w)).
Proof.
  intros F Le Lt. unfold get_vehicle_info, cache_contains, cache_getitem. rewrite F.
  replace (at_contains clock <? expires l) with true by (symmetry; apply Z.ltb_lt; lia).
  replace (at_getitem clock <? expires l) with true by (symmetry; apply Z.ltb_lt; lia).
  reflexivity.
Qed.

(** The resolver on a miss, step by step. *)
Lemma get_vehicle_info_miss jl ue cfg up clock vrm w :
  cache_contains (cache w) (at_contains clock) vrm = false ->
  get_vehicle_info jl ue cfg up clock vrm w =
  let (fetched, tr) := _fetch_html cfg up vrm (trace w) in
  match fetched with
  | Raise e => (Raise e, mkWorld (cache w) tr)
  | Ok html =>
      match _parse_html jl ue html vrm with
      | Raise e => (Raise e, mkWorld (cache w) tr)
      | Ok info =>
          let (stored, c) := cache_setitem (cache w) (at_setitem clock) vrm info in
          match stored with
          | Raise e => (Raise e, mkWorld c tr)
          | Ok _ => (Ok info, mkWorld c tr)
          end
      end
  end.
Proof. intros M. unfold get_vehicle_info. rewrite M. reflexivity. Qed.

(** The cache contract of the resolver, for a call whose cache read, like
    its cache test, precedes the expiry of the entry: the cached record is
    returned, nothing is sent upstream and the answer does not depend on
    the upstream.  On a miss that ends in a record, the record is in the
    cache when the call returns, expiring one TTL after the write; a later
    call whose two timer readings fall within that time returns the same
    record, again without any request, whatever the upstream does. *)
Theorem resolve_uses_cache (jl : string -> Result json) (ue : string -> Result string)
    (cfg : Config) (up : Upstream) (clock : Timer) (vrm : string) (w : World) :
  (forall l,
     find_link vrm (links (cache w)) = Some l ->
     at_contains clock <= at_getitem clock ->
     at_getitem clock < expires l ->
     exists c,
       get_vehicle_info jl ue cfg up clock vrm w
       = (Ok (link_value l), mkWorld c (trace w))) /\
  (forall info w',
     cache_contains (cache w) (at_contains clock) vrm = false ->
     get_vehicle_info jl ue cfg up clock vrm w = (Ok info, w') ->
     find_link vrm (links (cache w'))
     = Some (mkLink vrm info (at_setitem clock + ttl (cache w))) /\
     forall (up' : Upstream) (clock' : Timer),
       at_contains clock' <= at_getitem clock' ->
       at_getitem clock' < at_setitem clock + ttl (cache w) ->
       exists c,
         get_vehicle_info jl ue cfg up' clock' vrm w'
         = (Ok info, mkWorld c (trace w'))).
Proof.
  split.
  - intros l F Le Lt. eexists. apply get_vehicle_info_hit; assumption.
  - intros info w' M H. rewrite (get_vehicle_info_miss _ _ _ _ _ _ _ M) in H.
    destruct (_fetch_html cfg up vrm (trace w)) as [[html|e] tr]; [|discriminate].
    destruct (_parse_html jl ue html vrm) as [info'|e]; [|discriminate].
    destruct (cache_setitem (cache w) (at_setitem clock) vrm info') as [[[]|e] c] eqn:S;
      [|discriminate].
    inversion H; subst info' w'; clear H.
    destruct (cache_setitem_ok _ _ _ _ _ S) as [F T]. cbn [cache trace].
    split; [exact F|].
    intros up' clock' Le Lt. eexists.
    apply (get_vehicle_info_hit jl ue cfg up' clock' vrm (mkWorld c tr) _ F Le Lt).
Qed.

Lemma resolve_uses_cache_witness :
  exists w',
    get_vehicle_info Py.loads Py.unicode_escape default_config
      (serving (py "<script>{'VrmDetails':{'Make':'Ford'}}</script>"))
      (mkTimer 100 100 103) "AB12CDE" (initial_world default_config)
    = (Ok (JObject [("Make", JString "Ford")]), w') /\
    requests (trace w') = 1%nat /\
    exists c,
      get_vehicle_info Py.loads Py.unicode_escape default_config unreachable
        (mkTimer 86000 86001 86002) "AB12CDE" w'
      = (Ok (JObject [("Make", JString "Ford")]), mkWorld c (trace w')).
Proof.
  destruct (get_vehicle_info Py.loads Py.unicode_escape default_config
              (serving (py "<script>{'VrmDetails':{'Make':'Ford'}}</script>"))
              (mkTimer 100 100 103) "AB12CDE" (initial_world default_config))
    as [r w'] eqn:G.
  assert (R : r = Ok (JObject [("Make", JString "Ford")]) /\ requests (trace w') = 1%nat).
  { vm_compute in G. inversion G; subst. split; reflexivity. }
  destruct R as [-> Rq]. exists w'. split; [reflexivity|]. split; [exact Rq|].
  destruct (resolve_uses_cache Py.loads Py.unicode_escape default_config
              (serving (py "<script>{'VrmDetails':{'Make':'Ford'}}</script>"))
              (mkTimer 100 100 103) "AB12CDE" (initial_world default_config))
    as [_ H].
  destruct (H _ _ eq_refl G) as [_ H2].
  apply H2; cbn; lia.
Defined.

(** C7: the claim fails on the code.  The resolver tests the cache with
    [in] and then reads it with [cache[vrm]], and each of the two steps
    takes its own timer reading.  A record stored by a successful call at
    timer reading 2 expires at 86402.  At the later call the entry is
    present and unexpired when the cache is tested, at 86401; the read, at
    86402, finds it expired, and the resolver raises [KeyError] instead of
    returning the cached record.  It sends no request either, whatever the
    upstream would answer. *)
Theorem resolve_live_entry_raises_keyerror :
  exists w1,
    get_vehicle_info Py.loads Py.unicode_escape default_config
      (serving (py "<script>{'VrmDetails':{'Make':'Ford'}}</script>"))
      (mkTimer 1 1 2) "AB12CDE" (initial_world default_config)
    = (Ok (JObject [("Make", JString "Ford")]), w1) /\
    find_link "AB12CDE" (links (cache w1))
    = Some (mkLink "AB12CDE" (JObject [("Make", JString "Ford")]) 86402) /\
    cache_contains (cache w1) 86401 "AB12CDE" = true /\
    forall up : Upstream,
      fst (get_vehicle_info Py.loads Py.unicode_escape default_config up
             (mkTimer 86401 86402 86403) "AB12CDE" w1)
      = Raise (KeyError "AB12CDE") /\
      trace (snd (get_vehicle_info Py.loads Py.unicode_escape default_config up
                    (mkTimer 86401 86402 86403) "AB12CDE" w1))
      = trace w1.
Proof.
  eexists. split; [vm_compute; reflexivity|].
  split; [vm_compute; reflexivity|].
  split; [vm_compute; reflexivity|].
  intros up. split; vm_compute; reflexivity.
Qed.

Lemma fetch_attempts_extends up url attempts : forall last tr,
  exists ext, snd (fetch_attempts up url attempts last tr) = (tr ++ ext)%list /\
              (attempts <> [] -> (1 <= requests ext)%nat).
Proof.
  induction attempts as [|a rest IH]; intros last tr.
  - exists []. simpl. rewrite app_nil_r. split; [reflexivity | congruence].
  - cbn [fetch_attempts].
    destruct (r <- up url (requests tr);; _ <- raise_for_status r;; Ok (text r)) as [t|e].
    + exists [Get url]. split; [reflexivity | intros _; cbv; lia].
    + destruct (is_transport_failure e).
      * destruct (IH (Some e) ((tr ++ [Get url]) ++ [Sleep 1])%list) as (ext & E & _).
        exists (Get url :: Sleep 1 :: ext). split.
        -- rewrite E. rewrite <- !app_assoc. reflexivity.
        -- intros _. unfold requests. simpl. lia.
      * exists [Get url]. split; [reflexivity | intros _; cbv; lia].
Qed.

Lemma fetch_html_requests cfg up vrm tr :
  1 <= RETRY_ATTEMPTS cfg ->
  (requests tr < requests (snd (_fetch_html cfg up vrm tr)))%nat.
Proof.
  intros H. unfold _fetch_html.
  destruct (fetch_attempts_extends up (format_vrm (BASE_URL cfg) vrm 0)
              (zrange 1 (RETRY_ATTEMPTS cfg + 1)) None tr) as (ext & E & R).
  rewrite E, requests_app.
  assert (zrange 1 (RETRY_ATTEMPTS cfg + 1) <> []).
  { intros Nil. apply (f_equal (@List.length Z)) in Nil. rewrite zrange_length in Nil.
    simpl in Nil. lia. }
  specialize (R H0). lia.
Qed.

Lemma get_vehicle_info_miss_trace jl ue cfg up clock vrm w :
  cache_contains (cache w) (at_contains clock) vrm = false ->
  trace (snd (get_vehicle_info jl ue cfg up clock vrm w))
  = snd (_fetch_html cfg up vrm (trace w)).
Proof.
  intros M. rewrite (get_vehicle_info_miss _ _ _ _ _ _ _ M).
  destruct (_fetch_html cfg up vrm (trace w)) as [[html|e] tr]; [|reflexivity].
  destruct (_parse_html jl ue html vrm) as [info|e]; [|reflexivity].
  destruct (cache_setitem (cache w) (at_setitem clock) vrm info) as [[[]|e] c];
    reflexivity.
Qed.

(** C8 (amended): on a cache miss, a failure of the fetcher, or of the
    parser (the extractor and its regular-expression fallback both
    failing), is the failure of the resolver, and the cache is left as it
    was; the same identifier asked again later is a miss again and, with at
    least one attempt configured, goes upstream again. *)
Theorem failures_not_cached (jl : string -> Result json) (ue : string -> Result string)
    (cfg : Config) (up : Upstream) (clock : Timer) (vrm : string) (w : World) :
  cache_contains (cache w) (at_contains clock) vrm = false ->
  (forall e tr,
     _fetch_html cfg up vrm (trace w) = (Raise e, tr) ->
     get_vehicle_info jl ue cfg up clock vrm w = (Raise e, mkWorld (cache w) tr)) /\
  (forall html tr e,
     _fetch_html cfg up vrm (trace w) = (Ok html, tr) ->
     _parse_html jl ue html vrm = Raise e ->
     get_vehicle_info jl ue cfg up clock vrm w = (Raise e, mkWorld (cache w) tr)) /\
  (forall (up' : Upstream) (clock' : Timer) (tr : list Event),
     at_contains clock <= at_contains clock' ->
     1 <= RETRY_ATTEMPTS cfg ->
     cache_contains (cache w) (at_contains clock') vrm = false /\
     (requests tr
      < requests (trace (snd (get_vehicle_info jl ue cfg up' clock' vrm
                                (mkWorld (cache w) tr)))))%nat).
Proof.
  intros M. split; [|split].
  - intros e tr F. rewrite (get_vehicle_info_miss _ _ _ _ _ _ _ M), F. reflexivity.
  - intros html tr e F P. rewrite (get_vehicle_info_miss _ _ _ _ _ _ _ M), F, P.
    reflexivity.
  - intros up' clock' tr Le R.
    pose proof (cache_contains_later _ _ _ _ M Le) as M'.
    split; [exact M'|].
    rewrite get_vehicle_info_miss_trace by exact M'.
    apply fetch_html_requests. exact R.
Qed.

Lemma failures_not_cached_witness :
  get_vehicle_info Py.loads Py.unicode_escape default_config
    (serving (py "'VrmDetails':{'Make':'Ford'")) (mkTimer 7 7 8) "AB12CDE"
    (initial_world default_config)
  = (Raise (HTTPException 404 "No vehicle data found for AB12CDE"),
     mkWorld (cache (initial_world default_config))
             [Get (format_vrm (BASE_URL default_config) "AB12CDE" 0)]).
Proof.
  destruct (failures_not_cached Py.loads Py.unicode_escape default_config
              (serving (py "'VrmDetails':{'Make':'Ford'")) (mkTimer 7 7 8) "AB12CDE"
              (initial_world default_config) eq_refl) as (_ & H & _).
  apply (H (py "'VrmDetails':{'Make':'Ford'")); vm_compute; reflexivity.
Defined.

(** The claim C8 as the specification words it fails: the extractor stage
    fails on this document (it finds no matching closing brace), yet the
    resolver returns a record, the one the regular expression matched, and
    stores it in the cache. *)
Lemma extractor_failure_recovered_and_cached :
  _extract_json_object Py.loads Py.unicode_escape
    (py "'VrmDetails'{'VrmDetails':{}") "VrmDetails"
  = Raise (closing_brace_not_found "VrmDetails") /\
  get_vehicle_info Py.loads Py.unicode_escape default_config
    (serving (py "'VrmDetails'{'VrmDetails':{}")) (mkTimer 7 7 8) "AB12CDE"
    (initial_world default_config)
  = (Ok (JObject []),
     mkWorld (mkCache 5000 86400 [mkLink "AB12CDE" (JObject []) 86408])
             [Get (format_vrm (BASE_URL default_config) "AB12CDE" 0)]).
Proof. split; vm_compute; reflexivity. Qed.

(** ** The scan over serialized JSON *)

Lemma json_induction (P : json -> Prop) :
  P JNull ->
  (forall b, P (JBool b)) ->
  (forall n, P (JInt n)) ->
  (forall s, P (JString s)) ->
  (forall items, Forall P items -> P (JArray items)) ->
  (forall members, Forall (fun kv => P (snd kv)) members -> P (JObject members)) ->
  forall v, P v.
Proof.
  intros Hnull Hbool Hint Hstr Harr Hobj.
  fix IH 1. intros [| b | n | s | items | members].
  - exact Hnull.
  - apply Hbool.
  - apply Hint.
  - apply Hstr.
  - apply Harr. induction items as [|x xs IHxs]; constructor; [apply IH | exact IHxs].
  - apply Hobj. induction members as [|[k x] xs IHxs]; constructor;
      [apply IH | exact IHxs].
Qed.

Lemma loop_body_inert st c :
  inert_char c = true -> escaped st = false -> loop_body st c = Continue st.
Proof.
  unfold inert_char. intros I E. apply negb_true_iff in I.
  apply orb_false_iff in I as [I R]. apply orb_false_iff in I as [I L].
  apply orb_false_iff in I as [Q B].
  destruct st as [lvl i e]. simpl in E. subst e.
  unfold loop_body. rewrite Q, B, L, R. destruct i; reflexivity.
Qed.

Lemma scan_inert t : inert_text t = true ->
  forall st rest pos, escaped st = false ->
    scan_suffix (t ++ rest) pos st = scan_suffix rest (pos + String.length t) st.
Proof.
  induction t as [|c t IH]; intros I st rest pos E.
  - simpl. rewrite Nat.add_0_r. reflexivity.
  - simpl in I. apply andb_prop in I as [Ic It].
    cbn [append scan_suffix String.length]. rewrite (loop_body_inert _ _ Ic E).
    rewrite (IH It) by exact E. f_equal. lia.
Qed.

Lemma passes_inert t : inert_text t = true -> passes t.
Proof. intros I st rest pos (_ & _ & E). apply scan_inert; assumption. Qed.

Lemma passes_app a b : passes a -> passes b -> passes (a ++ b).
Proof.
  intros Pa Pb st rest pos B. rewrite app_assoc_s, Pa, Pb by exact B.
  rewrite length_append. f_equal. lia.
Qed.

(** Inside a string literal: every escape sequence leaves the scan in
    string mode with no escape pending. *)
Lemma scan_escape_char c : forall st rest pos,
  in_string st = true -> escaped st = false ->
  scan_suffix (escape_char c ++ rest) pos st
  = scan_suffix rest (pos + String.length (escape_char c)) st.
Proof.
  intros [lvl i e] rest pos I E. simpl in I, E. subst i e.
  assert (Two : forall (x : ascii) t p,
            scan_suffix (String backslash (String x t)) p (mkScan lvl true false)
            = scan_suffix t (p + 2) (mkScan lvl true false)).
  { intros x t p. cbn [scan_suffix]. unfold loop_body. cbn.
    replace (Ascii.eqb x dquote && false) with false by (symmetry; apply andb_false_r).
    replace (Ascii.eqb x backslash && false) with false by (symmetry; apply andb_false_r).
    cbn. f_equal. lia. }
  unfold escape_char.
  destruct (Ascii.eqb c dquote) eqn:Q; [apply Two|].
  destruct (Ascii.eqb c backslash) eqn:B; [apply Two|].
  destruct (Ascii.eqb c "010"); [apply Two|].
  destruct (Ascii.eqb c "013"); [apply Two|].
  destruct (Ascii.eqb c "009"); [apply Two|].
  destruct (Ascii.eqb c "008"); [apply Two|].
  destruct (Ascii.eqb c "012"); [apply Two|].
  destruct ((32 <=? nat_of_ascii c)%nat && (nat_of_ascii c <=? 126)%nat).
  - cbn [append scan_suffix String.length]. unfold loop_body. cbn.
    rewrite Q, B. cbn. f_equal. lia.
  - set (h1 := hex_digit (nat_of_ascii c / 16)).
    set (h2 := hex_digit (nat_of_ascii c mod 16)).
    change ("\u00" ++ String h1 (String h2 ""))
      with (String backslash (String "u" ("00" ++ String h1 (String h2 "")))).
    cbn [append]. rewrite Two.
    assert (In16 : forall n, (n < 16)%nat -> inert_char (hex_digit n) = true).
    { intros n Hn. do 16 (destruct n as [|n]; [reflexivity|]). lia. }
    assert (I1 : inert_char h1 = true).
    { apply In16. apply Nat.Div0.div_lt_upper_bound.
      pose proof (nat_ascii_bounded c). lia. }
    assert (I2 : inert_char h2 = true).
    { apply In16. apply Nat.mod_upper_bound. lia. }
    change (String "0" (String "0" (String h1 (String h2 rest))))
      with ((String "0" (String "0" (String h1 (String h2 ""))) ++ rest)).
    rewrite scan_inert; [cbn [String.length]; f_equal; lia | | reflexivity].
    cbn [inert_text]. rewrite I1, I2. reflexivity.
Qed.

Lemma scan_escape_body s : forall st rest pos,
  in_string st = true -> escaped st = false ->
  scan_suffix (escape_body s ++ rest) pos st
  = scan_suffix rest (pos + String.length (escape_body s)) st.
Proof.
  induction s as [|c s IH]; intros st rest pos I E.
  - simpl. rewrite Nat.add_0_r. reflexivity.
  - cbn [escape_body]. rewrite app_assoc_s, scan_escape_char, IH by assumption.
    rewrite length_append. f_equal. lia.
Qed.

Lemma passes_string s : passes (encode_basestring_ascii s).
Proof.
  intros [lvl i e] rest pos (L & I & E). simpl in L, I, E. subst i e.
  unfold encode_basestring_ascii.
  cbn [append scan_suffix String.length].
  change (loop_body (mkScan lvl false false) dquote)
    with (Continue (mkScan lvl true false)).
  cbv iota. rewrite app_assoc_s.
  rewrite scan_escape_body by reflexivity.
  cbn [append scan_suffix].
  change (loop_body (mkScan lvl true false) dquote)
    with (Continue (mkScan lvl false false)).
  cbv iota. rewrite length_append. f_equal. simpl. lia.
Qed.

Lemma inert_uint d : inert_text (NilEmpty.string_of_uint d) = true.
Proof. induction d; simpl; auto. Qed.

Lemma passes_int n : passes (NilZero.string_of_int (Z.to_int n)).
Proof.
  apply passes_inert. unfold NilZero.string_of_int, NilZero.string_of_uint.
  destruct (Z.to_int n) as [d|d]; destruct d; try reflexivity;
    try (apply (inert_uint (_ d))); simpl; try apply inert_uint.
Qed.

Lemma passes_join items : Forall passes items -> passes (join_items items).
Proof.
  induction 1 as [|x xs Hx Hxs IH]; [apply passes_inert; reflexivity|].
  destruct xs as [|y ys]; [exact Hx|].
  change (join_items (x :: y :: ys)) with (x ++ ", " ++ join_items (y :: ys)).
  apply passes_app; [exact Hx|]. apply passes_app; [|exact IH].
  apply passes_inert; reflexivity.
Qed.

(** An object nested in a JSON text: the depth goes up at its opening
    brace and comes back, never to zero, at its closing brace. *)
Lemma passes_braces body : passes body -> passes ("{" ++ body ++ "}").
Proof.
  intros Pb [lvl i e] rest pos (L & I & E). simpl in L, I, E. subst i e.
  cbn [append scan_suffix String.length].
  change (loop_body (mkScan lvl false false) "{") with
    (Continue (mkScan (lvl + 1) false false)).
  cbv iota. rewrite app_assoc_s.
  rewrite Pb by (repeat split; simpl; auto; lia).
  cbn [append scan_suffix].
  assert (B : loop_body (mkScan (lvl + 1) false false) "}"
              = Continue (mkScan lvl false false)).
  { unfold loop_body. cbn. replace (lvl + 1 - 1) with lvl by lia.
    destruct (lvl =? 0) eqn:Z0; [apply Z.eqb_eq in Z0; lia | reflexivity]. }
  rewrite B. rewrite length_append. f_equal. simpl. lia.
Qed.

Lemma passes_members (members : list (string * json)) :
  Forall (fun kv => passes (dumps (snd kv))) members ->
  passes (join_items
            (map (fun kv => encode_basestring_ascii (fst kv) ++ ": " ++ dumps (snd kv))
                 members)).
Proof.
  intros F. apply passes_join. apply Forall_map.
  eapply Forall_impl; [|exact F]. intros [k v] Pv. cbn [fst snd] in *.
  apply passes_app; [apply passes_string|].
  apply passes_app; [apply passes_inert; reflexivity | exact Pv].
Qed.

Lemma passes_dumps v : passes (dumps v).
Proof.
  induction v as [| b | n | s | items IH | members IH] using json_induction.
  - apply passes_inert; reflexivity.
  - destruct b; apply passes_inert; reflexivity.
  - apply passes_int.
  - apply passes_string.
  - cbn [dumps]. apply passes_app; [apply passes_inert; reflexivity|].
    apply passes_app; [|apply passes_inert; reflexivity].
    apply passes_join. apply Forall_map. exact IH.
  - cbn [dumps]. apply passes_braces. apply passes_members. exact IH.
Qed.

(** The scan entered at the opening brace of a serialized object stops at
    its closing brace. *)
Lemma scan_dumps_object members post pos :
  scan_suffix (dumps (JObject members) ++ post) pos scan_start
  = Closed (pos + String.length (dumps (JObject members)) - 1).
Proof.
  assert (Pm : passes (join_items
            (map (fun kv => encode_basestring_ascii (fst kv) ++ ": " ++ dumps (snd kv))
                 members))).
  { apply passes_members. apply Forall_forall. intros kv _. apply passes_dumps. }
  cbn [dumps]. set (body := join_items _) in *.
  cbn [append scan_suffix String.length].
  change (loop_body scan_start "{") with (Continue (mkScan 1 false false)).
  cbv iota. rewrite app_assoc_s, Pm by (repeat split; simpl; auto; lia).
  cbn [append scan_suffix].
  change (loop_body (mkScan 1 false false) "}") with Return.
  cbv iota. rewrite length_append. f_equal. simpl. lia.
Qed.

(** ** Locating the embedded object *)

Lemma has_char_app c a b : has_char c (a ++ b) = has_char c a || has_char c b.
Proof. induction a as [|d a IH]; simpl; [reflexivity|]. rewrite IH. apply orb_assoc. Qed.

Lemma has_char_quoted key : has_char lbrace (quoted key) = has_char lbrace key.
Proof. unfold quoted. simpl. rewrite has_char_app. simpl. apply orb_false_r. Qed.

Lemma has_char_escaped_quoted key :
  has_char lbrace (escaped_quoted key) = has_char lbrace key.
Proof. unfold escaped_quoted. simpl. rewrite has_char_app. simpl. apply orb_false_r. Qed.

Lemma has_char_marker esc key : has_char lbrace (marker esc key) = has_char lbrace key.
Proof. destruct esc; [apply has_char_escaped_quoted | apply has_char_quoted]. Qed.

Lemma drop_app_le n a b :
  (n <= String.length a)%nat -> drop n (a ++ b) = drop n a ++ b.
Proof.
  revert a; induction n as [|n IH]; intros a H; [reflexivity|].
  destruct a as [|c a]; simpl in *; [lia|]. apply IH. lia.
Qed.

Lemma drop_app_ge n a b :
  drop (String.length a + n) (a ++ b) = drop n b.
Proof. induction a; simpl; auto. Qed.

(** A pattern matching across the end of [q] either lies within [q] or
    starts with all of [q]. *)
Lemma prefix_overlap p : forall q t,
  prefix p (q ++ t) = true -> prefix p q = true \/ exists u, p = q ++ u.
Proof.
  induction p as [|d p IH]; intros q t H.
  - left. destruct q; reflexivity.
  - destruct q as [|c q]; [right; exists (String d p); reflexivity|].
    cbn [append prefix] in *. destruct (ascii_dec d c) as [->|]; [|discriminate].
    destruct (IH _ _ H) as [L | [u ->]]; [left; exact L | right; exists u; reflexivity].
Qed.

Lemma prefix_single c d s : prefix (String c "") (String d s) = Ascii.eqb c d.
Proof.
  simpl. destruct (ascii_dec c d) as [->|N].
  - rewrite Ascii.eqb_refl. destruct s; reflexivity.
  - symmetry. apply Ascii.eqb_neq. exact N.
Qed.

Lemma find_at_char c b : forall rest pos,
  has_char c b = false ->
  find_at (String c "") (b ++ String c rest) pos = Some (pos + String.length b)%nat.
Proof.
  induction b as [|d b IH]; intros rest pos H.
  - cbn [append]. rewrite find_at_eq, prefix_single, Ascii.eqb_refl.
    f_equal. simpl. lia.
  - simpl in H. apply orb_false_iff in H as [H1 H2].
    cbn [append]. rewrite find_at_eq, prefix_single, Ascii.eqb_sym, H1.
    rewrite IH by exact H2. f_equal. simpl. lia.
Qed.

Lemma occurs_inner a key b s : occurs (a ++ key ++ b) s -> occurs key s.
Proof.
  intros (i & pre & post & -> & _). exists (String.length (pre ++ a)).
  exists (pre ++ a), (b ++ post). split; [|reflexivity].
  rewrite !app_assoc_s. reflexivity.
Qed.

Lemma occurs_marker esc key s : occurs (marker esc key) s -> occurs key s.
Proof.
  destruct esc; unfold marker.
  - apply (occurs_inner (String backslash (String dquote ""))
                        key (String backslash (String dquote ""))).
  - apply (occurs_inner (String dquote "") key (String dquote "")).
Qed.

(** With no occurrence of the pattern inside [pre] and no opening brace in
    the pattern or in [mid], the first brace found from the first
    occurrence of the pattern is the one after [mid]. *)
Lemma locate_object p pre mid rest :
  ~ occurs p pre ->
  has_char lbrace p = false ->
  has_char lbrace mid = false ->
  exists i,
    find (pre ++ p ++ mid ++ String lbrace rest) p 0 = Some i /\
    find (pre ++ p ++ mid ++ String lbrace rest) (String lbrace "") i
    = Some (String.length pre + String.length p + String.length mid)%nat.
Proof.
  intros N Hp Hm. set (doc := pre ++ p ++ mid ++ String lbrace rest).
  assert (O : occurs_at p doc (String.length pre)).
  { exists pre, (mid ++ String lbrace rest). split; reflexivity. }
  destruct (find_complete doc p 0 _ ltac:(lia) O) as (i & F & Le).
  exists i. split; [exact F|].
  apply find_some in F as (_ & Oi & _).
  apply occurs_at_prefix in Oi as [Li Pi].
  unfold doc in Pi. rewrite drop_app_le in Pi by exact Le.
  destruct (prefix_overlap _ _ _ Pi) as [In | [u Split]].
  - exfalso. apply N. exists i. apply occurs_at_prefix.
    split; [exact Le | exact In].
  - assert (Hq : has_char lbrace (drop i pre) = false).
    { rewrite Split, has_char_app in Hp. apply orb_false_iff in Hp. tauto. }
    unfold find. replace (i <=? String.length doc)%nat with true
      by (symmetry; apply Nat.leb_le; exact Li).
    unfold doc. rewrite drop_app_le by exact Le.
    replace (drop i pre ++ p ++ mid ++ String lbrace rest)
      with ((drop i pre ++ p ++ mid) ++ String lbrace rest)
      by (rewrite !app_assoc_s; reflexivity).
    rewrite find_at_char.
    + f_equal. rewrite !length_append, drop_length. lia.
    + rewrite !has_char_app, Hq, Hp, Hm. reflexivity.
Qed.

(** ** The reference decoder reads back the serializer *)


Lemma digits_stop acc rest : delimited rest -> Py.digits acc rest = (acc, rest).
Proof.
  destruct rest as [|c rest]; [reflexivity|]. intros [D _]. unfold is_digit in D.
  cbn [Py.digits]. destruct (Py.digit_value c); [discriminate | reflexivity].
Qed.

Lemma digits_uint d : forall acc rest,
  delimited rest ->
  Py.digits (Zpos acc) (NilEmpty.string_of_uint d ++ rest)
  = (Zpos (Pos.of_uint_acc d acc), rest).
Proof.
  induction d; intros acc rest R;
    cbn [NilEmpty.string_of_uint append Pos.of_uint_acc];
    [apply digits_stop; exact R | ..];
    cbn [Py.digits]; eval_digit; cbv iota beta;
    rewrite <- (IHd _ rest R); f_equal; lia.
Qed.

Lemma starts_fraction_delimited rest : delimited rest -> Py.starts_fraction rest = false.
Proof. destruct rest; [reflexivity | intros [_ F]; exact F]. Qed.

Lemma nzhead_head d :
  match Decimal.nzhead d with Decimal.D0 _ => False | _ => True end.
Proof. induction d; simpl; auto. Qed.

Lemma to_uint_head p :
  match Pos.to_uint p with
  | Decimal.Nil | Decimal.D0 _ => False
  | _ => True
  end.
Proof.
  pose proof (DecimalPos.Unsigned.to_uint_nonzero p) as NZ.
  pose proof (DecimalPos.Unsigned.to_uint_nonnil p) as NN.
  pose proof (DecimalPos.Unsigned.to_of (Pos.to_uint p)) as TO.
  rewrite DecimalPos.Unsigned.of_to in TO. simpl in TO.
  destruct (Pos.to_uint p) as [| d | d | d | d | d | d | d | d | d | d]; auto.
  unfold Decimal.unorm in TO. cbn [Decimal.nzhead] in TO.
  pose proof (nzhead_head d) as Sp.
  destruct (Decimal.nzhead d); try discriminate TO.
  - inversion TO; subst. apply NZ. reflexivity.
  - exact Sp.
Qed.

Lemma natural_pos p rest :
  delimited rest ->
  Py.natural (NilEmpty.string_of_uint (Pos.to_uint p) ++ rest) = Some (Zpos p, rest).
Proof.
  intros R. pose proof (starts_fraction_delimited _ R) as F.
  pose proof (DecimalPos.Unsigned.of_to p) as OT.
  pose proof (to_uint_head p) as H.
  destruct (Pos.to_uint p) as [| d | d | d | d | d | d | d | d | d | d];
    try contradiction;
    cbn [NilEmpty.string_of_uint append Pos.of_uint] in *;
    unfold Py.natural; eval_digit; cbv iota beta;
    rewrite digits_uint by exact R; rewrite F; inversion OT; reflexivity.
Qed.

Lemma number_int n rest :
  delimited rest ->
  Py.number (NilZero.string_of_int (Z.to_int n) ++ rest) = Some (n, rest).
Proof.
  intros R. pose proof (starts_fraction_delimited _ R) as F.
  destruct n as [|p|p]; cbn [Z.to_int NilZero.string_of_int].
  - cbn. rewrite F. reflexivity.
  - assert (E : NilZero.string_of_uint (Pos.to_uint p)
                = NilEmpty.string_of_uint (Pos.to_uint p)).
    { pose proof (to_uint_head p). destruct (Pos.to_uint p); try contradiction; reflexivity. }
    rewrite E. unfold Py.number.
    pose proof (natural_pos p rest R) as N.
    pose proof (to_uint_head p) as H.
    destruct (Pos.to_uint p); try contradiction;
      cbn [NilEmpty.string_of_uint append] in *; 
      match goal with |- context [Ascii.eqb ?c "-"] =>
         change (Ascii.eqb c "-") with false end; cbv iota; exact N.
  - assert (E : NilZero.string_of_uint (Pos.to_uint p)
                = NilEmpty.string_of_uint (Pos.to_uint p)).
    { pose proof (to_uint_head p). destruct (Pos.to_uint p); try contradiction; reflexivity. }
    rewrite E. cbn [append]. unfold Py.number. 
    change (Ascii.eqb "-" "-") with true. cbv iota.
    rewrite natural_pos by exact R. reflexivity.
Qed.

(** *** String literals *)
Lemma scanstring_escape e d t :
  Py.json_escape e = Some d -> Ascii.eqb e "u" = false ->
  Py.scanstring (String backslash (String e t))
  = match Py.scanstring t with
    | Some (u, r) => Some (String d u, r)
    | None => None
    end.
Proof.
  intros J U. cbn [Py.scanstring].
  change (Ascii.eqb backslash dquote) with false.
  change (Ascii.eqb backslash backslash) with true.
  cbv iota. rewrite U, J. reflexivity.
Qed.

Lemma scanstring_plain c t :
  Ascii.eqb c dquote = false -> Ascii.eqb c backslash = false ->
  (nat_of_ascii c <? 32)%nat = false ->
  Py.scanstring (String c t)
  = match Py.scanstring t with
    | Some (u, r) => Some (String c u, r)
    | None => None
    end.
Proof. intros Q B L. cbn [Py.scanstring]. rewrite Q, B, L. reflexivity. Qed.

Lemma hex_value_digit k : (k < 16)%nat -> Py.hex_value (hex_digit k) = Some k.
Proof. intros H. do 16 (destruct k as [|k]; [reflexivity|]). lia. Qed.

Lemma scanstring_u00 c t :
  Py.scanstring
    (String backslash (String "u" (String "0" (String "0"
      (String (hex_digit (nat_of_ascii c / 16))
         (String (hex_digit (nat_of_ascii c mod 16)) t))))))
  = match Py.scanstring t with
    | Some (u, r) => Some (String c u, r)
    | None => None
    end.
Proof.
  pose proof (nat_ascii_bounded c) as Bd.
  cbn [Py.scanstring].
  change (Ascii.eqb backslash dquote) with false.
  change (Ascii.eqb backslash backslash) with true.
  change (Ascii.eqb "u" "u") with true. cbv iota.
  unfold Py.hex4. change (Py.hex_value "0") with (Some 0%nat).
  rewrite !hex_value_digit
    by (try apply Nat.mod_upper_bound; try apply Nat.Div0.div_lt_upper_bound; lia).
  replace (((0 * 16 + 0) * 16 + nat_of_ascii c / 16) * 16 + nat_of_ascii c mod 16)%nat
    with (nat_of_ascii c)
    by (pose proof (Nat.div_mod_eq (nat_of_ascii c) 16); lia).
  replace (nat_of_ascii c <? 256)%nat with true by (symmetry; apply Nat.ltb_lt; lia).
  rewrite ascii_nat_embedding. reflexivity.
Qed.

Lemma scanstring_escape_char c t :
  Py.scanstring (escape_char c ++ t)
  = match Py.scanstring t with
    | Some (u, r) => Some (String c u, r)
    | None => None
    end.
Proof.
  unfold escape_char.
  destruct (Ascii.eqb_spec c dquote) as [->|Q]; [apply scanstring_escape; reflexivity|].
  destruct (Ascii.eqb_spec c backslash) as [->|B]; [apply scanstring_escape; reflexivity|].
  destruct (Ascii.eqb_spec c "010") as [->|]; [apply scanstring_escape; reflexivity|].
  destruct (Ascii.eqb_spec c "013") as [->|]; [apply scanstring_escape; reflexivity|].
  destruct (Ascii.eqb_spec c "009") as [->|]; [apply scanstring_escape; reflexivity|].
  destruct (Ascii.eqb_spec c "008") as [->|]; [apply scanstring_escape; reflexivity|].
  destruct (Ascii.eqb_spec c "012") as [->|]; [apply scanstring_escape; reflexivity|].
  destruct ((32 <=? nat_of_ascii c)%nat && (nat_of_ascii c <=? 126)%nat) eqn:P.
  - apply andb_prop in P as [P1 P2]. apply Nat.leb_le in P1.
    apply scanstring_plain.
    + apply Ascii.eqb_neq; exact Q.
    + apply Ascii.eqb_neq; exact B.
    + apply Nat.ltb_ge. exact P1.
  - apply scanstring_u00.
Qed.

Lemma scanstring_body s rest :
  Py.scanstring (escape_body s ++ String dquote rest) = Some (s, rest).
Proof.
  induction s as [|c s IH]; [reflexivity|].
  cbn [escape_body]. rewrite app_assoc_s, scanstring_escape_char, IH. reflexivity.
Qed.

Lemma skip_ws_start s : value_start s -> Py.skip_ws s = s.
Proof. destruct s as [|c s]; [contradiction|]. intros [W _]. simpl. rewrite W. reflexivity. Qed.

Lemma skip_ws_space s : Py.skip_ws (String " " s) = Py.skip_ws s.
Proof. reflexivity. Qed.

Lemma value_array f s :
  Py.value (S f) (String "[" s)
  = match Py.skip_ws s with
    | String c1 s1 =>
        if Ascii.eqb c1 "]" then Some (JArray [], s1)
        else Py.items f [] (String c1 s1)
    | EmptyString => None
    end.
Proof. reflexivity. Qed.

Lemma value_object f s :
  Py.value (S f) (String lbrace s)
  = match Py.skip_ws s with
    | String c1 s1 =>
        if Ascii.eqb c1 rbrace then Some (JObject [], s1)
        else if Ascii.eqb c1 dquote then Py.members f [] s1
        else None
    | EmptyString => None
    end.
Proof. reflexivity. Qed.

Lemma value_string f s :
  Py.value (S f) (String dquote s)
  = match Py.scanstring s with
    | Some (t, r) => Some (JString t, r)
    | None => None
    end.
Proof. reflexivity. Qed.

Lemma value_number f c t :
  is_digit c = true \/ c = "-"%char ->
  Py.value (S f) (String c t)
  = match Py.number (String c t) with
    | Some (n, r) => Some (JInt n, r)
    | None => None
    end.
Proof.
  intros [D | ->]; [|reflexivity].
  unfold is_digit, Py.digit_value in D.
  destruct ((48 <=? nat_of_ascii c)%nat && (nat_of_ascii c <=? 57)%nat) eqn:B;
    [|discriminate].
  apply andb_prop in B as [B1 B2]. apply Nat.leb_le in B1, B2.
  rewrite <- (ascii_nat_embedding c). set (n := nat_of_ascii c) in *. clearbody n.
  do 48 (destruct n as [|n]; [lia|]).
  do 10 (destruct n as [|n]; [reflexivity|]). lia.
Qed.

Lemma int_head n rest :
  exists c t, NilZero.string_of_int (Z.to_int n) ++ rest = String c t /\
              (is_digit c = true \/ c = "-"%char).
Proof.
  destruct n as [|p|p]; cbn [Z.to_int NilZero.string_of_int].
  - eexists _, _. split; [reflexivity | left; reflexivity].
  - pose proof (to_uint_head p) as H. unfold NilZero.string_of_uint.
    destruct (Pos.to_uint p); try contradiction;
      eexists _, _; (split; [reflexivity | left; reflexivity]).
  - eexists _, _. split; [reflexivity | right; reflexivity].
Qed.

Lemma dumps_start v rest : value_start (dumps v ++ rest).
Proof.
  destruct v as [| [|] | n | s | items | members]; try (split; reflexivity).
  destruct (int_head n rest) as (c & t & E & [D | ->]); cbn [dumps]; rewrite E.
  - unfold is_digit, Py.digit_value in D.
    destruct ((48 <=? nat_of_ascii c)%nat && (nat_of_ascii c <=? 57)%nat) eqn:B;
      [|discriminate].
    apply andb_prop in B as [B1 B2]. apply Nat.leb_le in B1, B2.
    rewrite <- (ascii_nat_embedding c). set (k := nat_of_ascii c) in *. clearbody k.
    do 48 (destruct k as [|k]; [lia|]).
    do 10 (destruct k as [|k]; [split; reflexivity|]). lia.
  - split; reflexivity.
Qed.

Lemma delimited_comma s : delimited (String "," s).
Proof. split; reflexivity. Qed.

Lemma delimited_bracket s : delimited (String "]" s).
Proof. split; reflexivity. Qed.

Lemma delimited_brace s : delimited (String rbrace s).
Proof. split; reflexivity. Qed.

Lemma items_dumps x xs : forall acc fuel rest,
  Forall reads_back (x :: xs) ->
  (fold_right (fun y n => S (size y + n)) 0%nat (x :: xs) <= fuel)%nat ->
  Py.items fuel acc (join_items (map dumps (x :: xs)) ++ String "]" rest)
  = Some (JArray (rev acc ++ x :: xs), rest).
Proof.
  revert x. induction xs as [|y ys IH]; intros x acc fuel rest F Fuel.
  - inversion F as [|? ? Rx _]; subst. cbn [fold_right] in Fuel.
    destruct fuel as [|f]; [lia|].
    cbn [map join_items Py.items].
    rewrite Rx by (try apply delimited_bracket; lia).
    cbn [Py.skip_ws]. eval_eqb. cbv iota.
    change (Py.is_ws "]") with false. cbv iota. eval_eqb. cbv iota.
    reflexivity.
  - inversion F as [|? ? Rx F']; subst. cbn [fold_right] in Fuel.
    destruct fuel as [|f]; [lia|].
    change (join_items (map dumps (x :: y :: ys)))
      with (dumps x ++ ", " ++ join_items (map dumps (y :: ys))).
    rewrite !app_assoc_s. cbn [Py.items].
    rewrite Rx by (try apply delimited_comma; cbn [fold_right]; lia).
    cbn [append Py.skip_ws]. change (Py.is_ws ",") with false. cbv iota.
    eval_eqb. cbv iota.
    rewrite skip_ws_space, skip_ws_start.
    + rewrite (IH y (x :: acc) f rest F') by (cbn [fold_right]; lia).
      cbn [rev]. rewrite <- List.app_assoc. reflexivity.
    + change (join_items (map dumps (y :: ys))) with (join_items (dumps y :: map dumps ys)).
      destruct (map dumps ys) as [|z zs]; cbn [join_items];
        rewrite ?app_assoc_s; apply dumps_start.
Qed.

Lemma member_text_eq k v rest :
  member_text (k, v) ++ rest
  = String dquote (escape_body k ++ String dquote (String ":" (String " " (dumps v ++ rest)))).
Proof.
  unfold member_text, encode_basestring_ascii. cbn [fst snd append].
  rewrite !app_assoc_s. reflexivity.
Qed.

Lemma members_dumps kv kvs : forall acc fuel rest,
  Forall (fun p => reads_back (snd p)) (kv :: kvs) ->
  (fold_right (fun p n => S (size (snd p) + n)) 0%nat (kv :: kvs) <= fuel)%nat ->
  forall tail,
    String dquote tail = join_items (map member_text (kv :: kvs)) ++ String rbrace rest ->
    Py.members fuel acc tail
    = Some (JObject (Py.dict_of (rev acc ++ kv :: kvs)), rest).
Proof.
  revert kv. induction kvs as [|[k' v'] kvs IH]; intros [k v] acc fuel rest F Fuel tail E.
  - inversion F as [|? ? Rv _]; subst. cbn [fold_right snd] in *.
    destruct fuel as [|f]; [lia|].
    cbn [map join_items] in E. rewrite member_text_eq in E.
    apply (f_equal (drop 1)) in E. cbn [drop] in E. subst tail.
    cbn [Py.members]. rewrite scanstring_body.
    cbn [Py.skip_ws]. change (Py.is_ws ":") with false. cbv iota. eval_eqb. cbv iota.
    rewrite skip_ws_space, skip_ws_start by apply dumps_start.
    rewrite Rv by (try apply delimited_brace; lia).
    cbn [Py.skip_ws]. change (Py.is_ws rbrace) with false. cbv iota. eval_eqb. cbv iota.
    reflexivity.
  - inversion F as [|? ? Rv F']; subst. cbn [fold_right snd] in *.
    destruct fuel as [|f]; [lia|].
    change (join_items (map member_text ((k, v) :: (k', v') :: kvs)))
      with (member_text (k, v) ++ ", " ++ join_items (map member_text ((k', v') :: kvs)))
      in E.
    rewrite !app_assoc_s, member_text_eq in E.
    apply (f_equal (drop 1)) in E. cbn [drop] in E. subst tail.
    cbn [Py.members]. rewrite scanstring_body.
    cbn [Py.skip_ws]. change (Py.is_ws ":") with false. cbv iota. eval_eqb. cbv iota.
    rewrite skip_ws_space, skip_ws_start by apply dumps_start.
    rewrite Rv by (try apply delimited_comma; lia).
    cbn [append Py.skip_ws]. change (Py.is_ws ",") with false. cbv iota. eval_eqb. cbv iota.
    rewrite skip_ws_space.
    assert (Next : exists tail', join_items (map member_text ((k', v') :: kvs))
                                 ++ String rbrace rest = String dquote tail').
    { cbn [map]. destruct (map member_text kvs) as [|z zs]; cbn [join_items];
        rewrite ?app_assoc_s, member_text_eq; eexists; reflexivity. }
    destruct Next as [tail' Next]. rewrite Next.
    cbn [Py.skip_ws]. change (Py.is_ws dquote) with false. cbv iota. eval_eqb. cbv iota.
    rewrite (IH (k', v') ((k, v) :: acc) f rest F') by (cbn [fold_right snd]; try lia; auto).
    cbn [rev]. rewrite <- List.app_assoc. reflexivity.
Qed.

Lemma dict_set_fresh k v d :
  ~ In k (map fst d) -> Py.dict_set k v d = (d ++ [(k, v)])%list.
Proof.
  induction d as [|[k' v'] d IH]; intros N; [reflexivity|].
  cbn [Py.dict_set]. cbn [map fst In] in N.
  destruct (String.eqb_spec k' k) as [->|Ne]; [exfalso; apply N; left; reflexivity|].
  rewrite IH by tauto. reflexivity.
Qed.

Lemma dict_of_distinct pairs : forall d,
  NoDup (map fst d ++ map fst pairs) ->
  fold_left (fun d kv => Py.dict_set (fst kv) (snd kv) d) pairs d = (d ++ pairs)%list.
Proof.
  induction pairs as [|[k v] pairs IH]; intros d N; cbn [fold_left].
  - rewrite List.app_nil_r. reflexivity.
  - cbn [map fst snd] in *. rewrite dict_set_fresh.
    + rewrite IH.
      * rewrite <- List.app_assoc. reflexivity.
      * rewrite map_app. cbn [map fst]. rewrite <- List.app_assoc. exact N.
    + apply NoDup_remove_2 in N. intros I. apply N. apply in_or_app. left. exact I.
Qed.

Lemma dict_of_id pairs : NoDup (map fst pairs) -> Py.dict_of pairs = pairs.
Proof. intros N. unfold Py.dict_of. rewrite dict_of_distinct; [reflexivity | exact N]. Qed.

Lemma distinct_keys_items items :
  fold_right (fun x P => distinct_keys x /\ P) True items -> Forall distinct_keys items.
Proof. induction items; cbn [fold_right]; intros H; constructor; tauto. Qed.

Lemma distinct_keys_members (members : list (string * json)) :
  fold_right (fun kv P => distinct_keys (snd kv) /\ P) True members ->
  Forall (fun kv => distinct_keys (snd kv)) members.
Proof. induction members; cbn [fold_right]; intros H; constructor; tauto. Qed.

Lemma dumps_array items :
  dumps (JArray items) = String "[" (join_items (map dumps items) ++ "]").
Proof. reflexivity. Qed.

Lemma dumps_object members :
  dumps (JObject members)
  = String lbrace (join_items (map member_text members) ++ String rbrace "").
Proof. reflexivity. Qed.

Lemma value_dumps v : distinct_keys v -> reads_back v.
Proof.
  induction v as [| b | n | s | items IH | members IH] using json_induction;
    intros D fuel rest Fuel R; (destruct fuel as [|f]; [cbn [size] in Fuel; lia|]).
  - cbn [dumps]. change ("null" ++ rest) with (String "n" (String "u" (String "l" (String "l" rest)))).
    destruct rest; reflexivity.
  - destruct b; cbn [dumps]; destruct rest; reflexivity.
  - cbn [dumps]. destruct (int_head n rest) as (c & t & E & H).
    rewrite E, (value_number f c t H), <- E, (number_int n rest R). reflexivity.
  - cbn [dumps]. unfold encode_basestring_ascii. cbn [append].
    rewrite value_string, app_assoc_s. cbn [append]. rewrite scanstring_body. reflexivity.
  - rewrite dumps_array. cbn [append]. rewrite value_array, app_assoc_s. cbn [append].
    destruct items as [|x xs]; [reflexivity|].
    rewrite skip_ws_start.
    2:{ cbn [map]. destruct (map dumps xs) as [|z zs]; cbn [join_items];
          rewrite ?app_assoc_s; apply dumps_start. }
    assert (St : value_start (join_items (map dumps (x :: xs)) ++ String "]" rest)).
    { cbn [map]. destruct (map dumps xs) as [|z zs]; cbn [join_items];
          rewrite ?app_assoc_s; apply dumps_start. }
    destruct (join_items (map dumps (x :: xs)) ++ String "]" rest) as [|c1 s1] eqn:E;
      [contradiction|].
    destruct St as [_ ->]. rewrite <- E.
    rewrite (items_dumps x xs [] f rest).
    + reflexivity.
    + cbn [distinct_keys] in D. apply distinct_keys_items in D.
      apply Forall_forall. intros y Hy.
      rewrite Forall_forall in IH, D. apply IH; auto.
    + cbn [size] in Fuel. lia.
  - rewrite dumps_object. cbn [append]. rewrite value_object, app_assoc_s. cbn [append].
    destruct members as [|kv kvs]; [reflexivity|].
    cbn [distinct_keys] in D. destruct D as [ND D]. apply distinct_keys_members in D.
    assert (Next : exists tail, join_items (map member_text (kv :: kvs))
                                ++ String rbrace rest = String dquote tail).
    { cbn [map]. destruct kv as [k v].
      destruct (map member_text kvs) as [|z zs]; cbn [join_items];
        rewrite ?app_assoc_s, member_text_eq; eexists; reflexivity. }
    destruct Next as [tail Next]. rewrite Next.
    cbn [Py.skip_ws]. change (Py.is_ws dquote) with false. cbv iota. eval_eqb. cbv iota.
    rewrite (members_dumps kv kvs [] f rest).
    + cbn [rev app]. rewrite dict_of_id by exact ND. reflexivity.
    + apply Forall_forall. intros p Hp.
      rewrite Forall_forall in IH, D. apply IH; auto.
    + cbn [size] in Fuel. lia.
    + symmetry. exact Next.
Qed.

Lemma join_items_length x y zs :
  String.length (join_items (x :: y :: zs))
  = (String.length x + 2 + String.length (join_items (y :: zs)))%nat.
Proof.
  change (join_items (x :: y :: zs)) with (x ++ ", " ++ join_items (y :: zs)).
  rewrite !length_append. simpl. lia.
Qed.

Lemma join_bound {A : Type} (w : A -> nat) (t : A -> string) (l : list A) :
  Forall (fun a => (w a <= 2 * String.length (t a))%nat) l ->
  (fold_right (fun a n => S (w a + n)) 0%nat l
   <= 2 * String.length (join_items (map t l)) + 1)%nat.
Proof.
  induction 1 as [|a l Ha Hl IH]; [simpl; lia|].
  destruct l as [|b l'].
  - cbn [fold_right map join_items]. lia.
  - cbn [map] in *. rewrite join_items_length.
    cbn [fold_right] in *. lia.
Qed.

Lemma size_bound v : (size v <= 2 * String.length (dumps v))%nat.
Proof.
  induction v as [| b | n | s | items IH | members IH] using json_induction.
  - simpl. lia.
  - destruct b; simpl; lia.
  - cbn [size]. pose proof (dumps_start (JInt n) "") as S.
    rewrite app_empty_r in S. destruct (dumps (JInt n)); [contradiction | simpl; lia].
  - simpl. lia.
  - rewrite dumps_array. cbn [size String.length]. rewrite length_append.
    pose proof (join_bound size dumps items IH). simpl. lia.
  - rewrite dumps_object. cbn [size String.length]. rewrite length_append.
    assert (F : Forall (fun kv => (size (snd kv) <= 2 * String.length (member_text kv))%nat)
                       members).
    { eapply Forall_impl; [|exact IH]. intros [k v] H. cbn [snd] in *.
      unfold member_text. cbn [fst snd]. rewrite !length_append. lia. }
    pose proof (join_bound (fun kv => size (snd kv)) member_text members F). simpl. lia.
Qed.

(** The reference decoder inverts the serializer on every record whose
    objects have pairwise distinct keys. *)
Lemma py_loads_dumps v : distinct_keys v -> Py.loads (dumps v) = Ok v.
Proof.
  intros D. unfold Py.loads.
  pose proof (dumps_start v "") as S. rewrite app_empty_r in S.
  rewrite (skip_ws_start _ S).
  pose proof (value_dumps v D (2 * String.length (dumps v) + 2)%nat "") as V.
  rewrite app_empty_r in V. rewrite V; [reflexivity | | exact I].
  pose proof (size_bound v). lia.
Qed.

(** ** Round trip through the extractor *)

(** The extractor hands the decoder exactly the JSON text of the record. *)
Lemma extract_delimits_dumps (jl : string -> Result json) (ue : string -> Result string)
    (members : list (string * json)) (pre sep post key : string) (esc : bool) :
  let record := JObject members in
  let doc := pre ++ marker esc key ++ sep ++ dumps record ++ post in
  ~ occurs key pre ->
  has_char lbrace key = false ->
  has_char lbrace sep = false ->
  (esc = true -> ~ occurs (quoted key) doc) ->
  _extract_json_object jl ue doc key = _safe_json_load jl ue (dumps record).
Proof.
  intros record doc Npre Hkey Hsep Hesc.
  assert (Obj : exists body, dumps record = String lbrace body).
  { eexists. reflexivity. }
  destruct Obj as [body Obj].
  assert (Npat : ~ occurs (marker esc key) pre).
  { intros O. apply Npre. eapply occurs_marker. exact O. }
  pose proof (has_char_marker esc key) as Hm. rewrite Hkey in Hm.
  destruct (locate_object (marker esc key) pre sep (body ++ post) Npat Hm Hsep)
    as (i & F & B).
  assert (Doc : doc = pre ++ marker esc key ++ sep ++ String lbrace (body ++ post)).
  { unfold doc. rewrite Obj. reflexivity. }
  rewrite <- Doc in F, B.
  set (start := (String.length pre + String.length (marker esc key)
                 + String.length sep)%nat) in *.
  assert (K : find_key doc key = Some i).
  { unfold find_key. destruct esc.
    - destruct (find doc (quoted key) 0) as [j|] eqn:Fq; [|exact F].
      exfalso. apply (Hesc eq_refl). apply find_some in Fq as (_ & O & _).
      exists j. exact O.
    - unfold marker in F. rewrite F. reflexivity. }
  assert (D : drop start doc = dumps record ++ post).
  { unfold doc, start.
    rewrite <- Nat.add_assoc, drop_app_ge.
    rewrite drop_app_ge. rewrite <- (Nat.add_0_r (String.length sep)).
    rewrite drop_app_ge. reflexivity. }
  unfold _extract_json_object. rewrite K, B, scan_loop_range, D.
  unfold record at 1. rewrite scan_dumps_object. fold record.
  assert (Len : (1 <= String.length (dumps record))%nat).
  { rewrite Obj. simpl. lia. }
  assert (S : slice doc start (start + String.length (dumps record) - 1 + 1)
              = dumps record).
  { unfold slice. rewrite substring_drop, D.
    replace (start + String.length (dumps record) - 1 + 1 - start)%nat
      with (String.length (dumps record)) by lia.
    apply substring_0_app. }
  rewrite S. reflexivity.
Qed.

(** With the reference decoder the round trip holds for every record
    whose objects have distinct keys, as those of a Python [dict] do. *)
Lemma extract_roundtrip_reference
    (members : list (string * json)) (pre sep post key : string) (esc : bool) :
  let record := JObject members in
  let doc := pre ++ marker esc key ++ sep ++ dumps record ++ post in
  distinct_keys record ->
  ~ occurs key pre ->
  has_char lbrace key = false ->
  has_char lbrace sep = false ->
  (esc = true -> ~ occurs (quoted key) doc) ->
  _extract_json_object Py.loads Py.unicode_escape doc key = Ok record.
Proof.
  intros record doc Keys Npre Hkey Hsep Hesc. unfold doc, record.
  rewrite extract_delimits_dumps by assumption.
  unfold _safe_json_load. fold record. rewrite (py_loads_dumps record Keys).
  reflexivity.
Qed.

(** C1 (amended): take a record, its JSON text, and a document made of a
    filler, the key marker in plain or escaped form, a separator, the JSON
    text and a second filler.  If the key does not occur in the first
    filler, neither the key nor the separator holds an opening brace, and,
    when the marker is in escaped form, the plain quoted key occurs nowhere
    in the document (so not inside the JSON text either), then the
    extractor returns exactly the record.  The JSON decoder is a parameter,
    taken to return the record for its JSON text. *)
Theorem extract_roundtrip (jl : string -> Result json) (ue : string -> Result string)
    (members : list (string * json)) (pre sep post key : string) (esc : bool) :
  let record := JObject members in
  let doc := pre ++ marker esc key ++ sep ++ dumps record ++ post in
  jl (dumps record) = Ok record ->
  ~ occurs key pre ->
  has_char lbrace key = false ->
  has_char lbrace sep = false ->
  (esc = true -> ~ occurs (quoted key) doc) ->
  _extract_json_object jl ue doc key = Ok record.
Proof.
  intros record doc Loads Npre Hkey Hsep Hesc. unfold doc, record.
  rewrite extract_delimits_dumps by assumption.
  unfold _safe_json_load. fold record. rewrite Loads. reflexivity.
Qed.

Lemma extract_roundtrip_witness :
  _extract_json_object Py.loads Py.unicode_escape
    ("<script>var page = {id: 7, data: '{"
     ++ marker true "VrmDetails" ++ ":"
     ++ dumps (JObject [("Make", JString "Ford"); ("Year", JInt 2020);
                        ("Note", JString (py "a{b}c 'quoted' \ }"));
                        ("Owners", JArray [JObject [("Keepers", JInt 2)]; JNull])])
     ++ "}'};</script>")
    "VrmDetails"
  = Ok (JObject [("Make", JString "Ford"); ("Year", JInt 2020);
                 ("Note", JString (py "a{b}c 'quoted' \ }"));
                 ("Owners", JArray [JObject [("Keepers", JInt 2)]; JNull])]).
Proof.
  apply (extract_roundtrip Py.loads Py.unicode_escape
           [("Make", JString "Ford"); ("Year", JInt 2020);
            ("Note", JString (py "a{b}c 'quoted' \ }"));
            ("Owners", JArray [JObject [("Keepers", JInt 2)]; JNull])]
           "<script>var page = {id: 7, data: '{" ":" "}'};</script>"
           "VrmDetails" true).
  - vm_compute. reflexivity.
  - apply not_occurs_by_find. vm_compute. reflexivity.
  - reflexivity.
  - reflexivity.
  - intros _. apply not_occurs_by_find. vm_compute. reflexivity.
Defined.

(** The claim C1 as the specification words it fails: with the marker in
    escaped form and a record that has a field named like the key, the
    plain quoted key is found first, inside the JSON text, and the
    extractor returns the inner object.  It also fails, with the plain
    marker, for a key that contains an opening brace and for a filler
    between marker and JSON text that contains one, since the scan starts
    at the first opening brace from the key position on. *)
Lemma roundtrip_fails_as_stated :
  (Py.loads (dumps (JObject [("k", JObject [])])) = Ok (JObject [("k", JObject [])]) /\
   ~ occurs "k" "" /\ ~ occurs "k" ":" /\
   _extract_json_object Py.loads Py.unicode_escape
     ("" ++ marker true "k" ++ ":" ++ dumps (JObject [("k", JObject [])]) ++ "") "k"
   = Ok (JObject []) /\
   Ok (JObject []) <> Ok (JObject [("k", JObject [])])) /\
  _extract_json_object Py.loads Py.unicode_escape
    ("" ++ marker false "{" ++ ":" ++ dumps (JObject [("a", JInt 1)]) ++ "") "{"
  = Raise (closing_brace_not_found "{") /\
  (exists m,
     _extract_json_object Py.loads Py.unicode_escape
       ("" ++ marker false "k" ++ " {x}: " ++ dumps (JObject [("a", JInt 1)]) ++ "") "k"
     = Raise (JSONDecodeError m)).
Proof.
  split; [|split; [|eexists]; vm_compute; reflexivity].
  split; [vm_compute; reflexivity|].
  split; [apply not_occurs_by_find; vm_compute; reflexivity|].
  split; [apply not_occurs_by_find; vm_compute; reflexivity|].
  split; [vm_compute; reflexivity | discriminate].
Qed.

(** * Further properties of the code *)

(** ** What the extractor hands to the decoder *)

Lemma scan_suffix_closed_char s : forall pos st p,
  scan_suffix s pos st = Closed p -> get (p - pos) s = Some rbrace.
Proof.
  induction s as [|ch s IH]; intros pos st p H; simpl in H; [discriminate|].
  destruct (loop_body st ch) as [|st'] eqn:B.
  - inversion H; subst p. rewrite Nat.sub_diag. simpl.
    rewrite loop_body_advance in B.
    destruct (negb (in_string st) && Ascii.eqb ch rbrace && (brace_level st =? 1)) eqn:C;
      [|discriminate].
    apply andb_prop in C as [C _]. apply andb_prop in C as [_ C].
    apply Ascii.eqb_eq in C. subst. reflexivity.
  - pose proof (scan_suffix_closed _ _ _ _ H) as R.
    apply IH in H. replace (p - pos)%nat with (S (p - S pos)) by lia. exact H.
Qed.

Lemma substring_snoc n s c :
  get n s = Some c -> substring 0 (S n) s = substring 0 n s ++ String c "".
Proof.
  revert s; induction n as [|n IH]; intros [|d s] G; simpl in G; try discriminate.
  - inversion G; subst. simpl. destruct s; reflexivity.
  - cbn [substring append]. rewrite <- (IH _ G). reflexivity.
Qed.

Lemma occurs_slice html start stop :
  (start <= stop <= String.length html)%nat -> occurs (slice html start stop) html.
Proof.
  intros H. exists start. apply occurs_at_prefix. split; [lia|].
  unfold slice. rewrite substring_drop.
  rewrite <- (substring_drop_split (stop - start) (drop start html)) at 2.
  apply prefix_app.
Qed.

(** X1: whenever the extractor gets as far as the decoder, the text it
    hands over is a piece of the document that starts with an opening
    brace and ends with a closing brace; otherwise it raises one of its
    own three errors. *)
Theorem extract_candidate_shape (jl : string -> Result json)
    (ue : string -> Result string) (html key : string) :
  _extract_json_object jl ue html key = Raise (key_not_found key) \/
  _extract_json_object jl ue html key = Raise (opening_brace_not_found key) \/
  _extract_json_object jl ue html key = Raise (closing_brace_not_found key) \/
  exists body,
    occurs (String lbrace (body ++ String rbrace "")) html /\
    _extract_json_object jl ue html key
    = _safe_json_load jl ue (String lbrace (body ++ String rbrace "")).
Proof.
  unfold _extract_json_object.
  destruct (find_key html key) as [idx|]; [|left; reflexivity].
  destruct (find html (String lbrace "") idx) as [start|] eqn:F;
    [|right; left; reflexivity].
  pose proof (scan_from_brace _ _ _ F) as S.
  destruct (find_brace_some _ _ _ F) as [rest D].
  rewrite scan_loop_range in *.
  destruct (scan_suffix (drop start html) start scan_start) as [pos| |pos] eqn:Sc;
    [|right; right; left; reflexivity|contradiction].
  right; right; right.
  destruct S as (Hpos & _ & _).
  pose proof (scan_suffix_closed_char _ _ _ _ Sc) as G.
  assert (Lt : (start < pos)%nat).
  { destruct (Nat.eq_dec start pos) as [->|]; [|lia].
    rewrite Nat.sub_diag, D in G. simpl in G. discriminate. }
  assert (E : slice html start (pos + 1)
              = String lbrace (substring 0 (pos - start - 1) rest ++ String rbrace "")).
  { remember (pos - start - 1)%nat as k eqn:Ek.
    assert (Es : (pos - start)%nat = S k) by lia.
    rewrite slice_suffix by lia. rewrite Es in *.
    rewrite (substring_snoc _ _ _ G), D. reflexivity. }
  exists (substring 0 (pos - start - 1) rest). rewrite <- E.
  split; [apply occurs_slice; lia | reflexivity].
Qed.

(** ** Text after the delimited object *)

Lemma prefix_within sub q t :
  (String.length sub <= String.length q)%nat ->
  prefix sub (q ++ t) = true -> prefix sub q = true.
Proof.
  intros L P. destruct (prefix_overlap _ _ _ P) as [In | [u E]]; [exact In|].
  assert (u = "").
  { apply (f_equal String.length) in E. rewrite length_append in E.
    destruct u; [reflexivity | simpl in E; lia]. }
  subst u. rewrite app_empty_r in E. subst sub.
  rewrite <- (app_empty_r q) at 2. apply prefix_app.
Qed.

Lemma occurs_at_app sub p t j :
  occurs_at sub p j -> occurs_at sub (p ++ t) j.
Proof.
  intros (pre & post & -> & L). exists pre, (post ++ t). split; [|exact L].
  rewrite !app_assoc_s. reflexivity.
Qed.

Lemma occurs_at_length sub s j :
  occurs_at sub s j -> (j + String.length sub <= String.length s)%nat.
Proof. intros (pre & post & -> & <-). rewrite !length_append. lia. Qed.

Lemma occurs_at_within sub p t j :
  (j + String.length sub <= String.length p)%nat ->
  occurs_at sub (p ++ t) j -> occurs_at sub p j.
Proof.
  intros L O. apply occurs_at_prefix in O as [_ P].
  rewrite drop_app_le in P by lia.
  apply occurs_at_prefix. split; [lia|].
  apply (prefix_within _ _ t); [rewrite drop_length; lia | exact P].
Qed.

(** An occurrence found in [p] is still the first one when text follows. *)
Lemma find_app sub p t start i :
  find p sub start = Some i -> find (p ++ t) sub start = Some i.
Proof.
  intros F. apply find_some in F as (Le & O & First).
  pose proof (occurs_at_length _ _ _ O) as Len.
  destruct (find_complete (p ++ t) sub start i Le (occurs_at_app _ _ t _ O))
    as (j & Fj & Hj).
  rewrite Fj. f_equal.
  destruct (Nat.eq_dec j i) as [|Ne]; [assumption|].
  exfalso. apply find_some in Fj as (Lj & Oj & _).
  apply (First j); [lia|].
  apply (occurs_at_within _ _ t); [lia | exact Oj].
Qed.

Lemma scan_suffix_app s t : forall pos st p,
  scan_suffix s pos st = Closed p -> scan_suffix (s ++ t) pos st = Closed p.
Proof.
  induction s as [|ch s IH]; intros pos st p H; simpl in H; [discriminate|].
  cbn [append scan_suffix]. destruct (loop_body st ch); [exact H | auto].
Qed.

Lemma substring_app_within n m p t :
  (n + m <= String.length p)%nat -> substring n m (p ++ t) = substring n m p.
Proof.
  revert m p; induction n as [|n IH]; intros m p H.
  - revert p H; induction m as [|m IHm]; intros p H.
    + destruct p; simpl; [destruct t|]; reflexivity.
    + destruct p as [|c p]; simpl in *; [lia|]. rewrite IHm by lia. reflexivity.
  - destruct p as [|c p]; simpl in *.
    + assert (m = 0)%nat by lia. lia.
    + apply IH. lia.
Qed.

(** X2: once the plain quoted key is in the document and the object after
    it has been delimited, whatever is appended to the document leaves the
    result of the extractor unchanged. *)
Theorem extract_ignores_tail (jl : string -> Result json)
    (ue : string -> Result string) (html tail key : string) (idx start pos : nat) :
  find html (quoted key) 0 = Some idx ->
  find html (String lbrace "") idx = Some start ->
  fst (scan_loop html (range start (String.length html)) scan_start) = Closed pos ->
  _extract_json_object jl ue (html ++ tail) key = _extract_json_object jl ue html key.
Proof.
  intros K B S.
  assert (K' : find_key (html ++ tail) key = Some idx).
  { unfold find_key. rewrite (find_app _ _ tail _ _ K). reflexivity. }
  assert (K0 : find_key html key = Some idx).
  { unfold find_key. rewrite K. reflexivity. }
  unfold _extract_json_object. rewrite K', K0, (find_app _ _ tail _ _ B), B, S.
  rewrite scan_loop_range in *.
  pose proof (scan_suffix_closed _ _ _ _ S) as R. rewrite drop_length in R.
  rewrite drop_app_le by lia.
  rewrite (scan_suffix_app _ tail _ _ _ S).
  unfold slice. rewrite substring_app_within by lia. reflexivity.
Qed.

Lemma extract_ignores_tail_witness :
  _extract_json_object Py.loads Py.unicode_escape
    (py "<p>'k': {'a': 1}</p>" ++ py "<p>'k': {'b': {</p>") "k"
  = _extract_json_object Py.loads Py.unicode_escape (py "<p>'k': {'a': 1}</p>") "k".
Proof.
  apply (extract_ignores_tail Py.loads Py.unicode_escape
           (py "<p>'k': {'a': 1}</p>") (py "<p>'k': {'b': {</p>") "k" 3 8 15);
    vm_compute; reflexivity.
Defined.

(** ** Payloads whose quotes are all escaped *)

Lemma advance_outside_string lvl c :
  Ascii.eqb c dquote = false -> Ascii.eqb c backslash = false ->
  advance (mkScan lvl false false) c
  = mkScan (lvl + (if Ascii.eqb c lbrace then 1 else 0)
                - (if Ascii.eqb c rbrace then 1 else 0)) false false.
Proof.
  intros Q B. unfold advance. cbn [escaped in_string brace_level]. rewrite Q, B.
  cbn [andb negb]. destruct (Ascii.eqb c lbrace) eqn:L.
  - rewrite (eqb_lbrace_rbrace _ L). f_equal. lia.
  - destruct (Ascii.eqb c rbrace); f_equal; lia.
Qed.

(** X3: in a text where every double quote is written backslash-quote (and
    there is no other backslash), the scan never enters string mode: every
    brace counts, also those inside string values. *)
Theorem escaped_payload_counts_every_brace (s : string) (st : ScanState) :
  has_char backslash s = false ->
  in_string st = false -> escaped st = false ->
  in_string (run (escape_quotes s) st) = false /\
  escaped (run (escape_quotes s) st) = false /\
  brace_level (run (escape_quotes s) st)
  = brace_level st + count_char lbrace s - count_char rbrace s.
Proof.
  revert st. induction s as [|c s IH]; intros [lvl i e] H I E; simpl in I, E; subst i e.
  - simpl. repeat split; lia.
  - simpl in H. apply orb_false_iff in H as [Hc Hs].
    cbn [escape_quotes count_char]. destruct (Ascii.eqb c dquote) eqn:Q.
    + apply Ascii.eqb_eq in Q. subst c. cbn [run].
      change (advance (advance (mkScan lvl false false) backslash) dquote)
        with (mkScan lvl false false).
      destruct (IH (mkScan lvl false false) Hs eq_refl eq_refl) as (A & B & C).
      rewrite A, B, C. simpl. repeat split; lia.
    + cbn [run]. rewrite (advance_outside_string lvl c Q Hc).
      set (lvl' := lvl + (if Ascii.eqb c lbrace then 1 else 0)
                   - (if Ascii.eqb c rbrace then 1 else 0)).
      destruct (IH (mkScan lvl' false false) Hs eq_refl eq_refl) as (A & B & C).
      rewrite A, B, C. cbn [brace_level]. unfold lvl'. repeat split; lia.
Qed.

Lemma escaped_payload_counts_every_brace_witness :
  brace_level (run (escape_quotes (py "{'a': '}'")) scan_start) = 0 /\
  exists m,
    _extract_json_object Py.loads Py.unicode_escape
      (escape_quotes (py "'K': {'a': '}', 'b': 1}")) "K"
    = Raise (JSONDecodeError m).
Proof.
  split.
  - destruct (escaped_payload_counts_every_brace (py "{'a': '}'") scan_start)
      as (_ & _ & H); [reflexivity .. |].
    rewrite H. reflexivity.
  - eexists. vm_compute. reflexivity.
Defined.

(** ** The candidate of the regular expression *)

Lemma up_to_rbrace_shape s t :
  up_to_rbrace s = Some t ->
  exists body post,
    t = body ++ String rbrace "" /\ has_char rbrace body = false /\ s = t ++ post.
Proof.
  revert t; induction s as [|c s IH]; intros t H; simpl in H; [discriminate|].
  destruct (Ascii.eqb c rbrace) eqn:R.
  - inversion H; subst t. apply Ascii.eqb_eq in R. subst c.
    exists "", s. repeat split.
  - destruct (up_to_rbrace s) as [u|]; [|discriminate]. inversion H; subst t.
    destruct (IH _ eq_refl) as (body & post & -> & Hb & ->).
    exists (String c body), post. repeat split. simpl. rewrite R, Hb. reflexivity.
Qed.

Lemma skip_spaces_suffix s : exists p, s = p ++ skip_spaces s.
Proof.
  induction s as [|c s [p IH]]; [exists ""; reflexivity|].
  simpl. destruct (is_space c).
  - exists (String c p). simpl. rewrite <- IH. reflexivity.
  - exists "". reflexivity.
Qed.

Lemma match_here_shape s g :
  match_here s = Some g ->
  prefix VrmDetails_quoted s = true /\
  exists body pre post,
    g = String lbrace (body ++ String rbrace "") /\
    has_char rbrace body = false /\ s = pre ++ g ++ post.
Proof.
  unfold match_here. destruct (prefix VrmDetails_quoted s) eqn:P; [|discriminate].
  pose proof (substring_drop_split (String.length VrmDetails_quoted) s) as S0.
  destruct (skip_spaces_suffix (drop (String.length VrmDetails_quoted) s)) as [p1 S1].
  destruct (skip_spaces (drop _ s)) as [|c1 s1]; [discriminate|].
  destruct (Ascii.eqb c1 ":"); [|discriminate].
  destruct (skip_spaces_suffix s1) as [p2 S2].
  destruct (skip_spaces s1) as [|c2 s2]; [discriminate|].
  destruct (Ascii.eqb c2 lbrace) eqn:L; [|discriminate].
  destruct (up_to_rbrace s2) as [t|] eqn:U; [|discriminate].
  intros H. inversion H; subst g. split; [reflexivity|].
  apply Ascii.eqb_eq in L. subst c2.
  destruct (up_to_rbrace_shape _ _ U) as (body & post & -> & Hb & E2).
  exists body,
         (substring 0 (String.length VrmDetails_quoted) s ++ p1 ++ String c1 p2),
         post.
  split; [reflexivity|]. split; [exact Hb|].
  rewrite <- S0 at 1. rewrite S1, S2, E2.
  rewrite !app_assoc_s. cbn [append]. rewrite !app_assoc_s. reflexivity.
Qed.

Lemma regex_search_shape s g :
  regex_search s = Some g ->
  occurs VrmDetails_quoted s /\
  exists body pre post,
    g = String lbrace (body ++ String rbrace "") /\
    has_char rbrace body = false /\ s = pre ++ g ++ post.
Proof.
  induction s as [|c s IH]; cbn [regex_search].
  - destruct (match_here "") eqn:M; [|discriminate].
    intros H; inversion H; subst. apply match_here_shape in M as [P M].
    split; [|exact M]. exists 0%nat. apply occurs_at_prefix. split; [simpl; lia | exact P].
  - destruct (match_here (String c s)) eqn:M.
    + intros H; inversion H; subst. apply match_here_shape in M as [P M].
      split; [|exact M]. exists 0%nat. apply occurs_at_prefix.
      split; [simpl; lia | exact P].
    + intros H. destruct (IH H) as [[i O] (body & pre & post & E & Hb & Es)].
      split.
      * exists (S i). apply occurs_at_prefix. apply occurs_at_prefix in O as [Li Pi].
        split; [simpl; lia | exact Pi].
      * exists body, (String c pre), post. repeat split; auto.
        simpl. rewrite <- Es. reflexivity.
Qed.

(** X4: the text the regular expression offers to the decoder is a piece
    of the document that starts with an opening brace and holds a single
    closing brace, its last character: it is cut at the first closing
    brace, so it never spans a nested object. *)
Theorem regex_candidate_is_flat (html g : string) :
  regex_search html = Some g ->
  exists body,
    g = String lbrace (body ++ String rbrace "") /\
    has_char rbrace body = false /\
    occurs g html.
Proof.
  intros H. destruct (regex_search_shape _ _ H) as [_ (body & pre & post & E & Hb & Es)].
  exists body. repeat split; auto.
  exists (String.length pre), pre, post. split; [exact Es | reflexivity].
Qed.

Lemma regex_candidate_is_flat_witness :
  exists body,
    py "{'a': {'b': 1}" = String lbrace (body ++ String rbrace "") /\
    has_char rbrace body = false /\
    occurs (py "{'a': {'b': 1}") (py "x 'VrmDetails' : {'a': {'b': 1}, 'c': 2} y").
Proof.
  apply (regex_candidate_is_flat (py "x 'VrmDetails' : {'a': {'b': 1}, 'c': 2} y")).
  vm_compute. reflexivity.
Defined.

(** X5: the regular expression needs the plain quoted key.  For a document
    that has the key in escaped form only, the parser returns the record
    of the extractor or, when the extractor fails, the 404 error: the
    fallback recovers nothing. *)
Theorem parse_html_without_plain_key (jl : string -> Result json)
    (ue : string -> Result string) (html vrm : string) :
  ~ occurs (quoted "VrmDetails") html ->
  regex_search html = None /\
  _parse_html jl ue html vrm
  = match _extract_json_object jl ue html "VrmDetails" with
    | Ok data => Ok data
    | Raise _ => Raise (no_vehicle_data vrm)
    end.
Proof.
  intros N.
  assert (R : regex_search html = None).
  { destruct (regex_search html) as [g|] eqn:R; [|reflexivity].
    exfalso. apply N. apply (regex_search_shape _ _ R). }
  split; [exact R|]. unfold _parse_html. rewrite R. reflexivity.
Qed.

Lemma parse_html_without_plain_key_witness :
  _parse_html Py.loads Py.unicode_escape
    (escape_quotes (py "'VrmDetails': {'Make': 'Ford'")) "AB12CDE"
  = Raise (HTTPException 404 "No vehicle data found for AB12CDE").
Proof.
  destruct (parse_html_without_plain_key Py.loads Py.unicode_escape
              (escape_quotes (py "'VrmDetails': {'Make': 'Ford'")) "AB12CDE") as [_ H].
  - apply not_occurs_by_find. vm_compute. reflexivity.
  - rewrite H. vm_compute. reflexivity.
Defined.

(** ** Every outcome of the fetcher *)

Lemma transport_down_cons up url base n :
  (exists e, up url base = Raise e /\ is_transport_failure e = true) ->
  transport_down up url (S base) n -> transport_down up url base (S n).
Proof.
  intros H0 H [|i] Hi.
  - rewrite Nat.add_0_r. exact H0.
  - destruct (H i ltac:(lia)) as (e & E1 & E2). exists e. split; [|exact E2].
    rewrite <- E1. f_equal. lia.
Qed.

(** The loop stops at the first attempt that does not end in a transport
    failure, or runs through all attempts. *)
Lemma fetch_attempts_outcome up url attempts : forall last tr,
  exists k,
    (k <= List.length attempts)%nat /\
    transport_down up url (requests tr) k /\
    ((k = List.length attempts /\
      snd (fetch_attempts up url attempts last tr) = (tr ++ failed_attempts url k)%list /\
      exists last',
        fst (fetch_attempts up url attempts last tr)
        = Raise (HTTPException 502 ("Upstream request failed: " ++ str_last last')) /\
        (k = 0%nat -> last' = last)) \/
     ((k < List.length attempts)%nat /\
      snd (fetch_attempts up url attempts last tr)
      = (tr ++ failed_attempts url k ++ [Get url])%list /\
      fst (fetch_attempts up url attempts last tr)
      = (r <- up url (requests tr + k)%nat ;; _ <- raise_for_status r ;; Ok (text r)) /\
      forall e, fst (fetch_attempts up url attempts last tr) = Raise e ->
                is_transport_failure e = false)).
Proof.
  induction attempts as [|a rest IH]; intros last tr.
  - exists 0%nat. split; [simpl; lia|]. split; [intros i Hi; lia|].
    left. split; [reflexivity|]. simpl. rewrite app_nil_r. split; [reflexivity|].
    exists last. split; [reflexivity | auto].
  - cbn [fetch_attempts].
    destruct (r <- up url (requests tr);; _ <- raise_for_status r;; Ok (text r))
      as [t|e] eqn:Try.
    + exists 0%nat. split; [simpl; lia|]. split; [intros i Hi; lia|].
      right. split; [simpl; lia|]. cbn [fst snd failed_attempts app].
      split; [reflexivity|]. rewrite Nat.add_0_r, Try.
      split; [reflexivity | intros e H; discriminate].
    + destruct (is_transport_failure e) eqn:T.
      * assert (Up : up url (requests tr) = Raise e).
        { destruct (up url (requests tr)) as [r|e0]; cbn [bind] in Try.
          - unfold raise_for_status in Try.
            destruct ((200 <=? status_code r) && (status_code r <=? 299));
              cbn [bind] in Try; inversion Try; subst e; discriminate T.
          - congruence. }
        destruct (IH (Some e) ((tr ++ [Get url]) ++ [Sleep 1])%list)
          as (k & Hk & D & Cases).
        rewrite requests_after_attempt in D, Cases.
        exists (S k). split; [simpl; lia|].
        split; [apply transport_down_cons; eauto|].
        destruct Cases as [(E & Tr & last' & R & _) | (Lt & Tr & R & NT)].
        -- left. split; [simpl; lia|]. split.
           ++ rewrite Tr. cbn [failed_attempts]. rewrite <- !app_assoc. reflexivity.
           ++ exists last'. split; [exact R | intros H; discriminate].
        -- right. split; [simpl; lia|]. split.
           ++ rewrite Tr. cbn [failed_attempts]. rewrite <- !app_assoc. reflexivity.
           ++ replace (requests tr + S k)%nat with (S (requests tr) + k)%nat by lia.
              split; [exact R | exact NT].
      * exists 0%nat. split; [simpl; lia|]. split; [intros i Hi; lia|].
        right. split; [simpl; lia|]. cbn [fst snd failed_attempts app].
        split; [reflexivity|]. rewrite Nat.add_0_r, Try.
        split; [reflexivity|]. intros e' H. inversion H; subst. exact T.
Qed.

(** X6: every call of the fetcher ends in one of three ways, after some
    number [k] of attempts that failed in transport: all attempts are used
    up and the 502 error is raised; or attempt [k+1] got a response with a
    status in 200..299, whose text is returned; or attempt [k+1] failed
    otherwise (a status outside 200..299, or an exception of the client
    that is neither a time-out nor a transport error), and that exception
    is raised as it is.  In the last two cases the request is the last
    event. *)
Theorem fetch_outcomes (cfg : Config) (up : Upstream) (vrm : string) (tr : list Event) :
  let url := format_vrm (BASE_URL cfg) vrm 0 in
  let n := Z.to_nat (RETRY_ATTEMPTS cfg) in
  exists k,
    (k <= n)%nat /\ transport_down up url (requests tr) k /\
    ((k = n /\
      exists last,
        _fetch_html cfg up vrm tr
        = (Raise (HTTPException 502 ("Upstream request failed: " ++ str_last last)),
           (tr ++ failed_attempts url n)%list)) \/
     ((k < n)%nat /\
      exists r, up url (requests tr + k)%nat = Ok r /\
                200 <= status_code r <= 299 /\
                _fetch_html cfg up vrm tr
                = (Ok (text r), (tr ++ failed_attempts url k ++ [Get url])%list)) \/
     ((k < n)%nat /\
      exists e, is_transport_failure e = false /\
                (up url (requests tr + k)%nat = Raise e \/
                 exists r, up url (requests tr + k)%nat = Ok r /\
                           ~ (200 <= status_code r <= 299) /\
                           e = HTTPStatusError (status_code r)) /\
                _fetch_html cfg up vrm tr
                = (Raise e, (tr ++ failed_attempts url k ++ [Get url])%list))).
Proof.
  intros url n. unfold _fetch_html. fold url.
  assert (L : List.length (zrange 1 (RETRY_ATTEMPTS cfg + 1)) = n).
  { rewrite zrange_length. unfold n. f_equal. lia. }
  destruct (fetch_attempts_outcome up url (zrange 1 (RETRY_ATTEMPTS cfg + 1)) None tr)
    as (k & Hk & D & Cases).
  rewrite L in *. exists k. split; [exact Hk|]. split; [exact D|].
  destruct (fetch_attempts up url (zrange 1 (RETRY_ATTEMPTS cfg + 1)) None tr)
    as [res tr'] eqn:F. cbn [fst snd] in Cases.
  destruct Cases as [(E & Tr & last' & R & _) | (Lt & Tr & R & NT)].
  - left. split; [exact E|]. exists last'. subst k. rewrite R, Tr. reflexivity.
  - right. subst tr'.
    destruct (up url (requests tr + k)%nat) as [r|e] eqn:U; cbn [bind] in R.
    + unfold raise_for_status in R.
      destruct ((200 <=? status_code r) && (status_code r <=? 299)) eqn:S;
        cbn [bind] in R; subst res.
      * left. split; [exact Lt|]. exists r. split; [reflexivity|].
        apply andb_prop in S as [S1 S2]. apply Z.leb_le in S1, S2.
        split; [lia | reflexivity].
      * right. split; [exact Lt|]. exists (HTTPStatusError (status_code r)).
        split; [reflexivity|]. split; [|reflexivity].
        right. exists r. split; [reflexivity|]. split; [|reflexivity].
        intros [A B]. apply Z.leb_le in A, B. rewrite A, B in S. discriminate.
    + subst res. right. split; [exact Lt|]. exists e.
      split; [apply NT; reflexivity|]. split; [left; reflexivity | reflexivity].
Qed.

(** X7: whatever the upstream does, one call of the fetcher keeps what was
    already on the trace, sends at most [RETRY_ATTEMPTS] requests and
    pauses at most once per request; with an attempt count of zero or less
    it sends nothing and raises the 502 error at once, with no failure to
    report. *)
Theorem fetch_effort_bounded (cfg : Config) (up : Upstream) (vrm : string)
    (tr : list Event) :
  let tr' := snd (_fetch_html cfg up vrm tr) in
  (exists ext,
     tr' = (tr ++ ext)%list /\
     (requests ext <= Z.to_nat (RETRY_ATTEMPTS cfg))%nat /\
     (sleeps ext <= requests ext)%nat) /\
  (RETRY_ATTEMPTS cfg <= 0 ->
   _fetch_html cfg up vrm tr
   = (Raise (HTTPException 502 "Upstream request failed: None"), tr)).
Proof.
  intros tr'. unfold tr', _fetch_html.
  set (url := format_vrm (BASE_URL cfg) vrm 0).
  assert (L : List.length (zrange 1 (RETRY_ATTEMPTS cfg + 1))
              = Z.to_nat (RETRY_ATTEMPTS cfg)).
  { rewrite zrange_length. f_equal. lia. }
  split.
  - destruct (fetch_attempts_outcome up url (zrange 1 (RETRY_ATTEMPTS cfg + 1)) None tr)
      as (k & Hk & _ & Cases). rewrite L in *.
    destruct Cases as [(_ & Tr & _) | (Lt & Tr & _)]; rewrite Tr.
    + exists (failed_attempts url k).
      rewrite requests_failed_attempts, sleeps_failed_attempts.
      split; [reflexivity | lia].
    + exists (failed_attempts url k ++ [Get url])%list.
      split; [reflexivity|]. rewrite requests_app, requests_failed_attempts.
      unfold sleeps. rewrite filter_app, List.length_app.
      fold (sleeps (failed_attempts url k)). rewrite sleeps_failed_attempts.
      unfold requests at 1 2. simpl. lia.
  - intros Le. destruct (zrange 1 (RETRY_ATTEMPTS cfg + 1)) as [|a rest] eqn:Z.
    + reflexivity.
    + simpl in L. lia.
Qed.

Lemma fetch_effort_bounded_witness :
  _fetch_html (mkConfig "http://upstream/{vrm}" 0 60 10) unreachable "AB12CDE" []
  = (Raise (HTTPException 502 "Upstream request failed: None"), []).
Proof.
  destruct (fetch_effort_bounded (mkConfig "http://upstream/{vrm}" 0 60 10)
              unreachable "AB12CDE" []) as [_ H].
  apply H. cbn. lia.
Defined.

(** ** Expiry, capacity and the two timer readings *)

Lemma find_link_key key ls l : find_link key ls = Some l -> link_key l = key.
Proof.
  induction ls as [|x ls IH]; simpl; [discriminate|].
  destruct (String.eqb_spec (link_key x) key) as [E|]; [|exact IH].
  intros H; inversion H; subst l. exact E.
Qed.

Lemma find_link_remove_other key k ls :
  k <> key -> find_link k (remove_link key ls) = find_link k ls.
Proof.
  intros Ne. induction ls as [|x ls IH]; simpl; [reflexivity|].
  destruct (String.eqb_spec (link_key x) key) as [E|N]; simpl.
  - destruct (String.eqb_spec (link_key x) k) as [E'|]; [congruence | exact IH].
  - destruct (String.eqb (link_key x) k); [reflexivity | exact IH].
Qed.

(** Moving an entry to the most recently used end changes no answer. *)
Lemma find_link_touch key ls l k :
  find_link key ls = Some l ->
  find_link k (remove_link key ls ++ [l])%list = find_link k ls.
Proof.
  intros F. pose proof (find_link_key _ _ _ F) as K.
  rewrite find_link_app. destruct (String.eqb_spec k key) as [->|Ne].
  - rewrite find_link_removed. simpl. rewrite K, String.eqb_refl. congruence.
  - rewrite (find_link_remove_other _ _ _ Ne).
    destruct (find_link k ls); [reflexivity|]. simpl.
    destruct (String.eqb_spec (link_key l) k); [congruence | reflexivity].
Qed.

(** X8: a call that is answered from the cache changes no answer of the
    cache: for every identifier the entry found afterwards is the entry
    found before (the call only makes its own entry the most recently
    used one). *)
Theorem hit_keeps_every_entry (jl : string -> Result json) (ue : string -> Result string)
    (cfg : Config) (up : Upstream) (clock : Timer) (vrm : string) (w : World) :
  cache_contains (cache w) (at_contains clock) vrm = true ->
  forall k,
    find_link k (links (cache (snd (get_vehicle_info jl ue cfg up clock vrm w))))
    = find_link k (links (cache w)).
Proof.
  intros C k. unfold get_vehicle_info. rewrite C.
  unfold cache_contains in C. unfold cache_getitem.
  destruct (find_link vrm (links (cache w))) as [l|] eqn:F; [|discriminate].
  destruct (at_getitem clock <? expires l); cbn [snd cache links];
    apply find_link_touch; exact F.
Qed.

(** X9: the [in] test and the cache read take two timer readings.  An
    entry that is still live at the first and expired at the second makes
    the resolver raise [KeyError] for the identifier, without any fetch. *)
Theorem expiry_between_test_and_read (jl : string -> Result json)
    (ue : string -> Result string) (cfg : Config) (up : Upstream) (clock : Timer)
    (vrm : string) (w : World) (l : Link) :
  find_link vrm (links (cache w)) = Some l ->
  at_contains clock < expires l <= at_getitem clock ->
  fst (get_vehicle_info jl ue cfg up clock vrm w) = Raise (KeyError vrm) /\
  trace (snd (get_vehicle_info jl ue cfg up clock vrm w)) = trace w.
Proof.
  intros F [Lt Le]. unfold get_vehicle_info, cache_contains, cache_getitem. rewrite F.
  replace (at_contains clock <? expires l) with true by (symmetry; apply Z.ltb_lt; lia).
  replace (at_getitem clock <? expires l) with false by (symmetry; apply Z.ltb_ge; lia).
  split; reflexivity.
Qed.

(** X10: an entry that has expired when the resolver tests the cache is not
    used: the call goes upstream (with at least one attempt configured),
    and when it ends in a record the entry found afterwards holds that
    record and expires one TTL after the write. *)
Theorem expired_entry_is_refetched (jl : string -> Result json)
    (ue : string -> Result string) (cfg : Config) (up : Upstream) (clock : Timer)
    (vrm : string) (w : World) (l : Link) :
  find_link vrm (links (cache w)) = Some l ->
  expires l <= at_contains clock ->
  1 <= RETRY_ATTEMPTS cfg ->
  (requests (trace w)
   < requests (trace (snd (get_vehicle_info jl ue cfg up clock vrm w))))%nat /\
  forall info w',
    get_vehicle_info jl ue cfg up clock vrm w = (Ok info, w') ->
    find_link vrm (links (cache w'))
    = Some (mkLink vrm info (at_setitem clock + ttl (cache w))).
Proof.
  intros F Le R.
  assert (M : cache_contains (cache w) (at_contains clock) vrm = false).
  { unfold cache_contains. rewrite F. apply Z.ltb_ge. exact Le. }
  split.
  - rewrite get_vehicle_info_miss_trace by exact M. apply fetch_html_requests. exact R.
  - intros info w' H. rewrite (get_vehicle_info_miss _ _ _ _ _ _ _ M) in H.
    destruct (_fetch_html cfg up vrm (trace w)) as [[html|e] tr]; [|discriminate].
    destruct (_parse_html jl ue html vrm) as [info'|e]; [|discriminate].
    destruct (cache_setitem (cache w) (at_setitem clock) vrm info') as [[[]|e] c] eqn:S;
      [|discriminate].
    inversion H; subst info' w'. cbn [cache].
    apply (cache_setitem_ok _ _ _ _ _ S).
Qed.

Lemma cache_ok_empty c : cache_ok c -> maxsize c < 1 -> links c = [].
Proof.
  intros [_ L] M. destruct (links c); [reflexivity | simpl in L; lia].
Qed.

(** X11: with a capacity below one the cache holds nothing and accepts
    nothing: every call is a miss, and a call whose fetch and parse both
    succeed still fails, with the [ValueError] of the cache write, leaving
    the cache empty. *)
Theorem zero_capacity_never_resolves (jl : string -> Result json)
    (ue : string -> Result string) (cfg : Config) (up : Upstream) (clock : Timer)
    (vrm html : string) (info : json) (tr : list Event) (w : World) :
  cache_ok (cache w) ->
  maxsize (cache w) < 1 ->
  _fetch_html cfg up vrm (trace w) = (Ok html, tr) ->
  _parse_html jl ue html vrm = Ok info ->
  get_vehicle_info jl ue cfg up clock vrm w
  = (Raise (ValueError "value too large"), mkWorld (cache w) tr) /\
  links (cache w) = [].
Proof.
  intros Ok Cap F P. pose proof (cache_ok_empty _ Ok Cap) as E.
  split; [|exact E].
  assert (M : cache_contains (cache w) (at_contains clock) vrm = false).
  { unfold cache_contains. rewrite E. reflexivity. }
  rewrite (get_vehicle_info_miss _ _ _ _ _ _ _ M), F, P.
  unfold cache_setitem.
  replace (1 >? maxsize (cache w)) with true by (symmetry; apply Z.gtb_lt; lia).
  rewrite E. cbn [expire filter]. destruct w as [[m t ls] tr0]. cbn in *. subst ls.
  reflexivity.
Qed.

Lemma hit_keeps_every_entry_witness :
  find_link "XY99ZZZ"
    (links (cache (snd (get_vehicle_info Py.loads Py.unicode_escape default_config
                          unreachable (mkTimer 5 5 5) "AB12CDE"
                          (mkWorld (mkCache 5000 86400
                                      [mkLink "AB12CDE" (JObject []) 50;
                                       mkLink "XY99ZZZ" JNull 60]) [])))))
  = Some (mkLink "XY99ZZZ" JNull 60).
Proof.
  rewrite (hit_keeps_every_entry Py.loads Py.unicode_escape default_config unreachable
             (mkTimer 5 5 5) "AB12CDE"
             (mkWorld (mkCache 5000 86400
                         [mkLink "AB12CDE" (JObject []) 50;
                          mkLink "XY99ZZZ" JNull 60]) [])
             eq_refl "XY99ZZZ").
  reflexivity.
Defined.

Lemma expiry_between_test_and_read_witness :
  fst (get_vehicle_info Py.loads Py.unicode_escape default_config unreachable
         (mkTimer 49 50 51) "AB12CDE"
         (mkWorld (mkCache 5000 86400 [mkLink "AB12CDE" (JObject []) 50]) []))
  = Raise (KeyError "AB12CDE").
Proof.
  apply (proj1 (expiry_between_test_and_read Py.loads Py.unicode_escape default_config
                  unreachable (mkTimer 49 50 51) "AB12CDE"
                  (mkWorld (mkCache 5000 86400 [mkLink "AB12CDE" (JObject []) 50]) [])
                  (mkLink "AB12CDE" (JObject []) 50) eq_refl
                  ltac:(cbn; lia))).
Defined.

Lemma expired_entry_is_refetched_witness :
  (requests []
   < requests (trace (snd (get_vehicle_info Py.loads Py.unicode_escape default_config
                             unreachable (mkTimer 50 50 51) "AB12CDE"
                             (mkWorld (mkCache 5000 86400
                                         [mkLink "AB12CDE" (JObject []) 50]) [])))))%nat.
Proof.
  apply (proj1 (expired_entry_is_refetched Py.loads Py.unicode_escape default_config
                  unreachable (mkTimer 50 50 51) "AB12CDE"
                  (mkWorld (mkCache 5000 86400 [mkLink "AB12CDE" (JObject []) 50]) [])
                  (mkLink "AB12CDE" (JObject []) 50) eq_refl
                  ltac:(cbn; lia) ltac:(cbn; lia))).
Defined.

Lemma zero_capacity_never_resolves_witness :
  get_vehicle_info Py.loads Py.unicode_escape (mkConfig "http://upstream/{vrm}" 3 60 0)
    (serving (py "'VrmDetails': {'Make': 'Ford'}")) (mkTimer 1 1 2) "AB12CDE"
    (initial_world (mkConfig "http://upstream/{vrm}" 3 60 0))
  = (Raise (ValueError "value too large"),
     mkWorld (new_cache 0 60) [Get "http://upstream/AB12CDE"]).
Proof.
  apply (zero_capacity_never_resolves Py.loads Py.unicode_escape
           (mkConfig "http://upstream/{vrm}" 3 60 0)
           (serving (py "'VrmDetails': {'Make': 'Ford'}")) (mkTimer 1 1 2) "AB12CDE"
           (py "'VrmDetails': {'Make': 'Ford'}") (JObject [("Make", JString "Ford")])
           [Get "http://upstream/AB12CDE"]
           (initial_world (mkConfig "http://upstream/{vrm}" 3 60 0))).
  - split; [constructor | cbn; lia].
  - cbn. lia.
  - vm_compute. reflexivity.
  - vm_compute. reflexivity.
Defined.

(** ** The cache stays well formed *)

Lemma in_keys_filter f ls k :
  In k (map link_key (filter f ls)) -> In k (map link_key ls).
Proof.
  induction ls as [|x ls IH]; simpl; [auto|].
  destruct (f x); simpl; intuition.
Qed.

Lemma nodup_keys_filter f ls :
  NoDup (map link_key ls) -> NoDup (map link_key (filter f ls)).
Proof.
  induction ls as [|x ls IH]; simpl; intros N; [constructor|].
  inversion N as [|? ? Nin N']; subst. destruct (f x); simpl; [|auto].
  constructor; [|auto]. intros I. apply Nin. eapply in_keys_filter; eauto.
Qed.

Lemma filter_length_le {A} (f : A -> bool) ls :
  (List.length (filter f ls) <= List.length ls)%nat.
Proof. induction ls as [|x ls IH]; simpl; [lia|]. destruct (f x); simpl; lia. Qed.

Lemma not_in_removed key ls : ~ In key (map link_key (remove_link key ls)).
Proof.
  induction ls as [|x ls IH]; simpl; [auto|].
  destruct (String.eqb_spec (link_key x) key); simpl; intuition.
Qed.

Lemma nodup_snoc {A} (xs : list A) a : NoDup xs -> ~ In a xs -> NoDup (xs ++ [a]).
Proof.
  induction xs as [|x xs IH]; simpl; intros N Nin.
  - constructor; [auto | constructor].
  - inversion N as [|? ? Nx N']; subst. constructor.
    + intros I. apply in_app_or in I as [I | [I | []]]; [auto|]. subst. intuition.
    + apply IH; intuition.
Qed.

Lemma nodup_keys_insert key ls l :
  NoDup (map link_key ls) -> link_key l = key ->
  NoDup (map link_key (remove_link key ls ++ [l])).
Proof.
  intros N K. rewrite map_app. simpl. apply nodup_snoc.
  - apply nodup_keys_filter. exact N.
  - rewrite K. apply not_in_removed.
Qed.

Lemma remove_found_length key ls l :
  find_link key ls = Some l ->
  (List.length (remove_link key ls) < List.length ls)%nat.
Proof.
  induction ls as [|x ls IH]; simpl; [discriminate|].
  destruct (String.eqb (link_key x) key); simpl.
  - intros _. pose proof (filter_length_le
                            (fun l0 => negb (String.eqb (link_key l0) key)) ls).
    unfold remove_link. lia.
  - intros H. apply IH in H. lia.
Qed.

Lemma evict_nodup m ls :
  NoDup (map link_key ls) -> NoDup (map link_key (evict m ls)).
Proof.
  induction ls as [|x ls IH]; intros N; [constructor|].
  cbn [evict]. destruct (Z.of_nat (List.length (x :: ls)) + 1 >? m); [|exact N].
  apply IH. inversion N; assumption.
Qed.

Lemma evict_room m ls : 1 <= m -> Z.of_nat (List.length (evict m ls)) + 1 <= m.
Proof.
  intros M. induction ls as [|x ls IH]; [simpl; lia|].
  cbn [evict]. destruct (Z.of_nat (List.length (x :: ls)) + 1 >? m) eqn:G; [exact IH|].
  rewrite Z.gtb_ltb in G. apply Z.ltb_ge in G. exact G.
Qed.

Lemma cache_getitem_ok c now key :
  cache_ok c ->
  cache_ok (snd (cache_getitem c now key)) /\
  maxsize (snd (cache_getitem c now key)) = maxsize c /\
  ttl (snd (cache_getitem c now key)) = ttl c.
Proof.
  intros [N L]. unfold cache_getitem.
  destruct (find_link key (links c)) as [l|] eqn:F; [|repeat split; assumption].
  assert (O : cache_ok (mkCache (maxsize c) (ttl c) (remove_link key (links c) ++ [l]))).
  { split; cbn [links maxsize].
    - apply nodup_keys_insert; [exact N | eapply find_link_key; eauto].
    - rewrite List.length_app. simpl. pose proof (remove_found_length _ _ _ F). lia. }
  destruct (now <? expires l); cbn [snd]; repeat split; apply O.
Qed.

Lemma cache_setitem_keeps_ok c now key value :
  cache_ok c ->
  cache_ok (snd (cache_setitem c now key value)) /\
  maxsize (snd (cache_setitem c now key value)) = maxsize c /\
  ttl (snd (cache_setitem c now key value)) = ttl c.
Proof.
  intros [N L]. unfold cache_setitem.
  pose proof (nodup_keys_filter (fun l => now <? expires l) _ N) as Nlive.
  pose proof (filter_length_le (fun l => now <? expires l) (links c)) as Llive.
  fold (expire now (links c)) in Nlive, Llive.
  destruct (1 >? maxsize c) eqn:Cap; cbn [snd].
  - repeat split; cbn [links maxsize]; [exact Nlive | lia].
  - rewrite Z.gtb_ltb in Cap. apply Z.ltb_ge in Cap.
    repeat split; cbn [links maxsize].
    + apply nodup_keys_insert; [|reflexivity].
      destruct (find_link key (expire now (links c))); [exact Nlive|].
      apply evict_nodup. exact Nlive.
    + rewrite List.length_app. simpl.
      destruct (find_link key (expire now (links c))) as [l|] eqn:F.
      * pose proof (remove_found_length _ _ _ F). lia.
      * pose proof (evict_room (maxsize c) (expire now (links c)) Cap).
        pose proof (filter_length_le
                      (fun l0 => negb (String.eqb (link_key l0) key))
                      (evict (maxsize c) (expire now (links c)))).
        unfold remove_link. lia.
Qed.

(** X12: every call of the resolver, whatever its outcome, leaves the
    cache well formed: each identifier is held once and the number of
    entries does not exceed the capacity the cache was created with. *)
Theorem resolver_keeps_cache_bounded (jl : string -> Result json)
    (ue : string -> Result string) (cfg : Config) (up : Upstream) (clock : Timer)
    (vrm : string) (w : World) :
  cache_ok (cache w) ->
  cache_ok (cache (snd (get_vehicle_info jl ue cfg up clock vrm w))) /\
  maxsize (cache (snd (get_vehicle_info jl ue cfg up clock vrm w))) = maxsize (cache w) /\
  ttl (cache (snd (get_vehicle_info jl ue cfg up clock vrm w))) = ttl (cache w).
Proof.
  intros O. unfold get_vehicle_info.
  destruct (cache_contains (cache w) (at_contains clock) vrm).
  - pose proof (cache_getitem_ok (cache w) (at_getitem clock) vrm O) as G.
    destruct (cache_getitem (cache w) (at_getitem clock) vrm) as [r c]. exact G.
  - destruct (_fetch_html cfg up vrm (trace w)) as [[html|e] tr];
      [|cbn [snd cache]; split; [exact O | split; reflexivity]].
    destruct (_parse_html jl ue html vrm) as [info|e];
      [|cbn [snd cache]; split; [exact O | split; reflexivity]].
    pose proof (cache_setitem_keeps_ok (cache w) (at_setitem clock) vrm info O) as S.
    destruct (cache_setitem (cache w) (at_setitem clock) vrm info) as [[[]|e] c];
      exact S.
Qed.

Lemma resolver_keeps_cache_bounded_witness :
  links (cache (snd (get_vehicle_info Py.loads Py.unicode_escape
                       (mkConfig "http://upstream/{vrm}" 3 60 1)
                       (serving (py "'VrmDetails': {'Make': 'Ford'}"))
                       (mkTimer 1 1 2) "AB12CDE"
                       (mkWorld (mkCache 1 60 [mkLink "XY99ZZZ" JNull 50]) []))))
  = [mkLink "AB12CDE" (JObject [("Make", JString "Ford")]) 62] /\
  cache_ok (cache (snd (get_vehicle_info Py.loads Py.unicode_escape
                          (mkConfig "http://upstream/{vrm}" 3 60 1)
                          (serving (py "'VrmDetails': {'Make': 'Ford'}"))
                          (mkTimer 1 1 2) "AB12CDE"
                          (mkWorld (mkCache 1 60 [mkLink "XY99ZZZ" JNull 50]) [])))).
Proof.
  split; [vm_compute; reflexivity|].
  apply (resolver_keeps_cache_bounded Py.loads Py.unicode_escape
           (mkConfig "http://upstream/{vrm}" 3 60 1)
           (serving (py "'VrmDetails': {'Make': 'Ford'}")) (mkTimer 1 1 2) "AB12CDE"
           (mkWorld (mkCache 1 60 [mkLink "XY99ZZZ" JNull 50]) [])).
  split; cbn; [repeat constructor; auto | lia].
Defined.

(** ** From the upstream page to the cached record *)

(** X13: the stages compose.  On a cache miss, if after [k] transport
    failures the upstream answers with a success status and a page that
    holds the plain quoted key [VrmDetails], a separator without opening
    brace and the JSON text of a record (the key not occurring before),
    then the resolver returns exactly that record, has sent [k+1] requests
    and, the cache having room for one entry, has stored the record with a
    fresh expiry. *)
Theorem resolve_end_to_end (jl : string -> Result json) (ue : string -> Result string)
    (cfg : Config) (up : Upstream) (clock : Timer) (vrm : string) (w : World)
    (members : list (string * json)) (pre sep post : string) (k : nat) (r : Response) :
  let record := JObject members in
  let url := format_vrm (BASE_URL cfg) vrm 0 in
  cache_contains (cache w) (at_contains clock) vrm = false ->
  (k < Z.to_nat (RETRY_ATTEMPTS cfg))%nat ->
  transport_down up url (requests (trace w)) k ->
  up url (requests (trace w) + k)%nat = Ok r ->
  200 <= status_code r <= 299 ->
  text r = pre ++ quoted "VrmDetails" ++ sep ++ dumps record ++ post ->
  ~ occurs "VrmDetails" pre ->
  has_char lbrace sep = false ->
  jl (dumps record) = Ok record ->
  1 <= maxsize (cache w) ->
  fst (get_vehicle_info jl ue cfg up clock vrm w) = Ok record /\
  trace (snd (get_vehicle_info jl ue cfg up clock vrm w))
  = (trace w ++ failed_attempts url k ++ [Get url])%list /\
  find_link vrm (links (cache (snd (get_vehicle_info jl ue cfg up clock vrm w))))
  = Some (mkLink vrm record (at_setitem clock + ttl (cache w))).
Proof.
  intros record url M Hk D U S Page Npre Hsep Loads Cap.
  assert (F : _fetch_html cfg up vrm (trace w)
              = (Ok (text r), (trace w ++ failed_attempts url k ++ [Get url])%list)).
  { unfold _fetch_html. fold url.
    rewrite (fetch_attempts_answer up url _ k None (trace w) r);
      [| rewrite zrange_length;
         replace (RETRY_ATTEMPTS cfg + 1 - 1) with (RETRY_ATTEMPTS cfg) by lia;
         exact Hk | exact D | exact U].
    unfold raise_for_status.
    replace ((200 <=? status_code r) && (status_code r <=? 299)) with true; [reflexivity|].
    symmetry. apply andb_true_intro. split; apply Z.leb_le; lia. }
  assert (P : _parse_html jl ue (text r) vrm = Ok record).
  { unfold _parse_html. rewrite Page.
    pose proof (extract_delimits_dumps jl ue members pre sep post "VrmDetails" false
                  Npre eq_refl Hsep ltac:(intros; discriminate)) as E.
    cbv zeta in E. cbn [marker] in E. unfold record in *. rewrite E.
    unfold _safe_json_load. rewrite Loads. reflexivity. }
  rewrite (get_vehicle_info_miss _ _ _ _ _ _ _ M), F, P.
  destruct (cache_setitem (cache w) (at_setitem clock) vrm record) as [stored c] eqn:St.
  assert (stored = Ok tt).
  { unfold cache_setitem in St.
    replace (1 >? maxsize (cache w)) with false in St
      by (symmetry; rewrite Z.gtb_ltb; apply Z.ltb_ge; lia).
    inversion St; reflexivity. }
  subst stored. cbn [fst snd trace cache].
  repeat split. apply (cache_setitem_ok _ _ _ _ _ St).
Qed.

Lemma resolve_end_to_end_witness :
  fst (get_vehicle_info Py.loads Py.unicode_escape default_config
         (fun _ n => match n with
                     | O => Raise (TimeoutException "timed out")
                     | _ => Ok (mkResponse 200
                                  ("<script>var data = {" ++ quoted "VrmDetails" ++ ": "
                                   ++ dumps (JObject [("Make", JString "Ford");
                                                      ("Year", JInt 2020)])
                                   ++ "};</script>"))
                     end)
         (mkTimer 1 1 2) "AB12CDE" (initial_world default_config))
  = Ok (JObject [("Make", JString "Ford"); ("Year", JInt 2020)]).
Proof.
  apply (resolve_end_to_end Py.loads Py.unicode_escape default_config _
           (mkTimer 1 1 2) "AB12CDE" (initial_world default_config)
           [("Make", JString "Ford"); ("Year", JInt 2020)]
           "<script>var data = {" ": " "};</script>" 1
           (mkResponse 200
              ("<script>var data = {" ++ quoted "VrmDetails" ++ ": "
               ++ dumps (JObject [("Make", JString "Ford"); ("Year", JInt 2020)])
               ++ "};</script>"))).
  - reflexivity.
  - cbn. lia.
  - intros i Hi. assert (i = 0%nat) by lia. subst i.
    eexists. split; reflexivity.
  - reflexivity.
  - cbn. lia.
  - reflexivity.
  - apply not_occurs_by_find. vm_compute. reflexivity.
  - reflexivity.
  - vm_compute. reflexivity.
  - cbn. lia.
Defined.

(** ** The route: normal form and validation of the identifier *)

Lemma upper_char_upper c : upper (upper_char c) = upper_char c.
Proof. destruct c as [[] [] [] [] [] [] [] []]; reflexivity. Qed.

Lemma upper_app a b : upper (a ++ b) = upper a ++ upper b.
Proof.
  induction a as [|c a IH]; [reflexivity|].
  cbn [append upper]. rewrite IH, app_assoc_s. reflexivity.
Qed.

Lemma upper_idempotent s : upper (upper s) = upper s.
Proof.
  induction s as [|c s IH]; [reflexivity|].
  cbn [upper]. rewrite upper_app, upper_char_upper, IH. reflexivity.
Qed.

Lemma upper_char_ascii c :
  (nat_of_ascii c <? 128)%nat = true ->
  exists c', upper_char c = String c' "" /\ is_alnum c' = is_alnum c /\
             (nat_of_ascii c' <? 128)%nat = true.
Proof.
  destruct c as [[] [] [] [] [] [] [] []]; intros H;
    try discriminate H; eexists; repeat split; reflexivity.
Qed.

Lemma is_alnum_ascii c : is_alnum c = true -> (nat_of_ascii c <? 128)%nat = true.
Proof.
  destruct c as [[] [] [] [] [] [] [] []]; intros H; try discriminate H; reflexivity.
Qed.

Lemma alnum_is_ascii s : all_chars is_alnum s = true -> is_ascii s = true.
Proof.
  induction s as [|c s IH]; [reflexivity|]. unfold is_ascii. cbn [all_chars].
  intros H. apply andb_prop in H as [Hc Hs].
  rewrite (is_alnum_ascii _ Hc). exact (IH Hs).
Qed.

Lemma upper_ascii s :
  is_ascii s = true ->
  String.length (upper s) = String.length s /\
  all_chars is_alnum (upper s) = all_chars is_alnum s /\
  is_ascii (upper s) = true.
Proof.
  unfold is_ascii. induction s as [|c s IH]; [repeat split|].
  cbn [all_chars]. intros H. apply andb_prop in H as [Hc Hs].
  destruct (upper_char_ascii c Hc) as (c' & U & A & L).
  destruct (IH Hs) as (IL & IA & II).
  cbn [upper]. rewrite U. cbn [append String.length all_chars].
  rewrite IL, IA, A, L, II. repeat split.
Qed.

Lemma fullmatch_upper_ascii s :
  is_ascii s = true -> VRM_RE_fullmatch (upper s) = VRM_RE_fullmatch s.
Proof.
  intros H. destruct (upper_ascii s H) as (L & A & _).
  unfold VRM_RE_fullmatch. rewrite L, A. reflexivity.
Qed.

Lemma fullmatch_ascii s : VRM_RE_fullmatch s = true -> is_ascii s = true.
Proof.
  unfold VRM_RE_fullmatch. intros H. apply andb_prop in H as [_ H].
  apply alnum_is_ascii. exact H.
Qed.

(** X14: an identifier that matches the validation pattern keeps its
    length under upper-casing, its upper-case form matches the pattern too,
    and upper-casing that form again changes nothing. *)
Theorem upper_accepts_normal_form (vrm : string) :
  VRM_RE_fullmatch vrm = true ->
  VRM_RE_fullmatch (upper vrm) = true /\
  upper (upper vrm) = upper vrm /\
  String.length (upper vrm) = String.length vrm.
Proof.
  intros V. pose proof (fullmatch_ascii _ V) as A.
  split; [rewrite fullmatch_upper_ascii; assumption|].
  split; [apply upper_idempotent | apply (upper_ascii _ A)].
Qed.

Lemma upper_accepts_normal_form_witness :
  VRM_RE_fullmatch (upper "ab12cde") = true /\
  upper (upper "ab12cde") = upper "ab12cde" /\
  String.length (upper "ab12cde") = String.length "ab12cde".
Proof. apply (upper_accepts_normal_form "ab12cde"). reflexivity. Defined.

(** X15: the route does not tell an identifier from its upper-case form:
    the two calls end alike and leave the same cache and the same
    requests behind. *)
Theorem lookup_case_insensitive (jl : string -> Result json)
    (ue : string -> Result string) (cfg : Config) (up : Upstream)
    (str_value : json -> string) (literal_lines : string -> list string + string)
    (clock : Timer) (vrm : string) (debug : bool) (w : World) :
  lookup jl ue cfg up str_value literal_lines clock (upper vrm) debug w
  = lookup jl ue cfg up str_value literal_lines clock vrm debug w.
Proof. unfold lookup. rewrite upper_idempotent. reflexivity. Qed.

(** X16: an ASCII path parameter that does not match the validation
    pattern (empty, longer than seven characters, or with a character that
    is no letter or digit) is refused with status 400 before anything else
    happens: no request is sent and the cache is left as it was. *)
Theorem lookup_rejects_invalid (jl : string -> Result json)
    (ue : string -> Result string) (cfg : Config) (up : Upstream)
    (str_value : json -> string) (literal_lines : string -> list string + string)
    (clock : Timer) (vrm : string) (debug : bool) (w : World) :
  is_ascii vrm = true ->
  VRM_RE_fullmatch vrm = false ->
  lookup jl ue cfg up str_value literal_lines clock vrm debug w
  = (inr (Passed (HTTPException 400 "Invalid registration format")), w).
Proof.
  intros A V. unfold lookup. rewrite (fullmatch_upper_ascii _ A), V. reflexivity.
Qed.

Lemma lookup_rejects_invalid_witness :
  lookup Py.loads Py.unicode_escape default_config unreachable
    (fun _ => "") (fun _ => inr "") (mkTimer 1 1 2) "ab12 cde" true
    (initial_world default_config)
  = (inr (Passed (HTTPException 400 "Invalid registration format")),
     initial_world default_config).
Proof.
  apply (lookup_rejects_invalid Py.loads Py.unicode_escape default_config unreachable
           (fun _ => "") (fun _ => inr "") (mkTimer 1 1 2) "ab12 cde" true
           (initial_world default_config)); reflexivity.
Defined.

(** ** The route: what passes through it and what its debug branch does *)

Lemma fetch_html_answer cfg up vrm tr k r :
  (k < Z.to_nat (RETRY_ATTEMPTS cfg))%nat ->
  transport_down up (format_vrm (BASE_URL cfg) vrm 0) (requests tr) k ->
  up (format_vrm (BASE_URL cfg) vrm 0) (requests tr + k)%nat = Ok r ->
  _fetch_html cfg up vrm tr
  = (_ <- raise_for_status r ;; Ok (text r),
     (tr ++ failed_attempts (format_vrm (BASE_URL cfg) vrm 0) k
         ++ [Get (format_vrm (BASE_URL cfg) vrm 0)])%list).
Proof.
  intros Hk D U. unfold _fetch_html.
  apply fetch_attempts_answer; [|exact D | exact U].
  rewrite zrange_length.
  replace (RETRY_ATTEMPTS cfg + 1 - 1) with (RETRY_ATTEMPTS cfg) by lia. exact Hk.
Qed.

Lemma fetch_html_down cfg up vrm tr :
  transport_down up (format_vrm (BASE_URL cfg) vrm 0) (requests tr)
    (Z.to_nat (RETRY_ATTEMPTS cfg)) ->
  exists detail,
    _fetch_html cfg up vrm tr
    = (Raise (HTTPException 502 detail),
       (tr ++ failed_attempts (format_vrm (BASE_URL cfg) vrm 0)
                (Z.to_nat (RETRY_ATTEMPTS cfg)))%list).
Proof.
  intros D. unfold _fetch_html.
  assert (L : List.length (zrange 1 (RETRY_ATTEMPTS cfg + 1))
              = Z.to_nat (RETRY_ATTEMPTS cfg)).
  { rewrite zrange_length. f_equal. lia. }
  rewrite <- L in D.
  destruct (fetch_attempts_down up _ _ None tr D) as (last & F & _).
  rewrite L in F. eexists. exact F.
Qed.

Lemma raise_for_status_failure r :
  ~ (200 <= status_code r <= 299) ->
  raise_for_status r = Raise (HTTPStatusError (status_code r)).
Proof.
  intros S. unfold raise_for_status.
  replace ((200 <=? status_code r) && (status_code r <=? 299)) with false; [reflexivity|].
  symmetry. apply andb_false_iff.
  destruct (Z.leb_spec 200 (status_code r)); [|left; reflexivity].
  destruct (Z.leb_spec (status_code r) 299); [|right; reflexivity].
  exfalso. apply S. lia.
Qed.

Lemma raise_for_status_success r :
  200 <= status_code r <= 299 -> raise_for_status r = Ok r.
Proof.
  intros S. unfold raise_for_status.
  replace ((200 <=? status_code r) && (status_code r <=? 299)) with true; [reflexivity|].
  symmetry. apply andb_true_intro. split; apply Z.leb_le; lia.
Qed.

Lemma failed_attempts_app url a b :
  (failed_attempts url a ++ failed_attempts url b)%list = failed_attempts url (a + b).
Proof. induction a as [|a IH]; [reflexivity|]. simpl. rewrite IH. reflexivity. Qed.

Lemma transport_down_split up url base a b :
  transport_down up url base (a + b) ->
  transport_down up url base a /\ transport_down up url (base + a) b.
Proof.
  intros D. split; intros i Hi.
  - apply D. lia.
  - destruct (D (a + i)%nat ltac:(lia)) as (e & E & T).
    exists e. split; [|exact T]. rewrite <- E. f_equal. lia.
Qed.

(** X17: a response with a status outside 200..299 does not leave the
    route as an [HTTPException]: on a cache miss the [HTTPStatusError] of
    the fetcher passes through the resolver and through the route
    unchanged, with or without [debug]; the debug branch is not entered, no
    further request is sent, and nothing is cached. *)
Theorem lookup_status_error_escapes (jl : string -> Result json)
    (ue : string -> Result string) (cfg : Config) (up : Upstream)
    (str_value : json -> string) (literal_lines : string -> list string + string)
    (clock : Timer) (vrm : string) (debug : bool) (w : World) (k : nat) (r : Response) :
  let url := format_vrm (BASE_URL cfg) (upper vrm) 0 in
  VRM_RE_fullmatch (upper vrm) = true ->
  cache_contains (cache w) (at_contains clock) (upper vrm) = false ->
  (k < Z.to_nat (RETRY_ATTEMPTS cfg))%nat ->
  transport_down up url (requests (trace w)) k ->
  up url (requests (trace w) + k)%nat = Ok r ->
  ~ (200 <= status_code r <= 299) ->
  lookup jl ue cfg up str_value literal_lines clock vrm debug w
  = (inr (Passed (HTTPStatusError (status_code r))),
     mkWorld (cache w) (trace w ++ failed_attempts url k ++ [Get url])%list).
Proof.
  intros url V M Hk D U S. unfold lookup. rewrite V. cbn [negb].
  rewrite (get_vehicle_info_miss _ _ _ _ _ _ _ M).
  rewrite (fetch_html_answer cfg up (upper vrm) (trace w) k r Hk D U).
  rewrite (raise_for_status_failure r S). reflexivity.
Qed.

Lemma lookup_status_error_escapes_witness :
  lookup Py.loads Py.unicode_escape default_config
    (fun _ _ => Ok (mkResponse 503 "busy"))
    (fun _ => "") (fun _ => inr "") (mkTimer 1 1 2) "ab12cde" true
    (initial_world default_config)
  = (inr (Passed (HTTPStatusError 503)),
     mkWorld (new_cache 5000 86400)
       [Get (format_vrm (BASE_URL default_config) "AB12CDE" 0)]).
Proof.
  apply (lookup_status_error_escapes Py.loads Py.unicode_escape default_config
           (fun _ _ => Ok (mkResponse 503 "busy"))
           (fun _ => "") (fun _ => inr "") (mkTimer 1 1 2) "ab12cde" true
           (initial_world default_config) 0 (mkResponse 503 "busy")).
  - reflexivity.
  - reflexivity.
  - cbn. lia.
  - intros i Hi. lia.
  - reflexivity.
  - cbn. lia.
Defined.

(** X18: while the upstream cannot be reached, a lookup with [debug] costs
    twice the configured attempts: the resolver exhausts them once, the
    debug branch calls the fetcher again and exhausts them a second time,
    and the 502 of that second round is what the caller gets.  Without
    [debug] the first 502 is raised after one round. *)
Theorem lookup_debug_refetches (jl : string -> Result json)
    (ue : string -> Result string) (cfg : Config) (up : Upstream)
    (str_value : json -> string) (literal_lines : string -> list string + string)
    (clock : Timer) (vrm : string) (w : World) :
  let url := format_vrm (BASE_URL cfg) (upper vrm) 0 in
  let n := Z.to_nat (RETRY_ATTEMPTS cfg) in
  VRM_RE_fullmatch (upper vrm) = true ->
  cache_contains (cache w) (at_contains clock) (upper vrm) = false ->
  transport_down up url (requests (trace w)) (n + n) ->
  (exists detail,
     lookup jl ue cfg up str_value literal_lines clock vrm false w
     = (inr (Passed (HTTPException 502 detail)),
        mkWorld (cache w) (trace w ++ failed_attempts url n)%list)) /\
  (exists detail,
     lookup jl ue cfg up str_value literal_lines clock vrm true w
     = (inr (Passed (HTTPException 502 detail)),
        mkWorld (cache w) (trace w ++ failed_attempts url (n + n))%list)).
Proof.
  intros url n V M D. apply transport_down_split in D as [D1 D2].
  destruct (fetch_html_down cfg up (upper vrm) (trace w) D1) as [d1 F1].
  fold url n in F1.
  assert (D2' : transport_down up url
                  (requests (trace w ++ failed_attempts url n)%list) n).
  { rewrite requests_app, requests_failed_attempts. exact D2. }
  destruct (fetch_html_down cfg up (upper vrm) _ D2') as [d2 F2].
  fold url n in F2.
  split.
  - exists d1. unfold lookup. rewrite V. cbn [negb].
    rewrite (get_vehicle_info_miss _ _ _ _ _ _ _ M), F1. reflexivity.
  - exists d2. unfold lookup. rewrite V. cbn [negb].
    rewrite (get_vehicle_info_miss _ _ _ _ _ _ _ M), F1. cbn [trace cache].
    rewrite F2. rewrite <- List.app_assoc, failed_attempts_app. reflexivity.
Qed.

Lemma lookup_debug_refetches_witness :
  exists detail,
    lookup Py.loads Py.unicode_escape default_config unreachable
      (fun _ => "") (fun _ => inr "") (mkTimer 1 1 2) "ab12cde" true
      (initial_world default_config)
    = (inr (Passed (HTTPException 502 detail)),
       mkWorld (new_cache 5000 86400)
         (failed_attempts (format_vrm (BASE_URL default_config) "AB12CDE" 0) 6)).
Proof.
  apply (lookup_debug_refetches Py.loads Py.unicode_escape default_config unreachable
           (fun _ => "") (fun _ => inr "") (mkTimer 1 1 2) "ab12cde"
           (initial_world default_config)).
  - reflexivity.
  - reflexivity.
  - intros i Hi. eexists. split; reflexivity.
Defined.

(** ** The debug branch delimits like the extractor *)

Lemma debug_loop_step ch s i st end_ :
  debug_loop (String ch s) i (brace_level st) (in_string st) (escaped st) end_
  = if negb (in_string (advance st ch)) && (brace_level (advance st ch) =? 0) then i
    else debug_loop s (i + 1) (brace_level (advance st ch)) (in_string (advance st ch))
           (escaped (advance st ch)) end_.
Proof. reflexivity. Qed.

(** From the opening brace on, the loop of the debug branch stops where
    the loop of the extractor returns. *)
Lemma debug_loop_scan s : forall pos st i end_,
  entered st s ->
  debug_loop s i (brace_level st) (in_string st) (escaped st) end_
  = match scan_suffix s pos st with
    | Closed p => i + Z.of_nat (p - pos)
    | _ => end_
    end.
Proof.
  induction s as [|ch s IH]; intros pos st i end_ E; [reflexivity|].
  rewrite debug_loop_step. cbn [scan_suffix].
  destruct (loop_body st ch) as [|st'] eqn:L.
  - pose proof (entered_return _ _ _ E L) as Z0.
    rewrite loop_body_advance in L.
    destruct (negb (in_string st) && Ascii.eqb ch rbrace && (brace_level st =? 1)) eqn:C;
      [|discriminate].
    apply andb_prop in C as [C _]. apply andb_prop in C as [Cs Cr].
    apply negb_true_iff in Cs.
    assert (S' : in_string (advance st ch) = false).
    { unfold advance. cbn [in_string]. rewrite (eqb_rbrace_dquote _ Cr). exact Cs. }
    rewrite S', Z0. cbn. rewrite Nat.sub_diag. cbn. lia.
  - destruct (entered_continue _ _ _ _ E L) as [A P]. subst st'.
    replace (brace_level (advance st ch) =? 0) with false
      by (symmetry; apply Z.eqb_neq; lia).
    rewrite andb_false_r.
    rewrite (IH (S pos) (advance st ch) (i + 1) end_ (or_introl P)).
    destruct (scan_suffix s (S pos) (advance st ch)) as [p| |p] eqn:R; try reflexivity.
    apply scan_suffix_closed in R. lia.
Qed.

Lemma str_find_nat html sub i :
  str_find html sub (Z.of_nat i)
  = match find html sub i with Some j => Z.of_nat j | None => -1 end.
Proof.
  unfold str_find.
  replace (Z.of_nat i <? 0) with false by (symmetry; apply Z.ltb_ge; lia).
  rewrite Nat2Z.id. reflexivity.
Qed.

Lemma str_find_0 html sub :
  str_find html sub 0
  = match find html sub 0 with Some j => Z.of_nat j | None => -1 end.
Proof. exact (str_find_nat html sub 0). Qed.

Lemma debug_key html idx :
  find_key html "VrmDetails" = Some idx ->
  (let i := str_find html (quoted "VrmDetails") 0 in
   if i =? -1 then str_find html (escaped_quoted "VrmDetails") 0 else i)
  = Z.of_nat idx.
Proof.
  unfold find_key. intros F. cbv zeta.
  rewrite (str_find_0 html (quoted "VrmDetails")).
  destruct (find html (quoted "VrmDetails") 0) as [j|].
  - inversion F; subst j.
    replace (Z.of_nat idx =? -1) with false by (symmetry; apply Z.eqb_neq; lia).
    reflexivity.
  - cbn [Z.eqb]. rewrite (str_find_0 html (escaped_quoted "VrmDetails")), F.
    reflexivity.
Qed.

Lemma debug_raw_found html idx start :
  find_key html "VrmDetails" = Some idx ->
  find html (String lbrace "") idx = Some start ->
  debug_raw html
  = match fst (scan_loop html (range start (String.length html)) scan_start) with
    | Closed pos => slice html start (pos + 1)
    | _ => String lbrace ""
    end.
Proof.
  intros K B. unfold debug_raw.
  pose proof (debug_key html idx K) as KI. cbv zeta in KI. rewrite KI.
  rewrite str_find_nat, B. unfold str_from.
  replace (Z.of_nat start <? 0) with false by (symmetry; apply Z.ltb_ge; lia).
  rewrite Nat2Z.id.
  replace (Z.of_nat start =? -1) with false by (symmetry; apply Z.eqb_neq; lia).
  cbn [negb andb].
  destruct (find_brace_some _ _ _ B) as [rest R].
  assert (E : entered scan_start (drop start html)).
  { right. split; [reflexivity|]. exists rest. exact R. }
  pose proof (debug_loop_scan (drop start html) start scan_start
                (Z.of_nat start) (Z.of_nat start) E) as DL.
  cbn [scan_start brace_level in_string escaped] in DL. rewrite DL.
  unfold range.
  replace (String.length html - start)%nat with (String.length (drop start html))
    by apply drop_length.
  rewrite (scan_loop_suffix html (drop start html) start scan_start eq_refl).
  destruct (scan_suffix (drop start html) start scan_start) as [p| |p] eqn:S.
  - apply scan_suffix_closed in S.
    replace (Z.of_nat start + Z.of_nat (p - start) =? -1) with false
      by (symmetry; apply Z.eqb_neq; lia).
    cbn [negb]. f_equal. lia.
  - replace (Z.of_nat start =? -1) with false by (symmetry; apply Z.eqb_neq; lia).
    cbn [negb]. unfold slice.
    replace (Z.to_nat (Z.of_nat start + 1) - start)%nat with 1%nat by lia.
    rewrite substring_drop, R. cbn. destruct rest; reflexivity.
  - exfalso. exact (scan_suffix_in_range _ _ _ _ S).
Qed.

Lemma debug_raw_no_brace html idx :
  find_key html "VrmDetails" = Some idx ->
  find html (String lbrace "") idx = None ->
  debug_raw html = "".
Proof.
  intros K B. unfold debug_raw.
  pose proof (debug_key html idx K) as KI. cbv zeta in KI. rewrite KI.
  rewrite str_find_nat, B. reflexivity.
Qed.

(** X19: on a page that holds the key, the raw text of the debug branch
    is the very substring the extractor hands to the decoder whenever the
    extractor delimits one, although its loop tests the depth after every
    character outside a string; it is the single opening brace when the
    object is never closed, and the empty text when no opening brace
    follows the key. *)
Theorem debug_raw_is_extractor_candidate (jl : string -> Result json)
    (ue : string -> Result string) (html : string) (idx : nat) :
  find_key html "VrmDetails" = Some idx ->
  match find html (String lbrace "") idx with
  | None =>
      debug_raw html = "" /\
      _extract_json_object jl ue html "VrmDetails"
      = Raise (opening_brace_not_found "VrmDetails")
  | Some start =>
      match fst (scan_loop html (range start (String.length html)) scan_start) with
      | Closed pos =>
          debug_raw html = slice html start (pos + 1) /\
          _extract_json_object jl ue html "VrmDetails"
          = _safe_json_load jl ue (debug_raw html)
      | _ =>
          debug_raw html = String lbrace "" /\
          _extract_json_object jl ue html "VrmDetails"
          = Raise (closing_brace_not_found "VrmDetails")
      end
  end.
Proof.
  intros K. unfold _extract_json_object. rewrite K.
  destruct (find html (String lbrace "") idx) as [start|] eqn:B.
  - rewrite (debug_raw_found html idx start K B).
    pose proof (scan_from_brace html idx start B) as SB.
    destruct (fst (scan_loop html (range start (String.length html)) scan_start))
      as [pos| |pos]; [split; reflexivity | split; reflexivity | contradiction].
  - split; [exact (debug_raw_no_brace html idx K B) | reflexivity].
Qed.

Lemma debug_raw_is_extractor_candidate_witness :
  debug_raw (py "<script>{'VrmDetails': {'Note': 'a}b', 'Owner': {'n': 1}}, 'x': 2}")
  = py "{'Note': 'a}b', 'Owner': {'n': 1}}".
Proof.
  pose proof (debug_raw_is_extractor_candidate Py.loads Py.unicode_escape
                (py "<script>{'VrmDetails': {'Note': 'a}b', 'Owner': {'n': 1}}, 'x': 2}")
                9 ltac:(vm_compute; reflexivity)) as H.
  vm_compute in H. destruct H as [H _]. vm_compute. exact H.
Defined.

Lemma drop_last html m :
  String.length html = S m ->
  exists c, drop m html = String c "" /\ get m html = Some c.
Proof.
  revert m. induction html as [|a html IH]; intros m L; [discriminate|].
  destruct html as [|b html].
  - simpl in L. assert (m = 0%nat) by lia. subst m. exists a. split; reflexivity.
  - destruct m as [|m]; [simpl in L; lia|].
    destruct (IH m ltac:(simpl in *; lia)) as (c & D & G).
    exists c. split; [exact D | exact G].
Qed.

Lemma str_find_last html m c :
  String.length html = S m -> drop m html = String c "" ->
  str_find html (String lbrace "") (-1)
  = if Ascii.eqb c lbrace then Z.of_nat m else -1.
Proof.
  intros L D. unfold str_find.
  replace (-1 <? 0) with true by reflexivity.
  replace (Z.to_nat (Z.max 0 (Z.of_nat (String.length html) + -1))) with m by lia.
  unfold find. replace (m <=? String.length html)%nat with true
    by (symmetry; apply Nat.leb_le; lia).
  rewrite D, find_at_eq, prefix_single, (Ascii.eqb_sym lbrace c).
  destruct (Ascii.eqb c lbrace); [reflexivity|].
  rewrite find_at_eq. reflexivity.
Qed.

(** X20: when the page holds the key in neither form the debug branch
    still searches for a brace, from the last character on, since [-1] is
    passed to [find] as the start: its raw text is the single opening brace
    when the page ends in one, and empty otherwise. *)
Theorem debug_raw_without_key (html : string) :
  find_key html "VrmDetails" = None ->
  debug_raw html
  = match get (String.length html - 1) html with
    | Some c => if Ascii.eqb c lbrace then String lbrace "" else ""
    | None => ""
    end.
Proof.
  unfold find_key. intros K.
  destruct (find html (quoted "VrmDetails") 0) as [j|] eqn:K1; [discriminate|].
  assert (I : (let i := str_find html (quoted "VrmDetails") 0 in
               if i =? -1 then str_find html (escaped_quoted "VrmDetails") 0 else i)
              = -1).
  { cbv zeta. rewrite str_find_0, K1. change (-1 =? -1) with true. cbv iota.
    rewrite str_find_0, K. reflexivity. }
  unfold debug_raw. cbv zeta in I. rewrite I. clear I K K1.
  destruct html as [|a html'] eqn:H; [reflexivity|]. rewrite <- H.
  assert (L : String.length html = S (String.length html')) by (subst html; reflexivity).
  clear H. destruct (drop_last html _ L) as (c & D & G).
  replace (String.length html - 1)%nat with (String.length html') by lia.
  rewrite G, (str_find_last html _ c L D).
  destruct (Ascii.eqb c lbrace) eqn:C; [|reflexivity].
  apply Ascii.eqb_eq in C. subst c.
  unfold str_from.
  replace (Z.of_nat (String.length html') <? 0) with false
    by (symmetry; apply Z.ltb_ge; lia).
  rewrite Nat2Z.id, D.
  replace (Z.of_nat (String.length html') =? -1) with false
    by (symmetry; apply Z.eqb_neq; lia).
  cbn [debug_loop]. cbn.
  replace (Z.of_nat (String.length html') =? -1) with false
    by (symmetry; apply Z.eqb_neq; lia).
  cbn [negb]. unfold slice.
  replace (Z.to_nat (Z.of_nat (String.length html') + 1) - String.length html')%nat
    with 1%nat by lia.
  rewrite substring_drop, D. reflexivity.
Qed.

Lemma debug_raw_without_key_witness :
  debug_raw "<html>no data here {" = String lbrace "" /\
  debug_raw "<html>{no data here}</html>" = "".
Proof.
  split.
  - rewrite (debug_raw_without_key "<html>no data here {"); vm_compute; reflexivity.
  - rewrite (debug_raw_without_key "<html>{no data here}</html>");
      vm_compute; reflexivity.
Defined.

Lemma fetch_html_first cfg up vrm tr r :
  1 <= RETRY_ATTEMPTS cfg ->
  up (format_vrm (BASE_URL cfg) vrm 0) (requests tr) = Ok r ->
  200 <= status_code r <= 299 ->
  _fetch_html cfg up vrm tr
  = (Ok (text r), (tr ++ [Get (format_vrm (BASE_URL cfg) vrm 0)])%list).
Proof.
  intros R U S.
  rewrite (fetch_html_answer cfg up vrm tr 0 r);
    [| lia | intros i Hi; lia | rewrite Nat.add_0_r; exact U].
  rewrite (raise_for_status_success r S). reflexivity.
Qed.

(** X21: in debug mode a page that the parser gives up on does not end the
    call in an error.  The route fetches the page a second time and
    answers with status 200 and plain text: the lines of the literal read
    from the raw text of that second page, or a report that quotes the
    detail of the first failure and at most 500 characters of the raw
    text.  Two requests are sent and nothing is cached; without [debug]
    the failure is raised after the first. *)
Theorem lookup_debug_reports_second_page (jl : string -> Result json)
    (ue : string -> Result string) (cfg : Config) (up : Upstream)
    (str_value : json -> string) (literal_lines : string -> list string + string)
    (clock : Timer) (vrm : string) (w : World) (r1 r2 : Response)
    (status : Z) (detail : string) :
  let url := format_vrm (BASE_URL cfg) (upper vrm) 0 in
  VRM_RE_fullmatch (upper vrm) = true ->
  cache_contains (cache w) (at_contains clock) (upper vrm) = false ->
  1 <= RETRY_ATTEMPTS cfg ->
  up url (requests (trace w)) = Ok r1 ->
  up url (S (requests (trace w))) = Ok r2 ->
  200 <= status_code r1 <= 299 ->
  200 <= status_code r2 <= 299 ->
  _parse_html jl ue (text r1) (upper vrm) = Raise (HTTPException status detail) ->
  lookup jl ue cfg up str_value literal_lines clock vrm true w
  = (inl match literal_lines (debug_raw (text r2)) with
         | inl py_lines => plain_lines py_lines
         | inr ex => extraction_failed detail (debug_raw (text r2)) ex
         end,
     mkWorld (cache w) (trace w ++ [Get url; Get url])%list) /\
  lookup jl ue cfg up str_value literal_lines clock vrm false w
  = (inr (Passed (HTTPException status detail)),
     mkWorld (cache w) (trace w ++ [Get url])%list).
Proof.
  intros url V M R U1 U2 S1 S2 P.
  pose proof (fetch_html_first cfg up (upper vrm) (trace w) r1 R U1 S1) as F1.
  fold url in F1.
  assert (F2 : _fetch_html cfg up (upper vrm) (trace w ++ [Get url])%list
               = (Ok (text r2), (trace w ++ [Get url; Get url])%list)).
  { rewrite (fetch_html_first cfg up (upper vrm) _ r2 R); fold url.
    - rewrite <- List.app_assoc. reflexivity.
    - rewrite requests_app. cbn. rewrite Nat.add_1_r. exact U2.
    - exact S2. }
  split; unfold lookup; rewrite V; cbn [negb];
    rewrite (get_vehicle_info_miss _ _ _ _ _ _ _ M), F1, P.
  - cbn [trace cache]. rewrite F2.
    destruct (literal_lines (debug_raw (text r2))); reflexivity.
  - reflexivity.
Qed.

Lemma lookup_debug_reports_second_page_witness :
  fst (lookup Py.loads Py.unicode_escape default_config
         (fun _ n => match n with
                     | O => Ok (mkResponse 200 "<html>try again</html>")
                     | _ => Ok (mkResponse 200 (py "{'VrmDetails': {Make: Ford}}"))
                     end)
         (fun _ => "") (fun _ => inr "malformed node") (mkTimer 1 1 2) "ab12cde" true
         (initial_world default_config))
  = inl (extraction_failed "No vehicle data found for AB12CDE" "{Make: Ford}"
           "malformed node").
Proof.
  pose proof (lookup_debug_reports_second_page Py.loads Py.unicode_escape default_config
                (fun _ n => match n with
                            | O => Ok (mkResponse 200 "<html>try again</html>")
                            | _ => Ok (mkResponse 200 (py "{'VrmDetails': {Make: Ford}}"))
                            end)
                (fun _ => "") (fun _ => inr "malformed node") (mkTimer 1 1 2)
                "ab12cde" (initial_world default_config)
                (mkResponse 200 "<html>try again</html>")
                (mkResponse 200 (py "{'VrmDetails': {Make: Ford}}"))
                404 "No vehicle data found for AB12CDE"
                eq_refl eq_refl ltac:(cbn; lia) eq_refl eq_refl
                ltac:(cbn; lia) ltac:(cbn; lia) ltac:(vm_compute; reflexivity)) as [H _].
  rewrite H. vm_compute. reflexivity.
Defined.

(** ** The route and the cache *)

Lemma get_vehicle_info_miss_stored jl ue cfg up clock vrm w info w' :
  cache_contains (cache w) (at_contains clock) vrm = false ->
  get_vehicle_info jl ue cfg up clock vrm w = (Ok info, w') ->
  find_link vrm (links (cache w'))
  = Some (mkLink vrm info (at_setitem clock + ttl (cache w))).
Proof.
  intros M H. rewrite (get_vehicle_info_miss _ _ _ _ _ _ _ M) in H.
  destruct (_fetch_html cfg up vrm (trace w)) as [[html|e] tr]; [|discriminate].
  destruct (_parse_html jl ue html vrm) as [info'|e]; [|discriminate].
  destruct (cache_setitem (cache w) (at_setitem clock) vrm info') as [[[]|e] c] eqn:S;
    [|discriminate].
  inversion H; subst info' w'. cbn [cache].
  apply (cache_setitem_ok _ _ _ _ _ S).
Qed.

(** X22: identifiers that differ only in case share one cache entry.  When
    a lookup has fetched and stored a record, a later lookup of any
    identifier with the same upper-case form whose two timer readings fall
    before the expiry of that entry is answered with the same text, with or
    without [debug], and sends no request. *)
Theorem lookup_repeat_served_from_cache (jl : string -> Result json)
    (ue : string -> Result string) (cfg : Config) (up : Upstream)
    (str_value : json -> string) (literal_lines : string -> list string + string)
    (clock1 clock2 : Timer) (vrm1 vrm2 : string) (debug1 debug2 : bool)
    (w w1 : World) (members : list (string * json)) :
  upper vrm2 = upper vrm1 ->
  VRM_RE_fullmatch (upper vrm1) = true ->
  cache_contains (cache w) (at_contains clock1) (upper vrm1) = false ->
  get_vehicle_info jl ue cfg up clock1 (upper vrm1) w = (Ok (JObject members), w1) ->
  at_contains clock2 <= at_getitem clock2 ->
  at_getitem clock2 < at_setitem clock1 + ttl (cache w) ->
  lookup jl ue cfg up str_value literal_lines clock1 vrm1 debug1 w
  = (inl (plain_lines (render str_value members)), w1) /\
  fst (lookup jl ue cfg up str_value literal_lines clock2 vrm2 debug2 w1)
  = inl (plain_lines (render str_value members)) /\
  trace (snd (lookup jl ue cfg up str_value literal_lines clock2 vrm2 debug2 w1))
  = trace w1.
Proof.
  intros U V M G T1 T2.
  pose proof (get_vehicle_info_miss_stored _ _ _ _ _ _ _ _ _ M G) as St.
  split; [unfold lookup; rewrite V, G; reflexivity|].
  unfold lookup. rewrite U, V. cbn [negb].
  rewrite (get_vehicle_info_hit jl ue cfg up clock2 (upper vrm1) w1 _ St T1 T2).
  cbn [link_value fst snd trace]. split; reflexivity.
Qed.

Lemma lookup_repeat_served_from_cache_witness :
  fst (lookup Py.loads Py.unicode_escape default_config
         (serving (py "'VrmDetails': {'Make': 'Ford'}"))
         (fun _ => "Ford") (fun _ => inr "") (mkTimer 10 10 11) "Ab12cDe" true
         (snd (get_vehicle_info Py.loads Py.unicode_escape default_config
                 (serving (py "'VrmDetails': {'Make': 'Ford'}")) (mkTimer 1 1 2)
                 "AB12CDE" (initial_world default_config))))
  = inl (mkPlainText "Make: Ford" "text/plain").
Proof.
  apply (lookup_repeat_served_from_cache Py.loads Py.unicode_escape default_config
           (serving (py "'VrmDetails': {'Make': 'Ford'}"))
           (fun _ => "Ford") (fun _ => inr "") (mkTimer 1 1 2) (mkTimer 10 10 11)
           "ab12cde" "Ab12cDe" false true (initial_world default_config)
           (snd (get_vehicle_info Py.loads Py.unicode_escape default_config
                   (serving (py "'VrmDetails': {'Make': 'Ford'}")) (mkTimer 1 1 2)
                   "AB12CDE" (initial_world default_config)))
           [("Make", JString "Ford")]).
  - reflexivity.
  - reflexivity.
  - reflexivity.
  - vm_compute. reflexivity.
  - cbn. lia.
  - cbn. lia.
Defined.
